(** * ADF document model, validator, finder and writer of mcp-atlassian

    A shallow embedding of [src/mcp_atlassian/adf]: [types.py] (the pydantic
    node models), [document.py] (path addressed access), [validator.py],
    [finder.py] and [writer.py], followed by the properties of the
    specification that were checked against them.

    Conventions.  Python values that travel as JSON are terms of [json];
    a Python [dict] is an association list in insertion order with
    [dict_get] as [dict.get].  A call that can raise returns [res], whose
    [Raise] carries the exception class.  A pydantic model is a record that
    also remembers which optional fields were given explicitly
    ([model_fields_set]), since [to_dict] dumps with [exclude_unset]. *)

From Stdlib Require Import List String Ascii ZArith Bool Lia Arith.
From Stdlib Require Import DecimalString Sorted Permutation.
Import ListNotations.
Local Open Scope string_scope.
Local Open Scope list_scope.
Local Open Scope Z_scope.

Infix "+++" := String.append (right associativity, at level 60).

Set Implicit Arguments.
Set Warnings "-register-all".

(* ================================================================= *)
(** ** JSON values *)

Inductive json : Type :=
| JNull
| JBool (b : bool)
| JNum (n : Z)
| JStr (s : string)
| JArr (items : list json)
| JObj (fields : list (string * json)).

Definition dict := list (string * json).

(** [d.get(k)] *)
Fixpoint dict_get (k : string) (d : dict) : option json :=
  match d with
  | [] => None
  | (k', v) :: rest => if String.eqb k k' then Some v else dict_get k rest
  end.

Definition dict_has (k : string) (d : dict) : bool :=
  match dict_get k d with Some _ => true | None => false end.

(** [d[k] = v]: overwrite in place when the key exists, append otherwise. *)
Fixpoint dict_set (k : string) (v : json) (d : dict) : dict :=
  match d with
  | [] => [(k, v)]
  | (k', v') :: rest =>
      if String.eqb k k' then (k, v) :: rest else (k', v') :: dict_set k v rest
  end.

(** [{**a, **b}] *)
Definition dict_merge (a b : dict) : dict :=
  fold_left (fun acc kv => dict_set (fst kv) (snd kv) acc) b a.

(** Python truthiness of a JSON value. *)
Definition truthy (j : json) : bool :=
  match j with
  | JNull => false
  | JBool b => b
  | JNum n => negb (n =? 0)
  | JStr s => negb (String.eqb s "")
  | JArr l => match l with [] => false | _ => true end
  | JObj l => match l with [] => false | _ => true end
  end.

(** [truthy] of [d.get(k)], where a missing key gives [None]. *)
Definition get_truthy (k : string) (d : dict) : bool :=
  match dict_get k d with Some v => truthy v | None => false end.

(** Python [==] on JSON values: dictionaries compare without order, and
    [True == 1]. *)
Fixpoint py_eq (a b : json) : bool :=
  match a, b with
  | JNull, JNull => true
  | JBool x, JBool y => Bool.eqb x y
  | JBool x, JNum n => n =? (if x then 1 else 0)
  | JNum n, JBool x => n =? (if x then 1 else 0)
  | JNum x, JNum y => x =? y
  | JStr x, JStr y => String.eqb x y
  | JArr xs, JArr ys =>
      (fix go (l1 : list json) (l2 : list json) {struct l1} : bool :=
         match l1, l2 with
         | [], [] => true
         | x :: r1, y :: r2 => py_eq x y && go r1 r2
         | _, _ => false
         end) xs ys
  | JObj xs, JObj ys =>
      (Nat.eqb (List.length xs) (List.length ys)) &&
      (fix go (l1 : list (string * json)) {struct l1} : bool :=
         match l1 with
         | [] => true
         | (k, v) :: r1 =>
             match dict_get k ys with
             | Some v' => py_eq v v' && go r1
             | None => false
             end
         end) xs
  | _, _ => false
  end.

(* ================================================================= *)
(** ** Exceptions and results *)

Inductive exn : Type :=
| IndexError
| TypeError
| AttributeError
| PydanticError              (* pydantic ValidationError, a ValueError *)
| ValueError (msg : string)
| RuntimeError (msg : string)
| RecursionError
| NotModelled.               (* the source goes on where the embedding stops *)

Inductive res (A : Type) : Type :=
| Ok (a : A)
| Raise (e : exn).
Arguments Ok {A} a.
Arguments Raise {A} e.

Definition bind {A B} (r : res A) (k : A -> res B) : res B :=
  match r with Ok a => k a | Raise e => Raise e end.

Notation "x <- c ;; k" := (bind c (fun x => k))
  (at level 61, c at next level, right associativity).

(* ================================================================= *)
(** ** Strings as Python uses them here *)

Definition lower_ascii (c : ascii) : ascii :=
  let n := nat_of_ascii c in
  if (Nat.leb 65 n && Nat.leb n 90)%bool then ascii_of_nat (n + 32) else c.

(** [s.lower()] of an ASCII string: the letters A to Z are the cased
    characters there.  A character outside ASCII is left as it is, which
    is not what [str.lower] does to a cased one, so [lower] is
    [str.lower] on ASCII strings only. *)
Fixpoint lower (s : string) : string :=
  match s with
  | EmptyString => EmptyString
  | String c r => String (lower_ascii c) (lower r)
  end.

Fixpoint starts_with (p s : string) : bool :=
  match p, s with
  | EmptyString, _ => true
  | String a p', String b s' => Ascii.eqb a b && starts_with p' s'
  | String _ _, EmptyString => false
  end.

(** [p in s] for strings. *)
Fixpoint contains (p s : string) : bool :=
  starts_with p s ||
  match s with
  | EmptyString => false
  | String _ s' => contains p s'
  end.

Definition str_in (s : string) (l : list string) : bool :=
  existsb (String.eqb s) l.

(** [str(n)] for an integer. *)
Definition str_of_Z (n : Z) : string := NilZero.string_of_int (Z.to_int n).

(* ================================================================= *)
(** ** constants.py *)

Definition ADF_VERSION : Z := 1.
Definition ADF_DOCUMENT_TYPE : string := "doc".

(** The keys of [NODE_TYPES]. *)
Definition NODE_TYPES : list string :=
  [ "blockquote"; "bulletList"; "codeBlock"; "heading"; "mediaGroup";
    "mediaSingle"; "orderedList"; "panel"; "paragraph"; "rule"; "table";
    "date"; "emoji"; "hardBreak"; "inlineCard"; "mention"; "status"; "text";
    "doc"; "listItem"; "tableRow"; "tableCell"; "tableHeader";
    "extension"; "bodiedExtension"; "inlineExtension" ].

(** The keys of [MARK_TYPES]. *)
Definition MARK_TYPES : list string :=
  [ "code"; "em"; "link"; "strike"; "strong"; "subsup"; "textColor";
    "backgroundColor"; "underline"; "alignment" ].

Definition PANEL_TYPES : list string :=
  [ "info"; "note"; "warning"; "error"; "success"; "tip" ].

Definition CONFLUENCE_COLORS : list string :=
  [ "red"; "orange"; "yellow"; "green"; "teal"; "blue"; "purple"; "gray";
    "light-red"; "light-orange"; "light-yellow"; "light-green";
    "light-teal"; "light-blue"; "light-purple"; "light-gray" ].

Definition MAX_DEPTH : Z := 20.
Definition MAX_TEXT_LENGTH : Z := 10000.
Definition MAX_ATTRS_PER_NODE : Z := 50.

Definition EMPTY_ADF_DOCUMENT : json :=
  JObj [ ("version", JNum ADF_VERSION);
         ("type", JStr ADF_DOCUMENT_TYPE);
         ("content", JArr []) ].

Definition DEFAULT_PARAGRAPH : dict :=
  [ ("type", JStr "paragraph"); ("content", JArr []) ].

Definition msg_invalid_version : string :=
  "ADF version must be " +++ str_of_Z ADF_VERSION.
Definition msg_invalid_root_type : string :=
  "Root node must be of type '" +++ ADF_DOCUMENT_TYPE +++ "'".
Definition msg_invalid_node_type (t : string) : string :=
  "Unknown node type: " +++ t.
Definition msg_invalid_mark_type (t : string) : string :=
  "Unknown mark type: " +++ t.
Definition msg_max_depth_exceeded : string :=
  "Maximum nesting depth (" +++ str_of_Z MAX_DEPTH +++ ") exceeded".
Definition msg_invalid_color_value (c : string) : string :=
  "Invalid color value: " +++ c.

(* ================================================================= *)
(** ** types.py: the pydantic models *)

(** [ADFMarkModel].  [mark_attrs_set] tells whether [attrs] was given. *)
Record Mark : Type := mkMark {
  mark_type : string;
  mark_attrs : option dict;
  mark_attrs_set : bool;
  mark_extra : dict
}.

(** [ADFNodeModel].  [type] is required; the other four fields are
    optional with defaults [{}], [[]], [None], [[]]; keys outside the five
    declared ones are kept ([extra="allow"]). *)
Inductive Node : Type := mkNode {
  node_type : string;
  node_attrs : option dict;
  node_content : option (list Node);
  node_text : option string;
  node_marks : option (list Mark);
  attrs_set : bool;
  content_set : bool;
  text_set : bool;
  marks_set : bool;
  node_extra : dict
}.

(** [ADFDocumentModel]: [version] and [type] are literals, so only their
    presence is recorded. *)
Record DocModel : Type := mkDoc {
  doc_content : list Node;
  version_set : bool;
  type_set : bool;
  doc_content_set : bool;
  doc_extra : dict
}.

Definition not_declared (declared : list string) (kv : string * json) : bool :=
  negb (str_in (fst kv) declared).

(** An optional field as pydantic reads it: missing, invalid, or given. *)
Inductive field (A : Type) : Type :=
| Missing
| Invalid
| Given (v : option A).
Arguments Missing {A}.
Arguments Invalid {A}.
Arguments Given {A} v.

Definition field_value {A} (default : A) (f : field A) : option A :=
  match f with Given v => v | _ => Some default end.

Definition field_set {A} (f : field A) : bool :=
  match f with Given _ => true | _ => false end.

Definition field_ok {A} (f : field A) : bool :=
  match f with Invalid => false | _ => true end.

Definition read_dict (o : option json) : field dict :=
  match o with
  | None => Missing
  | Some JNull => Given None
  | Some (JObj d) => Given (Some d)
  | Some _ => Invalid
  end.

Definition read_str (o : option json) : field string :=
  match o with
  | None => Missing
  | Some JNull => Given None
  | Some (JStr s) => Given (Some s)
  | Some _ => Invalid
  end.

(** [ADFMarkModel.model_validate]; [None] is a pydantic [ValidationError]. *)
Definition mark_validate (j : json) : option Mark :=
  match j with
  | JObj fs =>
      match dict_get "type" fs with
      | Some (JStr t) =>
          let a := read_dict (dict_get "attrs" fs) in
          if str_in t MARK_TYPES && field_ok a then
            Some (mkMark t (field_value [] a) (field_set a)
                         (filter (not_declared ["type"; "attrs"]) fs))
          else None
      | _ => None
      end
  | _ => None
  end.

(** Validate every item of a list, failing on the first invalid one. *)
Fixpoint all_valid {A B} (f : A -> option B) (l : list A) : option (list B) :=
  match l with
  | [] => Some []
  | x :: r =>
      match f x, all_valid f r with
      | Some y, Some ys => Some (y :: ys)
      | _, _ => None
      end
  end.

Definition read_marks (o : option json) : field (list Mark) :=
  match o with
  | None => Missing
  | Some JNull => Given None
  | Some (JArr ms) =>
      match all_valid mark_validate ms with
      | Some l => Given (Some l)
      | None => Invalid
      end
  | Some _ => Invalid
  end.

Definition node_declared : list string :=
  ["type"; "attrs"; "content"; "text"; "marks"].

(** [ADFNodeModel.model_validate] on a dictionary.  The [content] entry is
    located by walking the fields so that the recursion is on the
    children themselves. *)
Fixpoint node_validate (j : json) : option Node :=
  match j with
  | JObj fs =>
      let c :=
        (fix find (l : list (string * json)) : field (list Node) :=
           match l with
           | [] => Missing
           | (k, v) :: rest =>
               if String.eqb "content" k then
                 match v with
                 | JNull => Given None
                 | JArr items =>
                     match
                       (fix each (its : list json) : option (list Node) :=
                          match its with
                          | [] => Some []
                          | x :: r =>
                              match node_validate x, each r with
                              | Some y, Some ys => Some (y :: ys)
                              | _, _ => None
                              end
                          end) items
                     with
                     | Some ns => Given (Some ns)
                     | None => Invalid
                     end
                 | _ => Invalid
                 end
               else find rest
           end) fs in
      match dict_get "type" fs with
      | Some (JStr t) =>
          let a := read_dict (dict_get "attrs" fs) in
          let x := read_str (dict_get "text" fs) in
          let m := read_marks (dict_get "marks" fs) in
          if str_in t NODE_TYPES && field_ok a && field_ok c && field_ok x
             && field_ok m
          then
            Some (mkNode t (field_value [] a) (field_value [] c)
                    (match x with Given v => v | _ => None end)
                    (field_value [] m)
                    (field_set a) (field_set c) (field_set x) (field_set m)
                    (filter (not_declared node_declared) fs))
          else None
      | _ => None
      end
  | _ => None
  end.

Definition read_content (o : option json) : field (list Node) :=
  match o with
  | None => Missing
  | Some JNull => Given None
  | Some (JArr items) =>
      match all_valid node_validate items with
      | Some l => Given (Some l)
      | None => Invalid
      end
  | Some _ => Invalid
  end.

Definition doc_declared : list string := ["version"; "type"; "content"].

(** [ADFDocumentModel.model_validate].  [version] is [Literal[1]], which
    the integer 1 and the boolean [True] satisfy. *)
Definition doc_validate (j : json) : option DocModel :=
  match j with
  | JObj fs =>
      let v_ok := match dict_get "version" fs with
                  | None => true
                  | Some (JNum n) => n =? ADF_VERSION
                  | Some (JBool b) => b     (* [True == 1] *)
                  | Some _ => false
                  end in
      let t_ok := match dict_get "type" fs with
                  | None => true
                  | Some (JStr s) => String.eqb s ADF_DOCUMENT_TYPE
                  | Some _ => false
                  end in
      match read_content (dict_get "content" fs) with
      | Invalid | Given None => None
      | Missing =>
          if v_ok && t_ok then
            Some (mkDoc [] (dict_has "version" fs) (dict_has "type" fs) false
                        (filter (not_declared doc_declared) fs))
          else None
      | Given (Some ns) =>
          if v_ok && t_ok then
            Some (mkDoc ns (dict_has "version" fs) (dict_has "type" fs) true
                        (filter (not_declared doc_declared) fs))
          else None
      end
  | _ => None
  end.

(** *** Serialisation *)

Definition opt_json {A} (f : A -> json) (o : option A) : json :=
  match o with Some a => f a | None => JNull end.

(** [model_dump()] of a mark: every field, defaults included. *)
Definition mark_dump (m : Mark) : json :=
  JObj ([ ("type", JStr (mark_type m));
          ("attrs", opt_json JObj (mark_attrs m)) ] ++ mark_extra m).

Definition non_null (kv : string * json) : bool :=
  match snd kv with JNull => false | _ => true end.

(** One entry of a dump with [exclude_none] and [exclude_unset]. *)
Definition entry {A} (k : string) (is_set : bool) (f : A -> json)
    (o : option A) : dict :=
  match o with
  | Some a => if is_set then [(k, f a)] else []
  | None => []
  end.

(** [model_dump(exclude_none=True, exclude_unset=True)] of a mark. *)
Definition mark_dump_x (m : Mark) : json :=
  JObj ([ ("type", JStr (mark_type m)) ]
        ++ entry "attrs" (mark_attrs_set m) JObj (mark_attrs m)
        ++ filter non_null (mark_extra m)).

(** [model_dump()] of a node. *)
Fixpoint node_dump (n : Node) : json :=
  JObj ([ ("type", JStr (node_type n));
          ("attrs", opt_json JObj (node_attrs n));
          ("content", match node_content n with
                      | Some l => JArr (map node_dump l)
                      | None => JNull
                      end);
          ("text", opt_json JStr (node_text n));
          ("marks", opt_json (fun l => JArr (map mark_dump l)) (node_marks n)) ]
        ++ node_extra n).

(** [model_dump(exclude_none=True, exclude_unset=True)] of a node. *)
Fixpoint node_dump_x (n : Node) : json :=
  JObj ([ ("type", JStr (node_type n)) ]
        ++ entry "attrs" (attrs_set n) JObj (node_attrs n)
        ++ match node_content n with
           | Some l =>
               if content_set n then [("content", JArr (map node_dump_x l))]
               else []
           | None => []
           end
        ++ entry "text" (text_set n) JStr (node_text n)
        ++ entry "marks" (marks_set n) (fun l => JArr (map mark_dump_x l))
             (node_marks n)
        ++ filter non_null (node_extra n)).

(** [ADFDocumentModel.model_dump(exclude_none=True, exclude_unset=True)]. *)
Definition doc_dump_x (m : DocModel) : dict :=
  (if version_set m then [("version", JNum ADF_VERSION)] else [])
  ++ (if type_set m then [("type", JStr ADF_DOCUMENT_TYPE)] else [])
  ++ (if doc_content_set m
      then [("content", JArr (map node_dump_x (doc_content m)))] else [])
  ++ filter non_null (doc_extra m).

(** [ADFDocumentModel.model_dump()]. *)
Definition doc_dump (m : DocModel) : json :=
  JObj ([ ("version", JNum ADF_VERSION);
          ("type", JStr ADF_DOCUMENT_TYPE);
          ("content", JArr (map node_dump (doc_content m))) ] ++ doc_extra m).

(* ================================================================= *)
(** ** Python lists *)

Definition len {A} (l : list A) : Z := Z.of_nat (List.length l).

(** The position that [l[i]] addresses, negative indices counting from the
    end; [None] is an [IndexError]. *)
Definition py_pos (n : nat) (i : Z) : option nat :=
  if (0 <=? i) && (i <? Z.of_nat n) then Some (Z.to_nat i)
  else if (i <? 0) && (- Z.of_nat n <=? i) then Some (Z.to_nat (Z.of_nat n + i))
  else None.

Definition py_nth {A} (l : list A) (i : Z) : option A :=
  match py_pos (List.length l) i with
  | Some k => nth_error l k
  | None => None
  end.

Fixpoint list_alter {A} (f : A -> A) (k : nat) (l : list A) {struct l}
  : list A :=
  match l, k with
  | [], _ => []
  | x :: r, O => f x :: r
  | x :: r, S k' => x :: list_alter f k' r
  end.

Fixpoint list_remove {A} (k : nat) (l : list A) {struct l} : list A :=
  match l, k with
  | [], _ => []
  | _ :: r, O => r
  | x :: r, S k' => x :: list_remove k' r
  end.

(** [l.insert(k, x)] for [0 <= k]; past the end it appends. *)
Fixpoint list_insert {A} (k : nat) (x : A) (l : list A) : list A :=
  match k, l with
  | O, _ => x :: l
  | S _, [] => [x]
  | S k', y :: r => y :: list_insert k' x r
  end.

(** Where [l.insert(i, x)] puts [x] for any integer [i]. *)
Definition py_insert_pos (n : nat) (i : Z) : nat :=
  if i <? 0 then Z.to_nat (Z.max 0 (Z.of_nat n + i))
  else Z.to_nat (Z.min i (Z.of_nat n)).

(* ================================================================= *)
(** ** document.py *)

Record ElementPath : Type := mkEP {
  ep_path : list Z;
  ep_type : string;
  ep_text_content : option string
}.

(** The loop shared by the recursive walks of [document.py] and
    [finder.py]: visit each node with its path and index, then its
    children when [node.content] is a non-empty list. *)
Fixpoint traverse_node {R} (visit : list Z -> Z -> Node -> list R)
    (path : list Z) (i : Z) (n : Node) : list R :=
  visit (path ++ [i]) i n ++
  match node_content n with
  | Some l =>
      (fix go (l : list Node) (j : Z) : list R :=
         match l with
         | [] => []
         | c :: r => traverse_node visit (path ++ [i]) j c ++ go r (j + 1)
         end) l 0
  | None => []
  end.

Fixpoint traverse_from {R} (visit : list Z -> Z -> Node -> list R)
    (path : list Z) (j : Z) (l : list Node) : list R :=
  match l with
  | [] => []
  | c :: r => traverse_node visit path j c ++ traverse_from visit path (j + 1) r
  end.

Definition traverse {R} (visit : list Z -> Z -> Node -> list R)
    (content : list Node) (path : list Z) : list R :=
  traverse_from visit path 0 content.

Record ADFDocument : Type := mkADF {
  raw_data : json;
  model : DocModel;
  element_map : list ElementPath
}.

(** [ADFDocumentModel.model_validate(EMPTY_ADF_DOCUMENT)] *)
Definition empty_model : DocModel := mkDoc [] true true true [].

Definition set_doc_content (m : DocModel) (c : list Node) : DocModel :=
  mkDoc c (version_set m) (type_set m) (doc_content_set m) (doc_extra m).

Definition set_node_content (n : Node) (c : option (list Node)) : Node :=
  mkNode (node_type n) (node_attrs n) c (node_text n) (node_marks n)
         (attrs_set n) (content_set n) (text_set n) (marks_set n)
         (node_extra n).

Definition _build_element_map (m : DocModel) : list ElementPath :=
  traverse (fun p _ n => [mkEP p (node_type n) (node_text n)])
           (doc_content m) [].

(** [ADFDocument.__init__]: a document that does not validate is replaced
    by the empty model, while [_raw_data] keeps what was passed. *)
Definition ADFDocument_init (data : option json) : ADFDocument :=
  let data := match data with Some d => d | None => EMPTY_ADF_DOCUMENT end in
  let m := match doc_validate data with
           | Some m => m
           | None => empty_model
           end in
  mkADF data m (_build_element_map m).

Definition from_dict (data : json) : ADFDocument := ADFDocument_init (Some data).

Definition model_to_dict (m : DocModel) : json :=
  let result := doc_dump_x m in
  let result := if dict_has "version" result then result
                else dict_set "version" (JNum ADF_VERSION) result in
  let result := if dict_has "type" result then result
                else dict_set "type" (JStr ADF_DOCUMENT_TYPE) result in
  JObj result.

Definition to_dict (d : ADFDocument) : json := model_to_dict (model d).

(** The state after a mutation of the content: the two caches are
    recomputed from the new tree. *)
Definition refreshed (d : ADFDocument) (c : list Node) : ADFDocument :=
  let m := set_doc_content (model d) c in
  mkADF (model_to_dict m) m (_build_element_map m).

(** [current = current[index].content] along [idxs]. *)
Fixpoint descend (current : option (list Node)) (idxs : list Z)
  : res (option (list Node)) :=
  match idxs with
  | [] => Ok current
  | index :: rest =>
      match current with
      | None => Raise TypeError
      | Some l =>
          match py_nth l index with
          | None => Raise IndexError
          | Some n => descend (node_content n) rest
          end
      end
  end.

Definition _get_node_by_path (d : ADFDocument) (path : list Z)
  : res (option Node) :=
  let body :=
    current <- descend (Some (doc_content (model d))) (removelast path) ;;
    match path with
    | [] => Ok None
    | _ =>
        match current with
        | None => Raise TypeError
        | Some l =>
            match py_nth l (last path 0) with
            | None => Raise IndexError
            | Some n => Ok (Some n)
            end
        end
    end in
  match body with
  | Raise IndexError | Raise AttributeError => Ok None
  | r => r
  end.

Definition _get_element_at_path := _get_node_by_path.

(** [_get_parent_at_path]: the list a path leads into. *)
Fixpoint get_parent (current : list Node) (path : list Z)
  : option (list Node) :=
  match path with
  | [] => Some current
  | index :: rest =>
      if index >=? len current then None
      else
        match py_nth current index with
        | None => None
        | Some element =>
            match node_content element with
            | Some c => get_parent c rest
            | None => None
            end
        end
  end.

Definition _get_parent_at_path (d : ADFDocument) (path : list Z)
  : option (list Node) :=
  get_parent (doc_content (model d)) path.

(** The tree after the list reached by [path] has been changed in place
    by [f]. *)
Fixpoint modify_parent (f : list Node -> list Node) (current : list Node)
    (path : list Z) : list Node :=
  match path with
  | [] => f current
  | index :: rest =>
      match py_pos (List.length current) index with
      | Some k =>
          list_alter
            (fun e => set_node_content e
                        (option_map (fun c => modify_parent f c rest)
                                    (node_content e)))
            k current
      | None => current
      end
  end.

(** What the mutators are given as a new element: a JSON value or a node
    model.  A dictionary is validated, and a dictionary that does not
    validate raises pydantic's error; a node model is stored as it is.
    Any other value is stored as it is too: the lists of this embedding
    hold node models only, so the embedding stops there. *)
Inductive element : Type :=
| EDict (j : json)
| EModel (n : Node).

Definition to_model (e : element) : res Node :=
  match e with
  | EDict (JObj fs) =>
      match node_validate (JObj fs) with
      | Some n => Ok n
      | None => Raise PydanticError
      end
  | EDict _ => Raise NotModelled
  | EModel n => Ok n
  end.

Definition _replace_element_at_path (d : ADFDocument) (path : list Z)
    (new_element : element) : res (bool * ADFDocument) :=
  match path with
  | [] => Ok (false, d)
  | _ =>
      let parent_path := removelast path in
      let element_index := last path 0 in
      match _get_parent_at_path d parent_path with
      | None => Ok (false, d)
      | Some parent =>
          if element_index >=? len parent then Ok (false, d)
          else
            n <- to_model new_element ;;
            match py_pos (List.length parent) element_index with
            | None => Ok (false, d)
            | Some k =>
                Ok (true,
                    refreshed d
                      (modify_parent (list_alter (fun _ => n) k)
                         (doc_content (model d)) parent_path))
            end
      end
  end.

Definition _insert_element_at_path (d : ADFDocument) (parent_path : list Z)
    (index : Z) (new_element : element) : res (bool * ADFDocument) :=
  match _get_parent_at_path d parent_path with
  | None => Ok (false, d)
  | Some parent =>
      let insert_index := Z.max 0 (Z.min index (len parent)) in
      n <- to_model new_element ;;
      Ok (true,
          refreshed d
            (modify_parent (list_insert (py_insert_pos (List.length parent) insert_index) n)
               (doc_content (model d)) parent_path))
  end.

Definition _delete_element_at_path (d : ADFDocument) (path : list Z)
  : bool * ADFDocument :=
  match path with
  | [] => (false, d)
  | _ =>
      let parent_path := removelast path in
      let element_index := last path 0 in
      match _get_parent_at_path d parent_path with
      | None => (false, d)
      | Some parent =>
          if element_index >=? len parent then (false, d)
          else
            match py_pos (List.length parent) element_index with
            | None => (false, d)
            | Some k =>
                (true,
                 refreshed d
                   (modify_parent (list_remove k)
                      (doc_content (model d)) parent_path))
            end
      end
  end.

(** [clear]: the content list is emptied in place. *)
Definition clear (d : ADFDocument) : ADFDocument :=
  mkADF EMPTY_ADF_DOCUMENT (set_doc_content (model d) []) [].

Definition is_empty (d : ADFDocument) : bool :=
  len (doc_content (model d)) =? 0.

Record ElementUpdate : Type := mkUpdate {
  operation : string;
  target_path : list Z;
  new_content : json
}.

(** [update_element]: every exception inside is turned into [False]. *)
Definition update_element (d : ADFDocument) (u : ElementUpdate)
  : bool * ADFDocument :=
  let content := doc_content (model d) in
  match target_path u with
  | [] => (false, d)
  | _ =>
      let parent_path := removelast (target_path u) in
      let target_index := last (target_path u) 0 in
      let commit f := (true, refreshed d (modify_parent f content parent_path)) in
      match descend (Some content) parent_path with
      | Raise _ => (false, d)
      | Ok current_content =>
          if String.eqb (operation u) "replace" then
            match current_content with
            | None => (false, d)
            | Some l =>
                if (0 <=? target_index) && (target_index <? len l) then
                  match node_validate (new_content u) with
                  | Some n => commit (list_alter (fun _ => n) (Z.to_nat target_index))
                  | None => (false, d)
                  end
                else (false, d)
            end
          else if String.eqb (operation u) "insert_before" then
            match node_validate (new_content u), current_content with
            | Some n, Some l =>
                commit (list_insert (py_insert_pos (List.length l) target_index) n)
            | _, _ => (false, d)
            end
          else if String.eqb (operation u) "insert_after" then
            match node_validate (new_content u), current_content with
            | Some n, Some l =>
                commit (list_insert (py_insert_pos (List.length l) (target_index + 1)) n)
            | _, _ => (false, d)
            end
          else if String.eqb (operation u) "delete" then
            match current_content with
            | None => (false, d)
            | Some l =>
                if (0 <=? target_index) && (target_index <? len l) then
                  commit (list_remove (Z.to_nat target_index))
                else commit (fun c => c)
            end
          else commit (fun c => c)
      end
  end.

Definition add_paragraph (d : ADFDocument) (text : string)
  : bool * ADFDocument :=
  let paragraph :=
    if negb (String.eqb text "") then
      dict_set "content"
        (JArr [JObj [("type", JStr "text"); ("text", JStr text)]])
        DEFAULT_PARAGRAPH
    else DEFAULT_PARAGRAPH in
  let content := doc_content (model d) in
  match content with
  | [] =>
      match node_validate (JObj paragraph) with
      | Some n => (true, refreshed d (content ++ [n]))
      | None => (false, d)
      end
  | _ =>
      update_element d
        (mkUpdate "insert_after" [len content - 1] (JObj paragraph))
  end.

(** Induction over a node and, with it, all its children. *)
Section NodeInduction.
Variable P : Node -> Prop.
Hypothesis step :
  forall t a c x m sa sc sx sm e,
    (forall l, c = Some l -> Forall P l) ->
    P (mkNode t a c x m sa sc sx sm e).

Fixpoint Node_rect' (n : Node) : P n :=
  match n with
  | mkNode t a c x m sa sc sx sm e =>
      step t a x m sa sc sx sm e
        (match c as c0 return forall l, c0 = Some l -> Forall P l with
         | Some l0 =>
             fun l H =>
               match H in _ = o return
                 match o with Some l' => Forall P l' | None => True end
               with
               | eq_refl =>
                   (fix all (l1 : list Node) : Forall P l1 :=
                      match l1 with
                      | [] => Forall_nil P
                      | y :: r => Forall_cons y (Node_rect' y) (all r)
                      end) l0
               end
         | None => fun l H => match H with eq_refl => I end
         end)
  end.
End NodeInduction.

(* ================================================================= *)
(** ** What every validated model satisfies *)

Definition extra_ok (declared : list string) (e : dict) : bool :=
  forallb (not_declared declared) e.

Definition mark_ok (m : Mark) : bool :=
  str_in (mark_type m) MARK_TYPES && extra_ok ["type"; "attrs"] (mark_extra m).

(** A node as [ADFNodeModel.model_validate] builds it: known type, known
    mark types, no declared field among the extras, all the way down. *)
Fixpoint node_ok (n : Node) : bool :=
  str_in (node_type n) NODE_TYPES
  && match node_marks n with Some ms => forallb mark_ok ms | None => true end
  && extra_ok node_declared (node_extra n)
  && match node_content n with
     | Some l => forallb node_ok l
     | None => true
     end.

Definition model_ok (m : DocModel) : bool :=
  forallb node_ok (doc_content m) && extra_ok doc_declared (doc_extra m).

Definition element_ok (e : element) : bool :=
  match e with EDict _ => true | EModel n => node_ok n end.

(** Two dumps are the same Python dictionary when they agree on every
    key; the order of the entries is not observable through [==]. *)
Definition same_dict (a b : json) : Prop :=
  match a, b with
  | JObj x, JObj y => forall k, dict_get k x = dict_get k y
  | _, _ => False
  end.

(** The documents that the Document Model operations produce from node
    dictionaries: a constructor call followed by any number of replace,
    insert, delete, [update_element], [add_paragraph] and [clear] calls,
    where the new element of a replace or an insert is a dictionary that
    validates or a node model that validation produced.  Documents that
    hold a value of another kind, which replace and insert store as it
    is, are not among them. *)
Inductive built : ADFDocument -> Prop :=
| built_init data : built (ADFDocument_init data)
| built_replace d path e b d' :
    built d -> element_ok e = true ->
    _replace_element_at_path d path e = Ok (b, d') -> built d'
| built_insert d path i e b d' :
    built d -> element_ok e = true ->
    _insert_element_at_path d path i e = Ok (b, d') -> built d'
| built_delete d path :
    built d -> built (snd (_delete_element_at_path d path))
| built_update d u :
    built d -> built (snd (update_element d u))
| built_add_paragraph d text :
    built d -> built (snd (add_paragraph d text))
| built_clear d :
    built d -> built (clear d).

(** A node of the input that carries a type outside [NODE_TYPES], or a
    mark with a type outside [MARK_TYPES], itself or anywhere below it. *)
Inductive unknown_in_node : json -> Prop :=
| unknown_node_type fs t :
    dict_get "type" fs = Some (JStr t) -> str_in t NODE_TYPES = false ->
    unknown_in_node (JObj fs)
| unknown_mark_type fs ms mfs t :
    dict_get "marks" fs = Some (JArr ms) -> In (JObj mfs) ms ->
    dict_get "type" mfs = Some (JStr t) -> str_in t MARK_TYPES = false ->
    unknown_in_node (JObj fs)
| unknown_below fs items c :
    dict_get "content" fs = Some (JArr items) -> In c items ->
    unknown_in_node c -> unknown_in_node (JObj fs).

Definition unknown_in_doc (data : json) : Prop :=
  exists fs items c,
    data = JObj fs /\ dict_get "content" fs = Some (JArr items)
    /\ In c items /\ unknown_in_node c.

(** A path of non-negative indices that leaves the tree: at some hop the
    index is past the end of the list reached so far. *)
Fixpoint out_of_range (content : list Node) (path : list Z) : Prop :=
  match path with
  | [] => False
  | i :: rest =>
      0 <= i /\
      (len content <= i \/
       exists n c, nth_error content (Z.to_nat i) = Some n
                   /\ node_content n = Some c /\ out_of_range c rest)
  end.

(* ================================================================= *)
(** ** validator.py *)

(** Python operations on values of unknown type, with the exception they
    raise when the value is of the wrong kind. *)

(** [x.get(k)] *)
Definition json_get (x : json) (k : string) : res (option json) :=
  match x with
  | JObj d => Ok (dict_get k d)
  | _ => Raise AttributeError
  end.

(** [x in D] for a dictionary [D] with string keys: [x] is hashed. *)
Definition key_in (x : json) (keys : list string) : res bool :=
  match x with
  | JStr s => Ok (str_in s keys)
  | JArr _ | JObj _ => Raise TypeError
  | _ => Ok false
  end.

(** [k in x] for a string [k]. *)
Definition py_contains (k : string) (x : json) : res bool :=
  match x with
  | JObj d => Ok (dict_has k d)
  | JStr s => Ok (contains k s)
  | JArr l => Ok (existsb (py_eq (JStr k)) l)
  | _ => Raise TypeError
  end.

Fixpoint chars (s : string) : list json :=
  match s with
  | EmptyString => []
  | String c r => JStr (String c EmptyString) :: chars r
  end.

(** What [for x in v] runs over. *)
Definition py_iter (v : json) : res (list json) :=
  match v with
  | JArr l => Ok l
  | JStr s => Ok (chars s)
  | JObj d => Ok (map (fun kv => JStr (fst kv)) d)
  | _ => Raise TypeError
  end.

Definition is_dict (j : json) : bool :=
  match j with JObj _ => true | _ => false end.

(** A message: fixed text, a template filled with a value, or a text
    followed by [str(e)] of an exception. *)
Inductive vmsg : Type :=
| VMsg (text : string)
| VFmt (template : string) (arg : json)
| VExn (text : string) (e : exn).

Record ValidationError : Type := mkVE {
  ve_path : list Z;
  ve_message : vmsg;
  ve_severity : string
}.

(** The mutable fields of [ADFValidator]. *)
Record VState : Type := mkVS {
  errors : list ValidationError;
  warnings : list ValidationError;
  current_depth : Z
}.

(** A method of the validator: it reads and writes the state and may
    raise; the state written before the exception stays. *)
Definition VM (A : Type) : Type := VState -> res A * VState.

Definition vret {A} (a : A) : VM A := fun st => (Ok a, st).
Definition vraise {A} (e : exn) : VM A := fun st => (Raise e, st).
Definition vlift {A} (r : res A) : VM A := fun st => (r, st).
Definition vbind {A B} (m : VM A) (k : A -> VM B) : VM B :=
  fun st =>
    match m st with
    | (Ok a, st') => k a st'
    | (Raise e, st') => (Raise e, st')
    end.

Notation "x <~ c ;; k" := (vbind c (fun x => k))
  (at level 61, c at next level, right associativity).
Notation "c ;;; k" := (vbind c (fun _ => k))
  (at level 61, right associativity).

(** [_add_error]; the path items that are not integers (the
    ["marks[i]"] suffix) are dropped there, so paths are integer lists. *)
Definition _add_error (path : list Z) (message : vmsg) (severity : string)
  : VM unit :=
  fun st =>
    let error :=
      mkVE path message
           (if str_in severity ["error"; "warning"] then severity else "error") in
    if String.eqb severity "error"
    then (Ok tt, mkVS (errors st ++ [error]) (warnings st) (current_depth st))
    else (Ok tt, mkVS (errors st) (warnings st ++ [error]) (current_depth st)).

Definition _add_warning (path : list Z) (message : vmsg) : VM unit :=
  _add_error path message "warning".

Definition no_errors : VM bool :=
  fun st => (Ok (len (errors st) =? 0), st).

Definition set_depth (d : Z) : VM unit :=
  fun st => (Ok tt, mkVS (errors st) (warnings st) d).

Definition _reset_validation_state : VState := mkVS [] [] 0.

Definition is_hex (c : ascii) : bool :=
  let n := nat_of_ascii c in
  ((Nat.leb 48 n && Nat.leb n 57) || (Nat.leb 97 n && Nat.leb n 102)
   || (Nat.leb 65 n && Nat.leb n 70))%bool.

Fixpoint all_hex (s : string) : bool :=
  match s with
  | EmptyString => true
  | String c r => is_hex c && all_hex r
  end.

Definition _validate_color_value (color : json) : bool :=
  match color with
  | JStr s =>
      match s with
      | String "#" rest =>
          ((Nat.eqb (String.length s) 4) || (Nat.eqb (String.length s) 7))
          && all_hex rest
      | _ => str_in s CONFLUENCE_COLORS
      end
  | _ => false
  end.

Definition _validate_root_structure (document : json) : VM bool :=
  match document with
  | JObj d =>
      if negb (dict_has "version" d) then
        _add_error [] (VFmt "Missing required field: {}" (JStr "version")) "error" ;;;
        vret false
      else if negb (dict_has "type" d) then
        _add_error [] (VFmt "Missing required field: {}" (JStr "type")) "error" ;;;
        vret false
      else if negb (dict_has "content" d) then
        _add_error [] (VFmt "Missing required field: {}" (JStr "content")) "error" ;;;
        vret false
      else vret true
  | _ =>
      _add_error [] (VMsg "Document must be a dictionary") "error" ;;; vret false
  end.

Definition or_null (o : option json) : json :=
  match o with Some v => v | None => JNull end.

Definition _validate_version (version : json) : VM bool :=
  if negb (py_eq version (JNum ADF_VERSION)) then
    _add_error [] (VMsg msg_invalid_version) "error" ;;; vret false
  else vret true.

Definition _validate_document_type (doc_type : json) : VM bool :=
  if negb (py_eq doc_type (JStr ADF_DOCUMENT_TYPE)) then
    _add_error [] (VMsg msg_invalid_root_type) "error" ;;; vret false
  else vret true.

Definition _validate_node_type (node_type : json) (path : list Z) : VM bool :=
  known <~ vlift (key_in node_type NODE_TYPES) ;;
  if negb known then
    _add_error path (VFmt "Unknown node type: {}" node_type) "error" ;;;
    vret false
  else vret true.

Definition _validate_node_specific_attrs (attrs : dict) (path : list Z)
  : VM bool :=
  let check color_attr (next : VM bool) : VM bool :=
    match dict_get color_attr attrs with
    | Some color_value =>
        if negb (_validate_color_value color_value) then
          _add_error path (VFmt "Invalid color value: {}" color_value) "error" ;;;
          vret false
        else next
    | None => next
    end in
  check "backgroundColor" (check "textColor" (vret true)).

Definition _validate_attributes (attrs : json) (path : list Z) : VM bool :=
  match attrs with
  | JObj d =>
      (if len d >? MAX_ATTRS_PER_NODE then
         _add_warning path
           (VFmt "Node has many attributes ({}), consider simplifying"
                 (JNum (len d)))
       else vret tt) ;;;
      _validate_node_specific_attrs d path
  | _ =>
      _add_error path (VMsg "Attributes must be a dictionary") "error" ;;;
      vret false
  end.

Definition _validate_mark_attributes (mark : dict) (path : list Z) : VM bool :=
  let mark_type := or_null (dict_get "type" mark) in
  let attrs := match dict_get "attrs" mark with Some a => a | None => JObj [] end in
  if py_eq mark_type (JStr "textColor") || py_eq mark_type (JStr "backgroundColor")
  then
    color <~ vlift (json_get attrs "color") ;;
    let color := or_null color in
    if truthy color && negb (_validate_color_value color) then
      _add_error path (VFmt "Invalid color value: {}" color) "error" ;;;
      vret false
    else vret true
  else if py_eq mark_type (JStr "link") then
    href <~ vlift (json_get attrs "href") ;;
    if negb (truthy (or_null href)) then
      _add_error path (VMsg "Link mark missing required 'href' attribute") "error" ;;;
      vret false
    else vret true
  else vret true.

Fixpoint _validate_marks_loop (marks : list json) (path : list Z) : VM bool :=
  match marks with
  | [] => vret true
  | mark :: rest =>
      match mark with
      | JObj m =>
          let mark_type := or_null (dict_get "type" m) in
          if negb (truthy mark_type) then
            _add_error path (VMsg "Mark missing required 'type' field") "error" ;;;
            vret false
          else
            known <~ vlift (key_in mark_type MARK_TYPES) ;;
            if negb known then
              _add_error path (VFmt "Unknown mark type: {}" mark_type) "error" ;;;
              vret false
            else
              ok <~ _validate_mark_attributes m path ;;
              if negb ok then vret false else _validate_marks_loop rest path
      | _ =>
          _add_error path (VMsg "Mark must be a dictionary") "error" ;;;
          vret false
      end
  end.

Definition _validate_marks (marks : json) (path : list Z) : VM bool :=
  match marks with
  | JArr l => _validate_marks_loop l path
  | _ => _add_error path (VMsg "Marks must be an array") "error" ;;; vret false
  end.

Definition _validate_text_content (text : json) (path : list Z) : VM bool :=
  match text with
  | JStr s =>
      (if Z.of_nat (String.length s) >? MAX_TEXT_LENGTH then
         _add_warning path
           (VFmt "Text content is very long ({} chars)"
                 (JNum (Z.of_nat (String.length s))))
       else vret tt) ;;;
      vret true
  | _ =>
      _add_error path (VMsg "Text content must be a string") "error" ;;;
      vret false
  end.

Definition node_attrs_or_empty (node : dict) : json :=
  match dict_get "attrs" node with Some a => a | None => JObj [] end.

Definition _validate_heading_node (node : dict) (path : list Z) : VM bool :=
  level <~ vlift (json_get (node_attrs_or_empty node) "level") ;;
  match or_null level with
  | JNull =>
      _add_error path (VMsg "Heading node missing required 'level' attribute")
        "error" ;;;
      vret false
  | level =>
      let in_range :=
        match level with
        | JNum n => (1 <=? n) && (n <=? 6)
        | JBool b => b
        | _ => false
        end in
      if negb in_range then
        _add_error path (VMsg "Heading level must be integer between 1 and 6")
          "error" ;;;
        vret false
      else vret true
  end.

Definition _validate_panel_node (node : dict) (path : list Z) : VM bool :=
  panel_type <~ vlift (json_get (node_attrs_or_empty node) "panelType") ;;
  match or_null panel_type with
  | JNull =>
      _add_error path (VMsg "Panel node missing required 'panelType' attribute")
        "error" ;;;
      vret false
  | panel_type =>
      known <~ vlift (key_in panel_type PANEL_TYPES) ;;
      if negb known then
        _add_error path (VFmt "Invalid panel type: {}" panel_type) "error" ;;;
        vret false
      else vret true
  end.

Fixpoint _validate_cells (cells : list json) (path : list Z) (i j : Z)
    (next : VM bool) : VM bool :=
  match cells with
  | [] => next
  | cell :: rest =>
      match cell with
      | JObj c =>
          let cell_type := or_null (dict_get "type" c) in
          if negb (py_eq cell_type (JStr "tableCell")
                   || py_eq cell_type (JStr "tableHeader")) then
            _add_error (path ++ [i; j])
              (VFmt "Invalid table cell type: {}" cell_type) "error" ;;;
            vret false
          else _validate_cells rest path i (j + 1) next
      | _ =>
          _add_error (path ++ [i; j]) (VMsg "Table cell must be dictionary")
            "error" ;;;
          vret false
      end
  end.

Fixpoint _validate_rows (rows : list json) (path : list Z) (i : Z) : VM bool :=
  match rows with
  | [] => vret true
  | row :: rest =>
      match row with
      | JObj r =>
          if negb (py_eq (or_null (dict_get "type" r)) (JStr "tableRow")) then
            _add_error (path ++ [i]) (VMsg "Table content must be tableRow nodes")
              "error" ;;;
            vret false
          else
            cells <~ vlift (py_iter (match dict_get "content" r with
                                     | Some c => c
                                     | None => JArr []
                                     end)) ;;
            _validate_cells cells path i 0 (_validate_rows rest path (i + 1))
      | _ =>
          _add_error (path ++ [i]) (VMsg "Table content must be tableRow nodes")
            "error" ;;;
          vret false
      end
  end.

Definition _validate_table_node (node : dict) (path : list Z) : VM bool :=
  let content := match dict_get "content" node with
                 | Some c => c
                 | None => JArr []
                 end in
  if negb (truthy content) then
    _add_warning path (VMsg "Empty table") ;;; vret true
  else
    rows <~ vlift (py_iter content) ;;
    _validate_rows rows path 0.

Definition _validate_extension_node (node : dict) (path : list Z) : VM bool :=
  let attrs := node_attrs_or_empty node in
  has_type <~ vlift (py_contains "extensionType" attrs) ;;
  if negb has_type then
    _add_error path (VMsg "Extension missing required 'extensionType' attribute")
      "error" ;;;
    vret false
  else
    has_key <~ vlift (py_contains "extensionKey" attrs) ;;
    if negb has_key then
      _add_error path (VMsg "Extension missing required 'extensionKey' attribute")
        "error" ;;;
      vret false
    else vret true.

Definition _validate_node_specific (node : dict) (path : list Z) : VM bool :=
  let node_type := or_null (dict_get "type" node) in
  if py_eq node_type (JStr "heading") then _validate_heading_node node path
  else if py_eq node_type (JStr "panel") then _validate_panel_node node path
  else if py_eq node_type (JStr "table") then _validate_table_node node path
  else if py_eq node_type (JStr "extension")
          || py_eq node_type (JStr "bodiedExtension")
          || py_eq node_type (JStr "inlineExtension")
  then _validate_extension_node node path
  else vret true.

(** The methods that call each other recursively, written over the
    recursive call [content_array] of [_validate_content_array]. *)
Section NodeValidation.
Variable content_array : json -> list Z -> VM bool.

Definition when_present (k : string) (node : dict)
    (check : json -> VM bool) (all_valid : bool) : VM bool :=
  match dict_get k node with
  | Some v => ok <~ check v ;; vret (all_valid && ok)
  | None => vret all_valid
  end.

Definition _validate_node_structure (node : dict) (path : list Z) : VM bool :=
  v1 <~ when_present "attrs" node (fun a => _validate_attributes a path) true ;;
  v2 <~ when_present "marks" node (fun m => _validate_marks m path) v1 ;;
  v3 <~ when_present "text" node (fun t => _validate_text_content t path) v2 ;;
  v4 <~ when_present "content" node (fun c => content_array c path) v3 ;;
  ok <~ _validate_node_specific node path ;;
  vret (v4 && ok).

Definition validate_node (node : json) (path : list Z) : VM bool :=
  match node with
  | JObj d =>
      let node_type := or_null (dict_get "type" d) in
      if negb (truthy node_type) then
        _add_error path (VMsg "Node missing required 'type' field") "error" ;;;
        vret false
      else
        known <~ _validate_node_type node_type path ;;
        if negb known then vret false
        else _validate_node_structure d path ;;; no_errors
  | _ =>
      _add_error path (VMsg "Node must be a dictionary") "error" ;;;
      vret false
  end.

Fixpoint validate_nodes (content : list json) (path : list Z) (i : Z)
    (all_valid : bool) : VM bool :=
  match content with
  | [] => vret all_valid
  | node :: rest =>
      ok <~ validate_node node (path ++ [i]) ;;
      validate_nodes rest path (i + 1) (all_valid && ok)
  end.
End NodeValidation.

(** [_validate_content_array].  [fuel] is the number of nested calls the
    interpreter still allows; running out is a [RecursionError]. *)
Fixpoint _validate_content_array (fuel : nat) (content : json) (path : list Z)
  : VM bool :=
  match fuel with
  | O => vraise RecursionError
  | S fuel' =>
      match content with
      | JArr items =>
          fun st =>
            if current_depth st >? MAX_DEPTH then
              (_add_error path (VMsg msg_max_depth_exceeded) "error" ;;;
               vret false) st
            else
              (set_depth (current_depth st + 1) ;;;
               all_valid <~ validate_nodes (_validate_content_array fuel')
                              items path 0 true ;;
               (fun st' => set_depth (current_depth st' - 1) st') ;;;
               vret all_valid) st
      | _ =>
          _add_error path (VMsg "Content must be an array") "error" ;;;
          vret false
      end
  end.

Definition doc_fields (document : json) : dict :=
  match document with JObj d => d | _ => [] end.

(** The [try] block of [validate_document]. *)
Definition validate_document_body (fuel : nat) (document : json) : VM bool :=
  ok <~ _validate_root_structure document ;;
  if negb ok then no_errors
  else
    let d := doc_fields document in
    ok <~ _validate_version (or_null (dict_get "version" d)) ;;
    if negb ok then no_errors
    else
      ok <~ _validate_document_type (or_null (dict_get "type" d)) ;;
      if negb ok then no_errors
      else
        _validate_content_array fuel
          (match dict_get "content" d with Some c => c | None => JArr [] end)
          [] ;;;
        no_errors.

(** [validate_document]: the state is reset, and any exception becomes an
    error entry and [False]. *)
Definition validate_document (fuel : nat) (document : json) : bool * VState :=
  match validate_document_body fuel document _reset_validation_state with
  | (Ok b, st) => (b, st)
  | (Raise e, st) =>
      (false,
       snd (_add_error [] (VExn "Validation failed with exception: " e) "error"
              st))
  end.

Definition is_max_depth_error (e : ValidationError) : bool :=
  match ve_message e with
  | VMsg t => String.eqb t msg_max_depth_exceeded
  | VFmt _ _ | VExn _ _ => false
  end.

Definition reports_max_depth (st : VState) : bool :=
  existsb is_max_depth_error (errors st).

(** [deep k c]: [c] is a content array, and [k] dictionary nodes further
    down, each reached through the ["content"] entry of the one before,
    lies another content array.  The root content array of a document
    whose nesting depth exceeds [MAX_DEPTH] satisfies [deep 21]. *)
Inductive deep : nat -> json -> Prop :=
| deep_here items : deep 0 (JArr items)
| deep_below k items fs c :
    In (JObj fs) items -> dict_get "content" fs = Some c -> deep k c ->
    deep (S k) (JArr items).

(** The same along a branch whose nodes all carry a known node type. *)
Inductive deep_known : nat -> json -> Prop :=
| deep_known_here items : deep_known 0 (JArr items)
| deep_known_below k items fs t c :
    In (JObj fs) items -> dict_get "type" fs = Some (JStr t) ->
    str_in t NODE_TYPES = true ->
    dict_get "content" fs = Some c -> deep_known k c ->
    deep_known (S k) (JArr items).

(** The budget of nested calls that always suffices. *)
Definition enough_fuel : nat := Z.to_nat MAX_DEPTH + 2.

(** Documents for the depth tests: [n] nodes of type [t] nested inside
    one another around a text leaf, as in [test_validator.py]. *)
Fixpoint nested (t : string) (n : nat) : json :=
  match n with
  | O => JObj [("type", JStr "text"); ("text", JStr "Level 1")]
  | S k => JObj [("type", JStr t); ("content", JArr [nested t k])]
  end.

Definition doc_of (content : list json) : json :=
  JObj [("version", JNum 1); ("type", JStr "doc"); ("content", JArr content)].

Definition doc_body (document : json) : json :=
  match dict_get "content" (doc_fields document) with
  | Some c => c
  | None => JArr []
  end.

(* ================================================================= *)
(** ** finder.py *)

Record SearchResult : Type := mkSR {
  sr_node : json;
  sr_path : ElementPath;
  sr_parent : option json;
  sr_index : Z
}.

(** The result built for a node met at [path] with index [i]. *)
Definition node_result (text_content : option string) (path : list Z) (i : Z)
    (n : Node) : SearchResult :=
  mkSR (node_dump n) (mkEP path (node_type n) text_content) None i.

(** Run the checks of a walk in order; the first exception ends it. *)
Fixpoint collect {A} (l : list (res (list A))) : res (list A) :=
  match l with
  | [] => Ok []
  | r :: rest =>
      xs <- r ;;
      ys <- collect rest ;;
      Ok (xs ++ ys)
  end.

(** [_search_with_predicate] *)
Definition _search_with_predicate (nodes : list Node) (path : list Z)
    (predicate : Node -> res bool) : res (list SearchResult) :=
  collect
    (traverse
       (fun p i n =>
          [ b <- predicate n ;;
            Ok (if b : bool then [node_result (node_text n) p i n] else []) ])
       nodes path).

Definition str_truthy (o : option string) : bool :=
  match o with
  | Some s => negb (String.eqb s "")
  | None => false
  end.

(** [_search_text_recursive] *)
Definition _search_text_recursive (nodes : list Node) (path : list Z)
    (text_predicate : string -> bool) : list SearchResult :=
  traverse
    (fun p i n =>
       match node_text n with
       | Some node_text =>
           if negb (String.eqb node_text "") && text_predicate node_text
           then [node_result (Some node_text) p i n] else []
       | None => []
       end)
    nodes path.

(** [_search_by_text_content], with [case_sensitive] at its default. *)
Definition _search_by_text_content (text_query : json) (d : ADFDocument)
  : res (list SearchResult) :=
  match text_query with
  | JStr q =>
      let search_text := lower q in
      let text_matches node_text :=
        negb (String.eqb node_text "") && contains search_text (lower node_text) in
      Ok (_search_text_recursive (doc_content (model d)) [] text_matches)
  | _ => Raise AttributeError
  end.

(** [_search_by_node_type] *)
Definition _search_by_node_type (node_type_q : json) (d : ADFDocument)
  : res (list SearchResult) :=
  _ <- key_in node_type_q NODE_TYPES ;;
  _search_with_predicate (doc_content (model d)) []
    (fun n => Ok (py_eq (JStr (node_type n)) node_type_q)).

Definition dict_truthy (o : option dict) : bool :=
  match o with Some (_ :: _) => true | _ => false end.

(** [_search_by_attributes] *)
Definition attributes_match (attributes : json) (n : Node) : bool :=
  match attributes with
  | JObj attrs =>
      match node_attrs n with
      | Some ((_ :: _) as node_attrs) =>
          forallb (fun kv => py_eq (or_null (dict_get (fst kv) node_attrs)) (snd kv))
                  attrs
      | _ => negb (truthy attributes)
      end
  | _ => false
  end.

Definition _search_by_attributes (attributes : json) (d : ADFDocument)
  : res (list SearchResult) :=
  _search_with_predicate (doc_content (model d)) []
    (fun n => Ok (attributes_match attributes n)).

(** The set of mark types of a node, the empty ones left out. *)
Definition mark_type_set (marks : list Mark) : list string :=
  filter (fun t => negb (String.eqb t "")) (map mark_type marks).

(** [x in mark_types] for a set of strings. *)
Definition in_type_set (x : json) (types : list string) : res bool :=
  key_in x types.

Fixpoint all_in (required : list json) (types : list string) : res bool :=
  match required with
  | [] => Ok true
  | x :: rest =>
      b <- in_type_set x types ;;
      if b : bool then all_in rest types else Ok false
  end.

(** [_search_by_marks] *)
Definition marks_match (required_marks : json) (n : Node) : res bool :=
  match node_marks n with
  | Some ((_ :: _) as node_marks) =>
      required <- py_iter required_marks ;;
      all_in required (mark_type_set node_marks)
  | _ => Ok (negb (truthy required_marks))
  end.

Definition _search_by_marks (required_marks : json) (d : ADFDocument)
  : res (list SearchResult) :=
  _search_with_predicate (doc_content (model d)) [] (marks_match required_marks).

(** An integer read as [int]: [bool] is a subclass. *)
Definition as_int (j : json) : res Z :=
  match j with
  | JNum n => Ok n
  | JBool b => Ok (if b then 1 else 0)
  | _ => Raise TypeError
  end.

(** [find_by_index_recursive] inside [_search_by_index]. *)
Fixpoint index_below (target_index : json) (search_depth : Z)
    (n : Node) (current_path : list Z) (depth : Z) {struct n}
  : res (list SearchResult) :=
  match node_content n with
  | Some ((_ :: _) as nodes) =>
      if depth =? search_depth then
        t <- as_int target_index ;;
        if (0 <=? t) && (t <? len nodes) then
          match nth_error nodes (Z.to_nat t) with
          | Some element =>
              Ok [node_result (node_text element) (current_path ++ [t]) t element]
          | None => Ok []
          end
        else Ok []
      else
        (fix go (l : list Node) (i : Z) : res (list SearchResult) :=
           match l with
           | [] => Ok []
           | c :: r =>
               xs <- index_below target_index search_depth c
                       (current_path ++ [i]) (depth + 1) ;;
               ys <- go r (i + 1) ;;
               Ok (xs ++ ys)
           end) nodes 0
  | _ => Ok []
  end.

Definition find_by_index_recursive (target_index : json) (search_depth : Z)
    (nodes : list Node) (current_path : list Z) (depth : Z)
  : res (list SearchResult) :=
  if depth =? search_depth then
    t <- as_int target_index ;;
    if (0 <=? t) && (t <? len nodes) then
      match nth_error nodes (Z.to_nat t) with
      | Some element =>
          Ok [node_result (node_text element) (current_path ++ [t]) t element]
      | None => Ok []
      end
    else Ok []
  else
    (fix go (l : list Node) (i : Z) : res (list SearchResult) :=
       match l with
       | [] => Ok []
       | c :: r =>
           xs <- index_below target_index search_depth c
                   (current_path ++ [i]) (depth + 1) ;;
           ys <- go r (i + 1) ;;
           Ok (xs ++ ys)
       end) nodes 0.

(** [_search_by_index], with [search_depth] at its default 1. *)
Definition _search_by_index (target_index : json) (d : ADFDocument)
  : res (list SearchResult) :=
  find_by_index_recursive target_index 1 (doc_content (model d)) [] 1.

(** *** The minimal JSONPath *)

Inductive path_part : Type :=
| PInt (i : Z)
| PStr (s : string).

Definition is_digit (c : ascii) : bool :=
  let n := nat_of_ascii c in (Nat.leb 48 n && Nat.leb n 57)%bool.

Fixpoint all_digits (s : string) : bool :=
  match s with
  | EmptyString => true
  | String c r => is_digit c && all_digits r
  end.

(** [s.isdigit()] of an ASCII string. *)
Definition isdigit (s : string) : bool :=
  negb (String.eqb s "") && all_digits s.

Fixpoint int_of_digits (s : string) (acc : Z) : Z :=
  match s with
  | EmptyString => acc
  | String c r => int_of_digits r (10 * acc + Z.of_nat (nat_of_ascii c - 48))
  end.

(** [s.lstrip("$.")] *)
Fixpoint lstrip_dollar_dot (s : string) : string :=
  match s with
  | String c r =>
      if Ascii.eqb c "$" || Ascii.eqb c "." then lstrip_dollar_dot r else s
  | EmptyString => EmptyString
  end.

Definition is_separator (c : ascii) : bool :=
  Ascii.eqb c "." || Ascii.eqb c "[" || Ascii.eqb c "]".

(** [re.split(r'[\.\[\]]', s)]; [cur] is the piece being read. *)
Fixpoint split_path (s : string) (cur : string) : list string :=
  match s with
  | EmptyString => [cur]
  | String c r =>
      if is_separator c then cur :: split_path r ""
      else split_path r (cur +++ String c EmptyString)
  end.

Definition _parse_simple_json_path (json_path : string) : list path_part :=
  map (fun part => if isdigit part then PInt (int_of_digits part 0) else PStr part)
      (filter (fun part => negb (String.eqb part ""))
              (split_path (lstrip_dollar_dot json_path) "")).

(** The objects a JSONPath walk can stand on.  Attribute hops are
    resolved among the data of the models (declared fields and extras);
    the methods that the Python classes also carry are not part of the
    embedding. *)
Inductive pyval : Type :=
| PNodes (l : list Node)
| PNode (n : Node)
| PMarks (l : list Mark)
| PMark (m : Mark)
| PJson (j : json).

Definition opt_pyval {A} (f : A -> pyval) (o : option A) : option pyval :=
  match o with Some a => Some (f a) | None => None end.

Definition json_pyval (j : json) : option pyval :=
  match j with JNull => None | _ => Some (PJson j) end.

(** [getattr(current, part)] or [current[part]]; [None] of the option is
    the [return None] of the source, including a hop that yields [None]. *)
Definition hop_str (current : pyval) (part : string) : option pyval :=
  match current with
  | PNode n =>
      if String.eqb part "type" then Some (PJson (JStr (node_type n)))
      else if String.eqb part "attrs" then
        opt_pyval (fun a => PJson (JObj a)) (node_attrs n)
      else if String.eqb part "content" then opt_pyval PNodes (node_content n)
      else if String.eqb part "text" then
        opt_pyval (fun s => PJson (JStr s)) (node_text n)
      else if String.eqb part "marks" then opt_pyval PMarks (node_marks n)
      else match dict_get part (node_extra n) with
           | Some v => json_pyval v
           | None => None
           end
  | PMark m =>
      if String.eqb part "type" then Some (PJson (JStr (mark_type m)))
      else if String.eqb part "attrs" then
        opt_pyval (fun a => PJson (JObj a)) (mark_attrs m)
      else match dict_get part (mark_extra m) with
           | Some v => json_pyval v
           | None => None
           end
  | PJson (JObj d) =>
      match dict_get part d with
      | Some v => json_pyval v
      | None => None
      end
  | _ => None
  end.

Definition hop_int (current : pyval) (part : Z) : option pyval :=
  if (0 <=? part) then
    match current with
    | PNodes l => opt_pyval PNode (nth_error l (Z.to_nat part))
    | PMarks l => opt_pyval PMark (nth_error l (Z.to_nat part))
    | PJson (JArr l) =>
        match nth_error l (Z.to_nat part) with
        | Some v => json_pyval v
        | None => None
        end
    | _ => None
    end
  else None.

(** [_traverse_json_path] *)
Fixpoint _traverse_json_path (current : pyval) (path_parts : list path_part)
  : option pyval :=
  match path_parts with
  | [] => Some current
  | PInt i :: rest =>
      match hop_int current i with
      | Some v => _traverse_json_path v rest
      | None => None
      end
  | PStr s :: rest =>
      match hop_str current s with
      | Some v => _traverse_json_path v rest
      | None => None
      end
  end.

Definition numeric_parts (parts : list path_part) : list Z :=
  flat_map (fun p => match p with PInt i => [i] | PStr s => [] end) parts.

Definition pyval_dump (v : pyval) : json :=
  match v with
  | PNode n => node_dump n
  | PMark m => mark_dump m
  | PNodes l => JArr (map node_dump l)
  | PMarks l => JArr (map mark_dump l)
  | PJson j => j
  end.

Definition pyval_type (v : pyval) : string :=
  match v with
  | PNode n => node_type n
  | PMark m => mark_type m
  | _ => "unknown"
  end.

Definition pyval_text (v : pyval) : option string :=
  match v with
  | PNode n => node_text n
  | PMark m =>
      match dict_get "text" (mark_extra m) with
      | Some (JStr s) => Some s
      | _ => None
      end
  | _ => None
  end.

(** [_search_by_json_path]: every exception inside is swallowed. *)
Definition _search_by_json_path (json_path : json) (d : ADFDocument)
  : list SearchResult :=
  match json_path with
  | JStr p =>
      let path_parts := _parse_simple_json_path p in
      match path_parts with
      | [] => []
      | _ =>
          match _traverse_json_path (PNodes (doc_content (model d))) path_parts with
          | Some element =>
              let numeric_path := numeric_parts path_parts in
              [ mkSR (pyval_dump element)
                     (mkEP numeric_path (pyval_type element) (pyval_text element))
                     None
                     (last numeric_path 0) ]
          | None => []
          end
      end
  | _ => []
  end.

(** *** The compound walk *)

Definition criteria_truthy (k : string) (criteria : dict) : bool :=
  get_truthy k criteria.

(** [_node_matches_complex_criteria] *)
Definition _node_matches_complex_criteria (n : Node) (criteria : dict)
  : res bool :=
  text_ok <-
    (if criteria_truthy "text" criteria then
       match node_text n, dict_get "text" criteria with
       | Some node_text, Some (JStr q) =>
           Ok (negb (String.eqb node_text "")
               && contains (lower q) (lower node_text))
       | Some node_text, _ =>
           if String.eqb node_text "" then Ok false else Raise AttributeError
       | None, _ => Ok false
       end
     else Ok true) ;;
  if negb text_ok then Ok false
  else if criteria_truthy "node_type" criteria
          && negb (py_eq (JStr (node_type n))
                         (or_null (dict_get "node_type" criteria)))
  then Ok false
  else
    attrs_ok <-
      (if criteria_truthy "attributes" criteria then
         match dict_get "attributes" criteria with
         | Some (JObj attrs) =>
             let node_attrs := match node_attrs n with
                               | Some a => a
                               | None => []
                               end in
             Ok (forallb
                   (fun kv => py_eq (or_null (dict_get (fst kv) node_attrs))
                                    (snd kv))
                   attrs)
         | _ => Raise AttributeError
         end
       else Ok true) ;;
    if negb attrs_ok then Ok false
    else if criteria_truthy "marks" criteria then
      let node_marks := match node_marks n with
                        | Some l => l
                        | None => []
                        end in
      required <- py_iter (or_null (dict_get "marks" criteria)) ;;
      all_in required (mark_type_set node_marks)
    else Ok true.

(** [_search_recursive] *)
Definition _search_recursive (criteria : dict) (nodes : list Node)
    (path : list Z) : res (list SearchResult) :=
  _search_with_predicate nodes path
    (fun n => _node_matches_complex_criteria n criteria).

(** *** Post-processing and dispatch *)

(** [_add_context_to_results]: the parent is looked up again by path;
    what [_get_node_by_path] raises beyond the two caught classes goes
    through. *)
Definition add_context (d : ADFDocument) (r : SearchResult)
  : res SearchResult :=
  let path := ep_path (sr_path r) in
  if len path >? 1 then
    parent <- _get_node_by_path d (removelast path) ;;
    match parent with
    | Some p => Ok (mkSR (sr_node r) (sr_path r) (Some (node_dump p)) (sr_index r))
    | None => Ok r
    end
  else Ok r.

Fixpoint _add_context_to_results (results : list SearchResult)
    (d : ADFDocument) : res (list SearchResult) :=
  match results with
  | [] => Ok []
  | r :: rest =>
      r' <- add_context d r ;;
      rest' <- _add_context_to_results rest d ;;
      Ok (r' :: rest')
  end.

(** The sort key [(path_depth, not has_text)] and its order. *)
Definition sort_key (r : SearchResult) : Z * bool :=
  (len (ep_path (sr_path r)), negb (str_truthy (ep_text_content (sr_path r)))).

Definition key_le (a b : Z * bool) : bool :=
  (fst a <? fst b) || ((fst a =? fst b) && (negb (snd a) || snd b)).

(** Stable insertion: after every element that is not greater. *)
Fixpoint insert_sorted (r : SearchResult) (l : list SearchResult)
  : list SearchResult :=
  match l with
  | [] => [r]
  | x :: rest =>
      if key_le (sort_key x) (sort_key r) then x :: insert_sorted r rest
      else r :: l
  end.

(** [sorted(results, key=sort_key)] *)
Definition _sort_search_results (results : list SearchResult)
  : list SearchResult :=
  fold_left (fun acc r => insert_sorted r acc) results [].

(** [l[:n]] *)
Definition py_prefix {A} (l : list A) (n : Z) : list A :=
  if 0 <=? n then firstn (Z.to_nat n) l
  else firstn (Z.to_nat (len l + n)) l.

Definition limit_truthy (limit : option Z) : bool :=
  match limit with Some n => negb (n =? 0) | None => false end.

Definition apply_limit (limit : option Z) (results : list SearchResult)
  : list SearchResult :=
  match limit with
  | Some n =>
      if negb (n =? 0) && (len results >? n) then py_prefix results n
      else results
  | None => results
  end.

(** The strategy chosen by the [if]/[elif] chain of [find_elements]. *)
Inductive strategy : Type :=
| ByJsonPath | ByText | ByNodeType | ByAttributes | ByMarks | ByIndex
| Compound.

Definition choose (criteria : dict) : strategy :=
  if get_truthy "json_path" criteria then ByJsonPath
  else if get_truthy "text" criteria then ByText
  else if get_truthy "node_type" criteria then ByNodeType
  else if get_truthy "attributes" criteria then ByAttributes
  else if get_truthy "marks" criteria then ByMarks
  else match or_null (dict_get "index" criteria) with
       | JNull => Compound
       | _ => ByIndex
       end.

Definition run_strategy (s : strategy) (criteria : dict) (d : ADFDocument)
  : res (list SearchResult) :=
  match s with
  | ByJsonPath =>
      Ok (_search_by_json_path (or_null (dict_get "json_path" criteria)) d)
  | ByText => _search_by_text_content (or_null (dict_get "text" criteria)) d
  | ByNodeType => _search_by_node_type (or_null (dict_get "node_type" criteria)) d
  | ByAttributes =>
      _search_by_attributes (or_null (dict_get "attributes" criteria)) d
  | ByMarks => _search_by_marks (or_null (dict_get "marks" criteria)) d
  | ByIndex => _search_by_index (or_null (dict_get "index" criteria)) d
  | Compound => _search_recursive criteria (doc_content (model d)) []
  end.

Section Finder.
(** [_generate_cache_key]: a string made from Python's [hash] of the
    dumped criteria and from the limit. *)
Variable _generate_cache_key : dict -> option Z -> string.

Definition search_cache : Type := list (string * list SearchResult).

Fixpoint cache_get (k : string) (c : search_cache)
  : option (list SearchResult) :=
  match c with
  | [] => None
  | (k', v) :: rest => if String.eqb k k' then Some v else cache_get k rest
  end.

(** [ADFFinder.find_elements]: the result or exception, and the cache
    afterwards. *)
Definition find_elements (cache : search_cache) (criteria : dict)
    (d : ADFDocument) (limit : option Z) (include_context : bool)
    (cache_results : bool) : res (list SearchResult) * search_cache :=
  match criteria with
  | [] => (Raise (ValueError "Search criteria are required"), cache)
  | _ =>
      let cache_key := _generate_cache_key criteria limit in
      match (if cache_results then cache_get cache_key cache else None) with
      | Some cached_results =>
          (Ok (match limit with
               | Some n => if negb (n =? 0) then py_prefix cached_results n
                           else cached_results
               | None => cached_results
               end), cache)
      | None =>
          let outcome :=
            results <- run_strategy (choose criteria) criteria d ;;
            results <- (if include_context
                        then _add_context_to_results results d
                        else Ok results) ;;
            Ok (apply_limit limit (_sort_search_results results)) in
          match outcome with
          | Ok results =>
              (Ok results,
               if cache_results then (cache_key, results) :: cache else cache)
          | Raise e => (Raise e, cache)
          end
      end
  end.

(** [find_element_in_adf]: a fresh finder, so an empty cache. *)
Definition find_element_in_adf (d : ADFDocument) (criteria : dict)
    (limit : option Z) (include_context : bool)
  : res (list SearchResult) :=
  fst (find_elements [] criteria d limit include_context true).
End Finder.

(** A stand-in for the cache key where the key is never compared (an
    empty cache, or caching switched off). *)
Definition no_hash (criteria : dict) (limit : option Z) : string := "search".

(** The priority order of the specification, highest first. *)
Definition priority : list strategy :=
  [ByJsonPath; ByText; ByNodeType; ByAttributes; ByMarks; ByIndex].

Definition key_of (s : strategy) : string :=
  match s with
  | ByJsonPath => "json_path"
  | ByText => "text"
  | ByNodeType => "node_type"
  | ByAttributes => "attributes"
  | ByMarks => "marks"
  | ByIndex => "index"
  | Compound => ""
  end.

(** A key counts for the dispatch when its value is truthy; [index]
    counts when it is not [None]. *)
Definition supplied (criteria : dict) (s : strategy) : bool :=
  match s with
  | ByIndex => match or_null (dict_get "index" criteria) with
               | JNull => false
               | _ => true
               end
  | Compound => false
  | _ => get_truthy (key_of s) criteria
  end.

(** The dispatch as the specification words it, over the keys that count. *)
Definition chosen_by_priority (criteria : dict) : strategy :=
  match find (supplied criteria) priority with
  | Some s => s
  | None => Compound
  end.

(** The same reading "present" as "the criteria contain the key". *)
Definition chosen_by_presence (criteria : dict) : strategy :=
  match find (fun s => dict_has (key_of s) criteria) priority with
  | Some s => s
  | None => Compound
  end.

(* ================================================================= *)
(** ** writer.py *)

Record UpdateOperation : Type := mkOp {
  operation_type : string;
  target_criteria : dict;
  op_new_content : json;          (* [None] is [JNull] *)
  preserve_attributes : bool;
  preserve_marks : bool;
  kwargs : dict
}.

Definition valid_operation_types : list string :=
  ["replace"; "modify"; "insert_before"; "insert_after"; "delete"; "update_text"].

(** [UpdateOperation.__init__] *)
Definition UpdateOperation_init (operation_type : string)
    (target_criteria : dict) (new_content : json)
    (preserve_attributes preserve_marks : bool) (kwargs : dict)
  : res UpdateOperation :=
  if negb (str_in operation_type valid_operation_types) then
    Raise (ValueError ("Unknown operation type: " +++ operation_type))
  else Ok (mkOp operation_type target_criteria new_content
                preserve_attributes preserve_marks kwargs).

(** New content handed to the document: a dictionary is validated there.
    Anything else the source stores in the tree as it is, which the
    embedding of the tree cannot hold. *)
Definition as_element (new_element : json) : res element :=
  match new_element with
  | JObj _ => Ok (EDict new_element)
  | _ => Raise NotModelled
  end.

(** [{**original_attrs, **new_attrs}]: both must be mappings. *)
Definition merge_attrs (original_attrs new_attrs : json) : res dict :=
  match original_attrs, new_attrs with
  | JObj a, JObj b => Ok (dict_merge a b)
  | _, _ => Raise TypeError
  end.

(** [mark.get("type")] as a member of a set: it is hashed. *)
Definition mark_type_key (mark : json) : res json :=
  t <- json_get mark "type" ;;
  match or_null t with
  | JArr _ | JObj _ => Raise TypeError
  | k => Ok k
  end.

Fixpoint mark_type_keys (marks : list json) : res (list json) :=
  match marks with
  | [] => Ok []
  | m :: rest =>
      k <- mark_type_key m ;;
      ks <- mark_type_keys rest ;;
      Ok (k :: ks)
  end.

(** [new_element["marks"].append(mark)] *)
Definition marks_append (marks : json) (mark : json) : res json :=
  match marks with
  | JArr l => Ok (JArr (l ++ [mark]))
  | _ => Raise AttributeError
  end.

(** The loop over the original marks; [existing_mark_types] is the set
    computed before the loop and is not extended by it. *)
Fixpoint append_missing (original_marks : list json) (existing : list json)
    (marks : json) : res json :=
  match original_marks with
  | [] => Ok marks
  | mark :: rest =>
      k <- mark_type_key mark ;;
      if negb (existsb (py_eq k) existing) then
        marks' <- marks_append marks mark ;;
        append_missing rest existing marks'
      else append_missing rest existing marks
  end.

(** The two merges of [_apply_replace_operation] on a copy of the new
    content. *)
Definition preserve_attrs_step (preserve : bool) (original new_element : json)
  : res json :=
  match original, new_element with
  | JObj o, JObj n =>
      let original_attrs :=
        match dict_get "attrs" o with Some a => a | None => JObj [] end in
      if preserve && truthy original_attrs then
        merged <- merge_attrs original_attrs
                    (match dict_get "attrs" n with Some a => a | None => JObj [] end) ;;
        Ok (JObj (dict_set "attrs" (JObj merged) n))
      else Ok new_element
  | _, _ => Ok new_element
  end.

Definition preserve_marks_step (preserve : bool) (original new_element : json)
  : res json :=
  match original, new_element with
  | JObj o, JObj n =>
      let original_marks :=
        match dict_get "marks" o with Some m => m | None => JArr [] end in
      if preserve && truthy original_marks
         && py_eq (or_null (dict_get "type" n)) (JStr "text") then
        let marks := match dict_get "marks" n with
                     | Some m => m
                     | None => JArr []
                     end in
        items <- py_iter marks ;;
        existing <- mark_type_keys items ;;
        originals <- py_iter original_marks ;;
        marks' <- append_missing originals existing marks ;;
        Ok (JObj (dict_set "marks" marks' n))
      else Ok new_element
  | _, _ => Ok new_element
  end.

(** The element that [_apply_replace_operation] passes to the document. *)
Definition replacement (operation : UpdateOperation) (original_element : json)
  : res json :=
  e <- preserve_attrs_step (preserve_attributes operation) original_element
         (op_new_content operation) ;;
  preserve_marks_step (preserve_marks operation) original_element e.

(** An [_apply_*_operation]: the count it returns or the exception, and
    the document afterwards. *)
Definition applied : Type := res Z * ADFDocument.

Definition count_of (r : res (bool * ADFDocument)) (d : ADFDocument) : applied :=
  match r with
  | Ok (success, d') => (Ok (if success then 1 else 0), d')
  | Raise e => (Raise e, d)
  end.

Definition _apply_replace_operation (d : ADFDocument)
    (element_result : SearchResult) (operation : UpdateOperation) : applied :=
  let path := ep_path (sr_path element_result) in
  count_of
    (new_element <- replacement operation (sr_node element_result) ;;
     e <- as_element new_element ;;
     _replace_element_at_path d path e) d.

Definition _apply_insert_before_operation (d : ADFDocument)
    (element_result : SearchResult) (operation : UpdateOperation) : applied :=
  let path := ep_path (sr_path element_result) in
  if len path <? 2 then (Ok 0, d)
  else
    let parent_path := removelast path in
    let element_index := last path 0 in
    count_of
      (e <- as_element (op_new_content operation) ;;
       _insert_element_at_path d parent_path element_index e) d.

Definition _apply_insert_after_operation (d : ADFDocument)
    (element_result : SearchResult) (operation : UpdateOperation) : applied :=
  let path := ep_path (sr_path element_result) in
  if len path <? 2 then (Ok 0, d)
  else
    let parent_path := removelast path in
    let element_index := last path 0 + 1 in
    count_of
      (e <- as_element (op_new_content operation) ;;
       _insert_element_at_path d parent_path element_index e) d.

Definition _apply_delete_operation (d : ADFDocument)
    (element_result : SearchResult) (operation : UpdateOperation) : applied :=
  let path := ep_path (sr_path element_result) in
  count_of (Ok (_delete_element_at_path d path)) d.

(** A change made to the node object that [path] leads to; the caches of
    the document are not refreshed by the callers. *)
Definition mutate_node (d : ADFDocument) (path : list Z) (f : Node -> Node)
  : ADFDocument :=
  let content := doc_content (model d) in
  let content' :=
    modify_parent
      (fun parent =>
         match py_pos (List.length parent) (last path 0) with
         | Some k => list_alter f k parent
         | None => parent
         end)
      content (removelast path) in
  mkADF (raw_data d) (set_doc_content (model d) content') (element_map d).

Definition set_text (text : option string) (n : Node) : Node :=
  mkNode (node_type n) (node_attrs n) (node_content n) text (node_marks n)
         (attrs_set n) (content_set n) true (marks_set n) (node_extra n).

(** [element.text = new_text] under [validate_assignment]. *)
Definition assign_text (new_text : json) : res (option string) :=
  match new_text with
  | JStr s => Ok (Some s)
  | JNull => Ok None
  | _ => Raise PydanticError
  end.

Definition _apply_update_text_operation (d : ADFDocument)
    (element_result : SearchResult) (operation : UpdateOperation) : applied :=
  let path := ep_path (sr_path element_result) in
  match _get_element_at_path d path with
  | Raise e => (Raise e, d)
  | Ok None => (Ok 0, d)
  | Ok (Some element) =>
      if negb (String.eqb (node_type element) "text") then (Ok 0, d)
      else
        match assign_text (op_new_content operation) with
        | Ok text => (Ok 1, mutate_node d path (set_text text))
        | Raise e => (Raise e, d)
        end
  end.

(** Reading an element as the claims speak of it: its [attrs] (absent is
    empty), its [marks] (absent is empty), the type of a mark. *)
Definition attrs_of (e : dict) : option dict :=
  match dict_get "attrs" e with
  | None => Some []
  | Some (JObj a) => Some a
  | Some _ => None
  end.

Definition marks_of (e : dict) : option (list json) :=
  match dict_get "marks" e with
  | None => Some []
  | Some (JArr l) => Some l
  | Some _ => None
  end.

Definition mark_key (mark : json) : json :=
  match mark with
  | JObj m => or_null (dict_get "type" m)
  | _ => JNull
  end.

(** No two keys of the list are equal. *)
Fixpoint distinct (ks : list json) : bool :=
  match ks with
  | [] => true
  | k :: rest => negb (existsb (py_eq k) rest) && distinct rest
  end.

(** The node that a path of positions leads to. *)
Fixpoint node_at (content : list Node) (q : list nat) : option Node :=
  match q with
  | [] => None
  | i :: rest =>
      match nth_error content i with
      | None => None
      | Some n =>
          match rest with
          | [] => Some n
          | _ =>
              match node_content n with
              | Some c => node_at c rest
              | None => None
              end
          end
      end
  end.

(** The tree in which the node at [p] has been changed by [f]. *)
Fixpoint update_at (f : Node -> Node) (content : list Node) (p : list nat)
  : list Node :=
  match p with
  | [] => content
  | i :: rest =>
      list_alter
        (fun e =>
           match rest with
           | [] => f e
           | _ => set_node_content e
                    (option_map (fun c => update_at f c rest) (node_content e))
           end)
        i content
  end.

(** Everything a node holds besides its text: type, attrs, marks, extras,
    the number of its children, and which of these were given. *)
Definition other_fields (n : Node) :=
  (node_type n, node_attrs n, node_marks n, node_extra n,
   option_map (@List.length Node) (node_content n),
   attrs_set n, content_set n, marks_set n).

(** The [try] block of [_get_node_by_path]. *)
Definition get_body (current : option (list Node)) (path : list Z)
  : res (option Node) :=
  current <- descend current (removelast path) ;;
  match path with
  | [] => Ok None
  | _ =>
      match current with
      | None => Raise TypeError
      | Some l =>
          match py_nth l (last path 0) with
          | None => Raise IndexError
          | Some n => Ok (Some n)
          end
      end
  end.

(** The names that [hasattr] finds on every model besides its fields and
    extras: the methods and class attributes of pydantic's [BaseModel],
    which start with [model_] or with an underscore or are one of its
    older method names, and [is_valid] of [BaseADFModel]. *)
Definition class_attribute (key : string) : bool :=
  starts_with "model_" key || starts_with "_" key
  || str_in key ["is_valid"; "construct"; "copy"; "dict"; "from_orm"; "json";
                 "parse_file"; "parse_obj"; "parse_raw"; "schema";
                 "schema_json"; "update_forward_refs"; "validate"].

(** [setattr(current_element, key, value)] under [validate_assignment],
    for a key the element has; other keys are skipped by [hasattr].  A
    key that names a method or a class attribute is found by [hasattr]
    too: what the assignment does then is outside the embedding. *)
Definition assign_field (key : string) (value : json) (n : Node) : res Node :=
  let with_fields t a c x m sa sc sx sm e :=
    Ok (mkNode t a c x m sa sc sx sm e) in
  let keep := n in
  if String.eqb key "type" then
    match value with
    | JStr t =>
        if str_in t NODE_TYPES then
          with_fields t (node_attrs n) (node_content n) (node_text n)
            (node_marks n) (attrs_set n) (content_set n) (text_set n)
            (marks_set n) (node_extra n)
        else Raise PydanticError
    | _ => Raise PydanticError
    end
  else if String.eqb key "attrs" then
    match read_dict (Some value) with
    | Given a =>
        with_fields (node_type n) a (node_content n) (node_text n)
          (node_marks n) true (content_set n) (text_set n) (marks_set n)
          (node_extra n)
    | _ => Raise PydanticError
    end
  else if String.eqb key "content" then
    match read_content (Some value) with
    | Given c =>
        with_fields (node_type n) (node_attrs n) c (node_text n)
          (node_marks n) (attrs_set n) true (text_set n) (marks_set n)
          (node_extra n)
    | _ => Raise PydanticError
    end
  else if String.eqb key "text" then
    text <- assign_text value ;; Ok (set_text text n)
  else if String.eqb key "marks" then
    match read_marks (Some value) with
    | Given m =>
        with_fields (node_type n) (node_attrs n) (node_content n) (node_text n)
          m (attrs_set n) (content_set n) (text_set n) true (node_extra n)
    | _ => Raise PydanticError
    end
  else if class_attribute key then Raise NotModelled
  else if dict_has key (node_extra n) then
    with_fields (node_type n) (node_attrs n) (node_content n) (node_text n)
      (node_marks n) (attrs_set n) (content_set n) (text_set n) (marks_set n)
      (dict_set key value (node_extra n))
  else Ok keep.

(** The loop over the modifications: the changes made before an
    exception stay. *)
Fixpoint assign_all (modifications : dict) (n : Node) : res unit * Node :=
  match modifications with
  | [] => (Ok tt, n)
  | (key, value) :: rest =>
      match assign_field key value n with
      | Ok n' => assign_all rest n'
      | Raise e => (Raise e, n)
      end
  end.

Definition _apply_modify_operation (d : ADFDocument)
    (element_result : SearchResult) (operation : UpdateOperation) : applied :=
  let path := ep_path (sr_path element_result) in
  match _get_element_at_path d path with
  | Raise e => (Raise e, d)
  | Ok None => (Ok 0, d)
  | Ok (Some current_element) =>
      match (match dict_get "modifications" (kwargs operation) with
             | Some (JObj m) => Ok m
             | Some _ => Raise AttributeError
             | None => Ok []
             end) with
      | Raise e => (Raise e, d)
      | Ok modifications =>
          let (r, n') := assign_all modifications current_element in
          let d' := mutate_node d path (fun _ => n') in
          match r with
          | Ok _ => (Ok 1, d')
          | Raise e => (Raise e, d')
          end
      end
  end.

(** [str(e)].  The messages of the exceptions that the writer raises
    itself are their argument; the texts that the interpreter and
    pydantic give to their own exceptions are not modelled, and the name
    of the class stands for them. *)
Definition str_exn (e : exn) : string :=
  match e with
  | ValueError msg | RuntimeError msg => msg
  | IndexError => "IndexError"
  | TypeError => "TypeError"
  | AttributeError => "AttributeError"
  | PydanticError => "ValidationError"
  | RecursionError => "RecursionError"
  | NotModelled => "NotModelled"
  end.

(** [except ValueError]: pydantic's error is one. *)
Definition is_value_error (e : exn) : bool :=
  match e with
  | ValueError _ | PydanticError => true
  | _ => false
  end.

Record AppliedOperation : Type := mkApplied {
  ao_index : Z;
  ao_operation_type : string;
  ao_target_criteria : dict;
  ao_success : bool;
  ao_reason : option string
}.

Record UpdateResult : Type := mkResult {
  ur_page_id : string;
  ur_updated_page : json;
  ur_applied_operations : list AppliedOperation;
  ur_operations_count : Z;
  ur_successful_operations : Z;
  ur_validation_result : option bool;
  ur_backup_id : option string;
  ur_retry_count : Z
}.

(** [page_data[k]] after [k in page_data] held. *)
Definition py_item (x : json) (k : string) : res json :=
  match x with
  | JObj d => match dict_get k d with
              | Some v => Ok v
              | None => Raise NotModelled (* KeyError: not after [k in x] *)
              end
  | _ => Raise TypeError
  end.

(** [_parse_page_to_adf] *)
Definition _parse_page_to_adf (page_data : json) : res ADFDocument :=
  has_body <- py_contains "body" page_data ;;
  adf_content <-
    (if has_body : bool then
       body <- py_item page_data "body" ;;
       match body with
       | JObj b =>
           if dict_has "atlas_doc_format" b then
             Ok (or_null (dict_get "atlas_doc_format" b))
           else if dict_has "representation" b
                   && py_eq (or_null (dict_get "representation" b))
                            (JStr "atlas_doc_format") then
             Ok (match dict_get "value" b with Some v => v | None => body end)
           else if dict_has "value" b then Ok (or_null (dict_get "value" b))
           else Ok JNull
       | _ => Ok body
       end
     else Ok JNull) ;;
  adf_content <-
    (match adf_content with
     | JNull =>
         v <- py_contains "version" page_data ;;
         t <- (if v : bool then py_contains "type" page_data else Ok false) ;;
         c <- (if t : bool then py_contains "content" page_data else Ok false) ;;
         if c : bool then Ok page_data else Ok EMPTY_ADF_DOCUMENT
     | _ => Ok adf_content
     end) ;;
  Ok (from_dict adf_content).

(** [current_page.get('version', {}).get('number')] *)
Definition version_number (current_page : json) : res json :=
  v <- json_get current_page "version" ;;
  n <- json_get (match v with Some x => x | None => JObj [] end) "number" ;;
  Ok (or_null n).

(** [current_page.get("title", "Updated Page")] *)
Definition page_title (current_page : json) : res json :=
  t <- json_get current_page "title" ;;
  Ok (match t with Some x => x | None => JStr "Updated Page" end).

Section Writer.
Variable _generate_cache_key : dict -> option Z -> string.

(** The world outside the writer: the Confluence client with the server
    behind it, and the clock. *)
Variable World : Type.
Variable get_page_adf : string -> World -> res json * World.
Variable update_page_adf : string -> json -> json -> World -> res json * World.
Variable time : World -> Z.

Definition dispatch (d : ADFDocument) (element_result : SearchResult)
    (operation : UpdateOperation) : applied :=
  let t := operation_type operation in
  if String.eqb t "replace" then
    _apply_replace_operation d element_result operation
  else if String.eqb t "modify" then
    _apply_modify_operation d element_result operation
  else if String.eqb t "insert_before" then
    _apply_insert_before_operation d element_result operation
  else if String.eqb t "insert_after" then
    _apply_insert_after_operation d element_result operation
  else if String.eqb t "delete" then
    _apply_delete_operation d element_result operation
  else if String.eqb t "update_text" then
    _apply_update_text_operation d element_result operation
  else (Ok 0, d).

(** The loop of [_apply_operation] over the targets found: an exception
    skips the target. *)
Fixpoint apply_to_targets (targets : list SearchResult)
    (operation : UpdateOperation) (d : ADFDocument) (applied_count : Z)
  : Z * ADFDocument :=
  match targets with
  | [] => (applied_count, d)
  | element_result :: rest =>
      match dispatch d element_result operation with
      | (Ok k, d') => apply_to_targets rest operation d' (applied_count + k)
      | (Raise _, d') => apply_to_targets rest operation d' applied_count
      end
  end.

Definition _apply_operation (d : ADFDocument) (operation : UpdateOperation)
  : res bool * ADFDocument :=
  match find_element_in_adf _generate_cache_key d
          (target_criteria operation) None true with
  | Raise e => (Raise e, d)
  | Ok [] => (Ok false, d)
  | Ok target_elements =>
      let (applied_count, d') :=
        apply_to_targets target_elements operation d 0 in
      (Ok (applied_count >? 0), d')
  end.

(** Step 4 of the update: the operations in order, each on the document
    the ones before left. *)
Fixpoint apply_operations (operations : list UpdateOperation) (i : Z)
    (d : ADFDocument) : list AppliedOperation * ADFDocument :=
  match operations with
  | [] => ([], d)
  | operation :: rest =>
      let (r, d') := _apply_operation d operation in
      let entry :=
        match r with
        | Ok true =>
            mkApplied i (operation_type operation)
                      (target_criteria operation) true None
        | Ok false =>
            mkApplied i (operation_type operation)
                      (target_criteria operation) false
                      (Some "No matching elements found")
        | Raise e =>
            mkApplied i (operation_type operation)
                      (target_criteria operation) false (Some (str_exn e))
        end in
      let (entries, d'') := apply_operations rest (i + 1) d' in
      (entry :: entries, d'')
  end.

Definition backups : Type := list (string * ADFDocument).

(** [self.backup_documents[backup_id] = deepcopy(adf_document)]: the newest
    entry comes first and shadows an older one under the same id. *)
Definition _create_backup (page_id : string) (d : ADFDocument)
    (b : backups) (w : World) : string * backups :=
  let backup_id := "backup_" +++ page_id +++ "_" +++ str_of_Z (time w) in
  (backup_id, (backup_id, d) :: b).

Definition payload (current_page : json) (d : ADFDocument) : res json :=
  title <- page_title current_page ;;
  Ok (JObj [("title", title); ("body", to_dict d)]).

(** One pass through the [try] block: fetch, parse, back up, apply,
    validate, write. *)
Definition attempt (page_id : string) (operations : list UpdateOperation)
    (validate_before_update create_backup : bool) (retry_count : Z)
    (b : backups) (w : World) : res UpdateResult * backups * World :=
  match get_page_adf page_id w with
  | (Raise e, w1) => (Raise e, b, w1)
  | (Ok current_page, w1) =>
      match _parse_page_to_adf current_page with
      | Raise e => (Raise e, b, w1)
      | Ok adf_document =>
          let (backup_id, b1) :=
            if create_backup then
              let (id, b') := _create_backup page_id adf_document b w1 in
              (Some id, b')
            else (None, b) in
          let (applied_operations, adf_document) :=
            apply_operations operations 0 adf_document in
          let validation_result :=
            if validate_before_update then
              Some (fst (validate_document enough_fuel (to_dict adf_document)))
            else None in
          match (version <- version_number current_page ;;
                 body <- payload current_page adf_document ;;
                 Ok (version, body)) with
          | Raise e => (Raise e, b1, w1)
          | Ok (version, body) =>
              match update_page_adf page_id body version w1 with
              | (Raise e, w2) => (Raise e, b1, w2)
              | (Ok updated_page, w2) =>
                  (Ok (mkResult page_id updated_page applied_operations
                         (len applied_operations)
                         (len (filter ao_success applied_operations))
                         validation_result backup_id retry_count),
                   b1, w2)
              end
          end
      end
  end.

Definition retries_exhausted (max_retries : Z) (cause : string) : exn :=
  RuntimeError ("Page update failed after " +++ str_of_Z max_retries
                +++ " retries: " +++ cause).

(** The [while retry_count <= max_retries] loop; [fuel] bounds the
    number of passes. *)
Fixpoint retry_loop (fuel : nat) (page_id : string)
    (operations : list UpdateOperation)
    (validate_before_update create_backup auto_retry_on_conflict : bool)
    (max_retries retry_count : Z) (last_error : option exn)
    (b : backups) (w : World) : res UpdateResult * backups * World :=
  let after_loop :=
    (Raise (retries_exhausted max_retries
              (match last_error with
               | Some e => str_exn e
               | None => "None"
               end)), b, w) in
  match fuel with
  | O => after_loop
  | S fuel' =>
      if retry_count <=? max_retries then
        match attempt page_id operations validate_before_update
                create_backup retry_count b w with
        | (Ok r, b', w') => (Ok r, b', w')
        | (Raise e, b', w') =>
            if is_value_error e then
              if contains "conflict" (lower (str_exn e))
                 && auto_retry_on_conflict then
                if retry_count <? max_retries then
                  retry_loop fuel' page_id operations validate_before_update
                    create_backup auto_retry_on_conflict max_retries
                    (retry_count + 1) (Some e) b' w'
                else
                  (Raise (retries_exhausted max_retries (str_exn e)), b', w')
              else (Raise e, b', w')
            else
              (Raise (RuntimeError ("Page update failed: " +++ str_exn e)),
               b', w')
        end
      else after_loop
  end.

(** [ADFWriter.update_page_preserving_formatting]; [has_client] is the
    truth of [self.confluence_client]. *)
Definition update_page_preserving_formatting (has_client : bool)
    (page_id : string) (operations : list UpdateOperation)
    (validate_before_update create_backup auto_retry_on_conflict : bool)
    (max_retries : Z) (b : backups) (w : World)
  : res UpdateResult * backups * World :=
  if String.eqb page_id "" then
    (Raise (ValueError "Valid page_id is required"), b, w)
  else
    match operations with
    | [] => (Raise (ValueError "At least one operation is required"), b, w)
    | _ =>
        if negb has_client then
          (Raise (ValueError "Confluence client is required for page updates"),
           b, w)
        else
          retry_loop (Z.to_nat (max_retries + 1)) page_id operations
            validate_before_update create_backup auto_retry_on_conflict
            max_retries 0 None b w
    end.
End Writer.

(* ================================================================= *)
(** ** A client that keeps a journal *)

(** What the client was asked to do, in order. *)
Inductive event : Type :=
| Fetched (page_id : string)
| Written (page_id : string) (adf_content : json) (version_number : json).

Record Server : Type := mkServer {
  fetches : nat;
  journal : list event
}.

Definition fresh_server : Server := mkServer 0 [].

(** [get_page_adf] of a server whose page changes between fetches:
    [pages k] is what the fetch after [k] earlier ones returns. *)
Definition serve_page (pages : nat -> json) (page_id : string) (w : Server)
  : res json * Server :=
  (Ok (pages (fetches w)),
   mkServer (S (fetches w)) (journal w ++ [Fetched page_id])).

(** [update_page_adf] of a client that refuses every write with a
    [ValueError]. *)
Definition refuse_write (complaint : string) (page_id : string)
    (adf_content version_number : json) (w : Server) : res json * Server :=
  (Raise (ValueError complaint),
   mkServer (fetches w)
            (journal w ++ [Written page_id adf_content version_number])).

(** What the writer reads from a fetched page. *)
Definition fetched_as (page : json) (d : ADFDocument) (title version : json)
  : Prop :=
  _parse_page_to_adf page = Ok d
  /\ page_title page = Ok title
  /\ version_number page = Ok version.

(** The client calls of one full attempt on the page parsed as [d]. *)
Definition round (key : dict -> option Z -> string) (page_id : string)
    (operations : list UpdateOperation) (d : ADFDocument)
    (title version : json) : list event :=
  [Fetched page_id;
   Written page_id
     (JObj [("title", title);
            ("body", to_dict (snd (apply_operations key operations 0 d)))])
     version].

(* ================================================================= *)
(** ** Notions used in the statements *)

(** The lookup of the key of an [entry]. *)
Definition entry_get {A} (is_set : bool) (f : A -> json) (o : option A)
  : option json :=
  match o with
  | Some a => if is_set then Some (f a) else None
  | None => None
  end.

(** The fields of [node_dump_x], in order. *)
Definition node_fields (n : Node) : dict :=
  [ ("type", JStr (node_type n)) ]
  ++ entry "attrs" (attrs_set n) JObj (node_attrs n)
  ++ entry "content" (content_set n) (fun l => JArr (map node_dump_x l))
       (node_content n)
  ++ entry "text" (text_set n) JStr (node_text n)
  ++ entry "marks" (marks_set n) (fun l => JArr (map mark_dump_x l))
       (node_marks n)
  ++ filter non_null (node_extra n).

(** The ["content"] entry of a dumped document model. *)
Definition doc_content_entry (m : DocModel) : option json :=
  if doc_content_set m then Some (JArr (map node_dump_x (doc_content m)))
  else None.

(** The fields of [to_dict]. *)
Definition to_dict_fields (m : DocModel) : dict :=
  match model_to_dict m with JObj fs => fs | _ => [] end.

(** The call budget was not exhausted. *)
Definition norec {A} (r : res A) : Prop := r <> Raise RecursionError.

(** A method that neither recurses nor touches the depth counter nor
    reports the depth error. *)
Definition quiet {A} (m : VM A) : Prop :=
  forall st,
    norec (fst (m st))
    /\ current_depth (snd (m st)) = current_depth st
    /\ reports_max_depth (snd (m st)) = reports_max_depth st.

(** A method run at depth [d]: it does not exhaust the call budget, it
    restores the depth when it returns, it reports the depth error only
    when [P] holds, and it keeps a depth error already reported. *)
Definition sound {A} (d : Z) (P : Prop) (m : VM A) : Prop :=
  forall st, current_depth st = d ->
    norec (fst (m st))
    /\ (forall a, fst (m st) = Ok a -> current_depth (snd (m st)) = d)
    /\ (reports_max_depth (snd (m st)) = true ->
        reports_max_depth st = true \/ P)
    /\ (reports_max_depth st = true -> reports_max_depth (snd (m st)) = true).

(** A document of one paragraph that says Hello. *)
Definition hello_document : ADFDocument :=
  from_dict
    (doc_of [JObj [("type", JStr "paragraph");
                   ("content",
                    JArr [JObj [("type", JStr "text");
                                ("text", JStr "Hello")]])]]).

(** [mark.get("type") not in existing_mark_types] *)
Definition missing_from (existing : list json) (mark : json) : bool :=
  negb (existsb (py_eq (mark_key mark)) existing).

Definition strong : json := JObj [("type", JStr "strong")].

Definition text_node (text : string) (marks : list json) : dict :=
  [("type", JStr "text"); ("text", JStr text)]
  ++ match marks with [] => [] | _ => [("marks", JArr marks)] end.

Definition replace_with (new_content : json) : UpdateOperation :=
  mkOp "replace" [("text", JStr "old")] new_content true true [].

Definition new_paragraph : json :=
  JObj [("type", JStr "paragraph");
        ("content", JArr [JObj [("type", JStr "text"); ("text", JStr "New")]])].


(* ================================================================= *)
(** ** document.py: reading a document *)

(** [_extract_text_recursive] at one node: a non-empty text is taken and
    the children are then not visited; any other node gives what its
    children give. *)
Fixpoint extract_text (n : Node) : list string :=
  match node_text n with
  | Some t =>
      if negb (String.eqb t "") then [t]
      else match node_content n with
           | Some l => flat_map extract_text l
           | None => []
           end
  | None =>
      match node_content n with
      | Some l => flat_map extract_text l
      | None => []
      end
  end.

Definition _extract_text_recursive (content : list Node) : list string :=
  flat_map extract_text content.




(** A [Dict[str, int]], in insertion order. *)
Definition tally : Type := list (string * Z).

Fixpoint tally_get (k : string) (c : tally) : option Z :=
  match c with
  | [] => None
  | (k', v) :: rest => if String.eqb k k' then Some v else tally_get k rest
  end.

Fixpoint tally_set (k : string) (v : Z) (c : tally) : tally :=
  match c with
  | [] => [(k, v)]
  | (k', v') :: rest =>
      if String.eqb k k' then (k, v) :: rest else (k', v') :: tally_set k v rest
  end.

(** [counts[node_type] = counts.get(node_type, 0) + 1] *)
Definition tally_add (k : string) (c : tally) : tally :=
  tally_set k (match tally_get k c with Some v => v | None => 0 end + 1) c.

(** [_count_elements_recursive] at one node. *)
Fixpoint count_node (n : Node) (counts : tally) : tally :=
  let counts := tally_add (node_type n) counts in
  match node_content n with
  | Some l => fold_left (fun acc c => count_node c acc) l counts
  | None => counts
  end.

Definition _count_elements_recursive (content : list Node) (counts : tally)
  : tally :=
  fold_left (fun acc c => count_node c acc) content counts.

Definition get_element_count (d : ADFDocument) : tally :=
  _count_elements_recursive (doc_content (model d)) [].


(** The nodes that the walks of [document.py] and [finder.py] visit, each
    with its path and its index, in the order of the visit. *)
Definition walk (content : list Node) (path : list Z)
  : list (list Z * Z * Node) :=
  traverse (fun p i n => [(p, i, n)]) content path.

(** The entries of the element map for nodes of type [t]. *)
Definition of_type (t : string) (e : ElementPath) : bool :=
  String.eqb (ep_type e) t.

(** [counts.get(k, 0)] *)
Definition tally_value (k : string) (c : tally) : Z :=
  match tally_get k c with Some v => v | None => 0 end.

(** The visit that builds the element map. *)
Definition map_entry (p : list Z) (i : Z) (n : Node) : list ElementPath :=
  [mkEP p (node_type n) (node_text n)].

(** The type recorded in an element-map entry is one of [NODE_TYPES]. *)
Definition known_type (e : ElementPath) : bool := str_in (ep_type e) NODE_TYPES.

(* ================================================================= *)
(** ** finder.py: the order of the results *)

(** One result does not come after another in the order of
    [_sort_search_results]. *)
Definition result_le (a b : SearchResult) : Prop :=
  key_le (sort_key a) (sort_key b) = true.

(** The results whose sort key is [k]. *)
Definition with_key (k : Z * bool) (r : SearchResult) : bool :=
  (fst (sort_key r) =? fst k) && Bool.eqb (snd (sort_key r)) (snd k).

(** A cache key for examples: it tells criteria apart by their keys and
    by the limit, where [_generate_cache_key] hashes the dumped
    criteria. *)
Definition key_by_names (criteria : dict) (limit : option Z) : string :=
  "search_" +++ String.concat "," (map fst criteria) +++ "_"
  +++ match limit with Some n => str_of_Z n | None => "None" end.

(* ================================================================= *)
(** ** finder.py: what a result says *)

(** The node reached from [n] by the positions [q]. *)
Fixpoint sub_at (n : Node) (q : list nat) : option Node :=
  match q with
  | [] => Some n
  | k :: rest =>
      match node_content n with
      | Some c =>
          match nth_error c k with
          | Some m => sub_at m rest
          | None => None
          end
      | None => None
      end
  end.

(** A result that can be used as a target: its path leads, in the
    document, to a node; the result carries the dump and the type of that
    node, and its index is the last step of the path. *)
Definition reports (d : ADFDocument) (r : SearchResult) : Prop :=
  exists n,
    _get_element_at_path d (ep_path (sr_path r)) = Ok (Some n)
    /\ sr_node r = node_dump n
    /\ ep_type (sr_path r) = node_type n
    /\ sr_index r = last (ep_path (sr_path r)) 0.

(** The visit that lists the nodes. *)
Definition listed (p : list Z) (i : Z) (n : Node) : list (list Z * Z * Node) :=
  [(p, i, n)].

(** A visited node lies where its path says, below [n] at [path ++ [i]]. *)
Definition placed (path : list Z) (i : Z) (n : Node)
    (x : list Z * Z * Node) : Prop :=
  exists q,
    fst (fst x) = (path ++ [i]) ++ map Z.of_nat q
    /\ sub_at n q = Some (snd x)
    /\ snd (fst x) = last (fst (fst x)) 0.

(* ================================================================= *)
(** ** writer.py: backups, and clients for the update loop *)

(** [_restore_from_backup]: a copy of the stored document, or [None]. *)
Fixpoint _restore_from_backup (backup_id : string) (b : backups)
  : option ADFDocument :=
  match b with
  | [] => None
  | (id, d) :: rest =>
      if String.eqb backup_id id then Some d
      else _restore_from_backup backup_id rest
  end.

Definition clear_backups (b : backups) : backups := [].

(** [update_page_adf] of a client whose every write raises [e]. *)
Definition fail_write (e : exn) (page_id : string)
    (adf_content version_number : json) (w : Server) : res json * Server :=
  (Raise e,
   mkServer (fetches w)
            (journal w ++ [Written page_id adf_content version_number])).

Definition is_write (ev : event) : bool :=
  match ev with Written _ _ _ => true | Fetched _ => false end.

(** The number of writes the client has been asked for. *)
Definition writes_in (j : list event) : nat :=
  List.length (filter is_write j).

(** [update_page_adf] of a client that refuses its first [k] writes with
    a [ValueError] and answers every later one with [answer]. *)
Definition flaky_write (k : nat) (complaint : string) (answer : json)
    (page_id : string) (adf_content version_number : json) (w : Server)
  : res json * Server :=
  (if Nat.ltb (writes_in (journal w)) k then Raise (ValueError complaint)
   else Ok answer,
   mkServer (fetches w)
            (journal w ++ [Written page_id adf_content version_number])).

(** The exception that leaves [update_page_preserving_formatting] when an
    attempt raises [e] and there is no retry: a [ValueError] as it is,
    anything else wrapped. *)
Definition surfaced (e : exn) : exn :=
  if is_value_error e then e
  else RuntimeError ("Page update failed: " +++ str_exn e).

(** An exception that the loop takes for a version conflict. *)
Definition is_conflict (e : exn) : bool :=
  is_value_error e && contains "conflict" (lower (str_exn e)).

(* ================================================================= *)
(** ** validator.py: what a verdict rests on *)

(** A method of the validator only ever adds to the list of errors. *)
Definition grows {A} (m : VM A) : Prop :=
  forall st, exists more, errors (snd (m st)) = errors st ++ more.

(** What the validator has checked of a node when it recorded no error:
    the node is a dictionary whose type is one of [NODE_TYPES]; its
    [attrs], [marks] and [text], where present, are a dictionary, a list
    and a string; its [content], where present, is a list of such
    nodes. *)
Inductive wf_node : json -> Prop :=
| wf_node_intro d t :
    dict_get "type" d = Some (JStr t) ->
    str_in t NODE_TYPES = true ->
    (forall a, dict_get "attrs" d = Some a -> is_dict a = true) ->
    (forall m, dict_get "marks" d = Some m -> exists l, m = JArr l) ->
    (forall x, dict_get "text" d = Some x -> exists s, x = JStr s) ->
    (forall c, dict_get "content" d = Some c ->
               exists items, c = JArr items /\ Forall wf_node items) ->
    wf_node (JObj d).

Definition wf_content (c : json) : Prop :=
  exists items, c = JArr items /\ Forall wf_node items.

(** A run that ended without exception and with no error recorded. *)
Definition clean {A} (m : VM A) (st : VState) : Prop :=
  (exists a, fst (m st) = Ok a) /\ errors (snd (m st)) = [].

(* ================================================================= *)
(** ** document.py: the search of the document itself *)

Module Document.

(** [_node_matches_criteria]: each key that the criteria contain is
    checked in turn, and the first check that fails ends the test. *)
Definition _node_matches_criteria (n : Node) (criteria : dict) : res bool :=
  text_ok <-
    (match dict_get "text" criteria with
     | Some q =>
         match node_text n with
         | Some t =>
             if String.eqb t "" then Ok false
             else match q with
                  | JStr s => Ok (contains (lower s) (lower t))
                  | _ => Raise AttributeError
                  end
         | None => Ok false
         end
     | None => Ok true
     end) ;;
  if negb text_ok then Ok false
  else if match dict_get "node_type" criteria with
          | Some q => negb (py_eq (JStr (node_type n)) q)
          | None => false
          end
  then Ok false
  else
    attrs_ok <-
      (match dict_get "attributes" criteria with
       | Some (JObj []) => Ok true
       | Some (JObj attrs) =>
           match node_attrs n with
           | Some node_attrs =>
               Ok (forallb
                     (fun kv => py_eq (or_null (dict_get (fst kv) node_attrs))
                                      (snd kv))
                     attrs)
           | None => Raise AttributeError
           end
       | Some _ => Raise AttributeError
       | None => Ok true
       end) ;;
    if negb attrs_ok then Ok false
    else
      match dict_get "marks" criteria with
      | Some required_marks =>
          match node_marks n with
          | Some marks =>
              let mark_types := map (fun m => JStr (mark_type m)) marks in
              required <- py_iter required_marks ;;
              Ok (forallb (fun r => existsb (py_eq r) mark_types) required)
          | None => Raise TypeError
          end
      | None => Ok true
      end.

(** The [parent] that [_find_elements_recursive] puts into a result for a
    node whose parent list was reached by [path]. *)
Definition reported_parent (d : ADFDocument) (path : list Z)
  : res (option json) :=
  match path with
  | [] => Ok None
  | [_] => Ok (Some (doc_dump (model d)))
  | _ =>
      parent <- _get_node_by_path d (removelast path) ;;
      Ok (option_map node_dump parent)
  end.

(** What [_find_elements_recursive] does at one node. *)
Definition found (d : ADFDocument) (criteria : dict) (p : list Z) (i : Z)
    (n : Node) : res (list SearchResult) :=
  b <- _node_matches_criteria n criteria ;;
  if b : bool then
    parent <- reported_parent d (removelast p) ;;
    Ok [mkSR (node_dump n) (mkEP p (node_type n) (node_text n)) parent i]
  else Ok [].

Definition _find_elements_recursive (d : ADFDocument) (content : list Node)
    (path : list Z) (criteria : dict) : res (list SearchResult) :=
  collect (traverse (fun p i n => [found d criteria p i n]) content path).

(** [ADFDocument.find_elements] *)
Definition find_elements (d : ADFDocument) (criteria : dict)
  : res (list SearchResult) :=
  _find_elements_recursive d (doc_content (model d)) [] criteria.

End Document.

(** The [parent] of a result of [ADFDocument.find_elements], by the
    depth of the result: none at the top level, the dump of the whole
    document model one level down, and below that the dump of the node
    two levels up the path. *)
Definition parent_as_reported (d : ADFDocument) (r : SearchResult) : Prop :=
  match ep_path (sr_path r) with
  | [] => False
  | [_] => sr_parent r = None
  | [_; _] => sr_parent r = Some (doc_dump (model d))
  | p =>
      exists g,
        _get_element_at_path d (removelast (removelast p)) = Ok (Some g)
        /\ sr_parent r = Some (node_dump g)
  end.

(** A result found by a walk: its path is a path of positions that
    leads to a node of the document, of which it carries the dump, the
    type and the index. *)
Definition addressed (d : ADFDocument) (r : SearchResult) : Prop :=
  exists q n,
    ep_path (sr_path r) = map Z.of_nat q
    /\ node_at (doc_content (model d)) q = Some n
    /\ sr_node r = node_dump n
    /\ ep_type (sr_path r) = node_type n
    /\ sr_index r = last (ep_path (sr_path r)) 0.

(* ================================================================= *)
(** ** writer.py: an operation on all its targets *)

Fixpoint path_eqb (a b : list Z) : bool :=
  match a, b with
  | [], [] => true
  | x :: a', y :: b' => (x =? y) && path_eqb a' b'
  | _, _ => false
  end.

(** One of the targets has the path of positions [q]. *)
Definition targeted (targets : list SearchResult) (q : list nat) : bool :=
  existsb (fun r => path_eqb (ep_path (sr_path r)) (map Z.of_nat q)) targets.

(** The target is recorded as a text node. *)
Definition is_text (r : SearchResult) : bool :=
  String.eqb (ep_type (sr_path r)) "text".

(** The tree [c'] is the tree [c] in which exactly the text nodes at the
    paths of [targets] have the text [s]: every node keeps all its other
    fields, and every other node keeps its text. *)
Definition retexted (targets : list SearchResult) (s : string)
    (c c' : list Node) : Prop :=
  forall q,
    option_map other_fields (node_at c' q)
    = option_map other_fields (node_at c q)
    /\ forall n,
         node_at c q = Some n ->
         option_map node_text (node_at c' q)
         = Some (if targeted targets q && String.eqb (node_type n) "text"
                 then Some s else node_text n).

(* ================================================================= *)
(** ** finder.py: JSONPaths that follow a path of positions *)

(** The parts of a JSONPath [[i0].content[i1].content[i2] ...]. *)
Fixpoint position_parts (q : list nat) : list path_part :=
  match q with
  | [] => []
  | k :: rest =>
      PInt (Z.of_nat k) ::
      match rest with
      | [] => []
      | _ => PStr "content" :: position_parts rest
      end
  end.

(** A string of ASCII characters: there [lower] is [str.lower], and the
    length, the comparisons and the search for a substring are those of
    the Python string. *)
Fixpoint is_ascii (s : string) : bool :=
  match s with
  | EmptyString => true
  | String c r => Nat.ltb (nat_of_ascii c) 128 && is_ascii r
  end.

(** The text of an element-map entry, if it has one, is ASCII. *)
Definition ascii_text (e : ElementPath) : bool :=
  match ep_text_content e with
  | Some t => is_ascii t
  | None => true
  end.

(** An element-map entry carries a text that is not empty and has [q] in
    it, letter case apart. *)
Definition says (q : string) (e : ElementPath) : bool :=
  match ep_text_content e with
  | Some t => negb (String.eqb t "") && contains (lower q) (lower t)
  | None => false
  end.

(* ================================================================= *)
(** ** What a dumped document holds *)

(** The dictionary that the positions [q] lead to in a dumped document
    or node: [j["content"][q0]["content"][q1]...]. *)
Fixpoint json_at (j : json) (q : list nat) : option json :=
  match q with
  | [] => Some j
  | k :: rest =>
      match j with
      | JObj fs =>
          match dict_get "content" fs with
          | Some (JArr items) =>
              match nth_error items k with
              | Some x => json_at x rest
              | None => None
              end
          | _ => None
          end
      | _ => None
      end
  end.

(** The node reached from [n] by the positions [q] through contents that
    were set, by the input or by an assignment. *)
Fixpoint shown_below (n : Node) (q : list nat) : option Node :=
  match q with
  | [] => Some n
  | k :: rest =>
      if content_set n then
        match node_content n with
        | Some c =>
            match nth_error c k with
            | Some m => shown_below m rest
            | None => None
            end
        | None => None
        end
      else None
  end.

(** The same from the document. *)
Definition shown_at (m : DocModel) (q : list nat) : option Node :=
  match q with
  | [] => None
  | k :: rest =>
      if doc_content_set m then
        match nth_error (doc_content m) k with
        | Some n => shown_below n rest
        | None => None
        end
      else None
  end.

(* ================================================================= *)
(** ** Facts about the models *)

Lemma doc_validate_empty : doc_validate EMPTY_ADF_DOCUMENT = Some empty_model.
Proof. reflexivity. Qed.

Lemma traverse_node_eq R (visit : list Z -> Z -> Node -> list R) path i n :
  traverse_node visit path i n =
  visit (path ++ [i]) i n ++
  match node_content n with
  | Some l => traverse visit l (path ++ [i])
  | None => []
  end.
Proof.
  destruct n as [t a c x m sa sc sx sm e]; simpl.
  f_equal. destruct c as [l|]; [|reflexivity].
  unfold traverse. generalize 0 as j.
  induction l as [|c r IH]; intros j; simpl; [reflexivity|].
  now rewrite IH.
Qed.


Lemma all_valid_each (f : json -> option Node) items :
  (fix each (its : list json) : option (list Node) :=
     match its with
     | [] => Some []
     | x :: r =>
         match f x, each r with
         | Some y, Some ys => Some (y :: ys)
         | _, _ => None
         end
     end) items = all_valid f items.
Proof. induction items as [|x r IH]; simpl; [reflexivity|]. now rewrite IH. Qed.

(** [node_validate] reads its five fields with [dict.get]. *)
Lemma node_validate_eq fs :
  node_validate (JObj fs) =
  match dict_get "type" fs with
  | Some (JStr t) =>
      let a := read_dict (dict_get "attrs" fs) in
      let c := read_content (dict_get "content" fs) in
      let x := read_str (dict_get "text" fs) in
      let m := read_marks (dict_get "marks" fs) in
      if str_in t NODE_TYPES && field_ok a && field_ok c && field_ok x
         && field_ok m
      then
        Some (mkNode t (field_value [] a) (field_value [] c)
                (match x with Given v => v | _ => None end)
                (field_value [] m)
                (field_set a) (field_set c) (field_set x) (field_set m)
                (filter (not_declared node_declared) fs))
      else None
  | _ => None
  end.
Proof.
  cbn [node_validate]. cbv zeta.
  assert (HF : forall l,
    (fix find (l : list (string * json)) : field (list Node) :=
       match l with
       | [] => Missing
       | (k, v) :: rest =>
           if String.eqb "content" k then
             match v with
             | JNull => Given None
             | JArr items =>
                 match
                   (fix each (its : list json) : option (list Node) :=
                      match its with
                      | [] => Some []
                      | x :: r =>
                          match node_validate x, each r with
                          | Some y, Some ys => Some (y :: ys)
                          | _, _ => None
                          end
                      end) items
                 with
                 | Some ns => Given (Some ns)
                 | None => Invalid
                 end
             | _ => Invalid
             end
           else find rest
       end) l = read_content (dict_get "content" l)).
  { induction l as [|[k v] r IH]; [reflexivity|].
    cbn [dict_get]. destruct (String.eqb "content" k) eqn:E.
    - destruct v; try reflexivity.
      unfold read_content. now rewrite all_valid_each.
    - exact IH. }
  rewrite HF. reflexivity.
Qed.

(* ================================================================= *)
(** ** Validation builds well-formed models *)

Lemma filter_extra_ok declared (fs : dict) :
  extra_ok declared (filter (not_declared declared) fs) = true.
Proof.
  unfold extra_ok. apply forallb_forall. intros x Hx.
  now apply filter_In in Hx.
Qed.

Lemma all_valid_Forall2 A B (f : A -> option B) l r :
  all_valid f l = Some r -> Forall2 (fun x y => f x = Some y) l r.
Proof.
  revert r. induction l as [|x l IH]; simpl; intros r H.
  - injection H as <-. constructor.
  - destruct (f x) eqn:E; [|discriminate].
    destruct (all_valid f l) eqn:E2; [|discriminate].
    injection H as <-. constructor; auto.
Qed.

Lemma mark_validate_ok j m : mark_validate j = Some m -> mark_ok m = true.
Proof.
  destruct j as [| | | | |fs]; try discriminate. unfold mark_validate.
  destruct (dict_get "type" fs) as [[| | |t| |]|]; try discriminate.
  destruct (str_in t MARK_TYPES) eqn:Ht; [|discriminate].
  destruct (field_ok _); [|discriminate]. cbn [andb].
  intros H. injection H as <-. unfold mark_ok. cbn [mark_type mark_extra].
  now rewrite Ht, filter_extra_ok.
Qed.

Lemma read_marks_ok o ms :
  field_value [] (read_marks o) = Some ms -> forallb mark_ok ms = true.
Proof.
  destruct o as [[| | | |l|]|]; cbn; try discriminate;
    try (intros H; injection H as <-; reflexivity).
  destruct (all_valid mark_validate l) eqn:E; cbn; intros H; injection H as <-;
    [|reflexivity].
  apply forallb_forall. intros m Hm.
  apply all_valid_Forall2 in E.
  clear -E Hm. induction E; [contradiction|].
  destruct Hm as [<-|Hm]; [eapply mark_validate_ok; eauto|auto].
Qed.

Lemma node_validate_ok n : forall j, node_validate j = Some n -> node_ok n = true.
Proof.
  induction n as [t a c x m sa sc sx sm e IH] using Node_rect'.
  intros j H. destruct j as [| | | | |fs]; try discriminate.
  rewrite node_validate_eq in H.
  destruct (dict_get "type" fs) as [[| | |t'| |]|]; try discriminate.
  cbv zeta in H.
  destruct (str_in t' NODE_TYPES) eqn:Ht; [|discriminate].
  match type of H with
  | (if ?b then _ else _) = _ => destruct b eqn:Hf; [|discriminate]
  end.
  injection H as <- <- Hc <- Hm <- <- <- <- <-.
  cbn [node_ok node_type node_marks node_extra node_content].
  rewrite Ht, filter_extra_ok. cbn [andb].
  assert (Hmk : match m with Some ms => forallb mark_ok ms | None => true end = true).
  { destruct m as [ms|]; [|reflexivity]. eapply read_marks_ok; eauto. }
  rewrite Hmk. cbn [andb].
  destruct c as [l|]; [|reflexivity].
  specialize (IH l eq_refl).
  destruct (dict_get "content" fs) as [[| | | |items|]|]; cbn in Hc;
    try discriminate; try (injection Hc as <-; reflexivity).
  destruct (all_valid node_validate items) eqn:E; cbn in Hc;
    injection Hc as <-; [|reflexivity].
  apply all_valid_Forall2 in E. apply forallb_forall. intros y Hy.
  clear -E IH Hy. induction E; [contradiction|].
  inversion IH; subst. destruct Hy as [<-|Hy]; eauto.
Qed.

(* ================================================================= *)
(** ** Dumping and validating again *)

Lemma dict_get_app k (a b : dict) :
  dict_get k (a ++ b) =
  match dict_get k a with Some v => Some v | None => dict_get k b end.
Proof.
  induction a as [|[k' v] a IH]; simpl; [reflexivity|].
  destruct (String.eqb k k'); auto.
Qed.

Lemma dict_get_entry A k k' s (f : A -> json) o :
  dict_get k (entry k' s f o) =
  if String.eqb k k' then entry_get s f o else None.
Proof.
  unfold entry, entry_get. destruct o as [a|], s; simpl;
    destruct (String.eqb k k'); reflexivity.
Qed.

Lemma dict_get_extra declared k (e : dict) :
  extra_ok declared e = true -> str_in k declared = true ->
  dict_get k (filter non_null e) = None.
Proof.
  unfold extra_ok. intros He Hk.
  induction e as [|[k' v] e IH]; simpl in *; [reflexivity|].
  apply andb_prop in He as [H1 H2].
  destruct (non_null (k', v)); simpl; auto.
  destruct (String.eqb k k') eqn:E; auto.
  apply String.eqb_eq in E. subst k'.
  unfold not_declared in H1. simpl in H1. now rewrite Hk in H1.
Qed.

Lemma filter_entry A declared k s (f : A -> json) o :
  str_in k declared = true ->
  filter (not_declared declared) (entry k s f o) = [].
Proof.
  intros H. unfold entry. destruct o, s; simpl; auto.
  unfold not_declared. simpl. now rewrite H.
Qed.

Lemma filter_extra declared (e : dict) :
  extra_ok declared e = true ->
  filter (not_declared declared) (filter non_null e) = filter non_null e.
Proof.
  unfold extra_ok. intros He.
  induction e as [|kv e IH]; simpl in *; [reflexivity|].
  apply andb_prop in He as [H1 H2].
  destruct (non_null kv); simpl; auto. rewrite H1. f_equal. auto.
Qed.

Lemma filter_non_null_idem (e : dict) :
  filter non_null (filter non_null e) = filter non_null e.
Proof.
  induction e as [|kv e IH]; simpl; [reflexivity|].
  destruct (non_null kv) eqn:E; simpl; auto. rewrite E. now f_equal.
Qed.

Lemma all_valid_map B (f : json -> option B) (g : B -> json) (l : list B) :
  Forall (fun x => exists y, f (g x) = Some y /\ g y = g x) l ->
  exists l', all_valid f (map g l) = Some l' /\ map g l' = map g l.
Proof.
  induction 1 as [|x l (y & Hy & Hg) _ (l' & Hl & Hm)]; simpl.
  - exists []. auto.
  - exists (y :: l'). rewrite Hy, Hl. simpl. now rewrite Hg, Hm.
Qed.

Lemma mark_roundtrip m :
  mark_ok m = true ->
  exists m', mark_validate (mark_dump_x m) = Some m'
             /\ mark_dump_x m' = mark_dump_x m.
Proof.
  destruct m as [t a s e]. unfold mark_ok. cbn [mark_type mark_extra].
  intros H. apply andb_prop in H as [Ht He].
  unfold mark_dump_x, mark_validate.
  cbn [mark_type mark_attrs mark_attrs_set mark_extra].
  cbn [app dict_get String.eqb Ascii.eqb Bool.eqb].
  rewrite Ht. rewrite dict_get_app, dict_get_entry.
  cbn [String.eqb Ascii.eqb Bool.eqb].
  rewrite (dict_get_extra ["type"; "attrs"] "attrs" e He eq_refl).
  assert (Hx : filter (not_declared ["type"; "attrs"])
                 (("type", JStr t) :: entry "attrs" s JObj a ++ filter non_null e)
               = filter non_null e).
  { cbn [filter not_declared fst str_in existsb String.eqb Ascii.eqb Bool.eqb
         orb negb].
    rewrite filter_app, filter_entry by reflexivity.
    now rewrite filter_extra. }
  rewrite Hx.
  destruct a as [d|], s; cbn; eexists; split; try reflexivity;
    unfold mark_dump_x; cbn; now rewrite filter_non_null_idem.
Qed.

Lemma node_dump_x_eq n : node_dump_x n = JObj (node_fields n).
Proof. destruct n as [t a [l|] x m sa sc sx sm e]; reflexivity. Qed.

Ltac get_field :=
  unfold node_fields;
  repeat (rewrite ?dict_get_app, ?dict_get_entry;
          cbn [dict_get String.eqb Ascii.eqb Bool.eqb]).

Lemma node_fields_get n k :
  extra_ok node_declared (node_extra n) = true ->
  str_in k node_declared = true ->
  dict_get k (node_fields n) =
  if String.eqb k "type" then Some (JStr (node_type n))
  else if String.eqb k "attrs" then entry_get (attrs_set n) JObj (node_attrs n)
  else if String.eqb k "content" then
    entry_get (content_set n) (fun l => JArr (map node_dump_x l)) (node_content n)
  else if String.eqb k "text" then entry_get (text_set n) JStr (node_text n)
  else entry_get (marks_set n) (fun l => JArr (map mark_dump_x l)) (node_marks n).
Proof.
  intros He Hk. unfold node_fields.
  rewrite !dict_get_app, !dict_get_entry. cbn [dict_get].
  rewrite (dict_get_extra node_declared k _ He Hk).
  destruct (String.eqb k "type") eqn:E1; [reflexivity|].
  destruct (String.eqb k "attrs") eqn:E2; [apply String.eqb_eq in E2; subst k; cbn; repeat match goal with |- context [entry_get ?a ?b ?c] => destruct (entry_get a b c) end; reflexivity|].
  destruct (String.eqb k "content") eqn:E3; [apply String.eqb_eq in E3; subst k; cbn; repeat match goal with |- context [entry_get ?a ?b ?c] => destruct (entry_get a b c) end; reflexivity|].
  destruct (String.eqb k "text") eqn:E4; [apply String.eqb_eq in E4; subst k; cbn; repeat match goal with |- context [entry_get ?a ?b ?c] => destruct (entry_get a b c) end; reflexivity|].
  destruct (String.eqb k "marks") eqn:E5; [apply String.eqb_eq in E5; subst k; cbn; repeat match goal with |- context [entry_get ?a ?b ?c] => destruct (entry_get a b c) end; reflexivity|].
  unfold node_declared in Hk. cbn [str_in existsb] in Hk.
  rewrite E1, E2, E3, E4, E5 in Hk. discriminate.
Qed.

Lemma node_fields_extra n :
  extra_ok node_declared (node_extra n) = true ->
  filter (not_declared node_declared) (node_fields n)
  = filter non_null (node_extra n).
Proof.
  intros He. unfold node_fields.
  rewrite !filter_app, !filter_entry by reflexivity.
  rewrite filter_extra by assumption. reflexivity.
Qed.

Lemma node_roundtrip n :
  node_ok n = true ->
  exists n', node_validate (node_dump_x n) = Some n'
             /\ node_dump_x n' = node_dump_x n.
Proof.
  induction n as [t a c x m sa sc sx sm e IH] using Node_rect'.
  intros Hok. cbn [node_ok node_type node_marks node_extra node_content] in Hok.
  apply andb_prop in Hok as [Hok Hc]. apply andb_prop in Hok as [Hok He].
  apply andb_prop in Hok as [Ht Hm].
  set (n := mkNode t a c x m sa sc sx sm e).
  rewrite node_dump_x_eq, node_validate_eq.
  rewrite !(node_fields_get n) by (try exact He; reflexivity).
  rewrite node_fields_extra by exact He.
  cbn [String.eqb Ascii.eqb Bool.eqb]. cbv zeta.
  subst n. cbn [node_type node_attrs node_content node_text node_marks
                attrs_set content_set text_set marks_set node_extra].
  rewrite Ht. cbn [andb].
  (* children *)
  assert (Hcc : exists c',
    read_content (entry_get sc (fun l => JArr (map node_dump_x l)) c) = c'
    /\ field_ok c' = true
    /\ entry "content" (field_set c') (fun l => JArr (map node_dump_x l))
         (field_value [] c')
       = entry "content" sc (fun l => JArr (map node_dump_x l)) c).
  { destruct c as [l|]; [|eexists; split; [reflexivity|]; cbn; auto].
    destruct sc; [|eexists; split; [reflexivity|]; cbn; auto].
    cbn [entry_get read_content].
    destruct (all_valid_map node_validate node_dump_x (l := l)) as (l' & Hl & Hmap).
    { specialize (IH l eq_refl). rewrite forallb_forall in Hc.
      rewrite Forall_forall in *. intros y Hy. apply IH; auto. }
    rewrite Hl. eexists; split; [reflexivity|]. cbn. now rewrite Hmap. }
  destruct Hcc as (c' & -> & Hcok & Hce).
  assert (Hmm : exists m',
    read_marks (entry_get sm (fun l => JArr (map mark_dump_x l)) m) = m'
    /\ field_ok m' = true
    /\ entry "marks" (field_set m') (fun l => JArr (map mark_dump_x l))
         (field_value [] m')
       = entry "marks" sm (fun l => JArr (map mark_dump_x l)) m).
  { destruct m as [l|]; [|eexists; split; [reflexivity|]; cbn; auto].
    destruct sm; [|eexists; split; [reflexivity|]; cbn; auto].
    cbn [entry_get read_marks].
    destruct (all_valid_map mark_validate mark_dump_x (l := l)) as (l' & Hl & Hmap).
    { rewrite forallb_forall in Hm. rewrite Forall_forall.
      intros y Hy. apply mark_roundtrip; auto. }
    rewrite Hl. eexists; split; [reflexivity|]. cbn. now rewrite Hmap. }
  destruct Hmm as (m' & -> & Hmok & Hme).
  rewrite Hcok, Hmok.
  assert (Ha : field_ok (read_dict (entry_get sa JObj a)) = true)
    by (destruct a, sa; reflexivity).
  assert (Hx : field_ok (read_str (entry_get sx JStr x)) = true)
    by (destruct x, sx; reflexivity).
  rewrite Ha, Hx. cbn [andb].
  eexists; split; [reflexivity|].
  rewrite !node_dump_x_eq. unfold node_fields.
  cbn [node_type node_attrs node_content node_text node_marks
       attrs_set content_set text_set marks_set node_extra].
  rewrite Hce, Hme, filter_non_null_idem.
  replace (entry "attrs" (field_set (read_dict (entry_get sa JObj a))) JObj
             (field_value [] (read_dict (entry_get sa JObj a))))
    with (entry "attrs" sa JObj a) by (destruct a, sa; reflexivity).
  replace (entry "text" (field_set (read_str (entry_get sx JStr x))) JStr
             match read_str (entry_get sx JStr x) with
             | Given v => v
             | _ => None
             end)
    with (entry "text" sx JStr x) by (destruct x, sx; reflexivity).
  reflexivity.
Qed.

Lemma dict_get_set k k' v (d : dict) :
  dict_get k (dict_set k' v d) =
  if String.eqb k k' then Some v else dict_get k d.
Proof.
  induction d as [|[k0 v0] d IH]; simpl.
  - destruct (String.eqb k k'); reflexivity.
  - destruct (String.eqb k' k0) eqn:E; simpl.
    + apply String.eqb_eq in E. subst k0.
      destruct (String.eqb k k'); reflexivity.
    + rewrite IH. destruct (String.eqb k k0) eqn:E2; [|reflexivity].
      apply String.eqb_eq in E2. subst k0.
      destruct (String.eqb k k') eqn:E3; [|reflexivity].
      apply String.eqb_eq in E3. subst k'. now rewrite String.eqb_refl in E.
Qed.

Lemma filter_dict_set declared k v (d : dict) :
  str_in k declared = true ->
  filter (not_declared declared) (dict_set k v d)
  = filter (not_declared declared) d.
Proof.
  intros Hk. induction d as [|[k0 v0] d IH]; simpl.
  - unfold not_declared. simpl. now rewrite Hk.
  - destruct (String.eqb k k0) eqn:E; simpl.
    + apply String.eqb_eq in E. subst k0. unfold not_declared. simpl.
      now rewrite Hk.
    + now rewrite IH.
Qed.

Lemma doc_dump_x_get m k :
  extra_ok doc_declared (doc_extra m) = true ->
  dict_get k (doc_dump_x m) =
  if String.eqb k "version" then
    (if version_set m then Some (JNum ADF_VERSION) else None)
  else if String.eqb k "type" then
    (if type_set m then Some (JStr ADF_DOCUMENT_TYPE) else None)
  else if String.eqb k "content" then doc_content_entry m
  else dict_get k (filter non_null (doc_extra m)).
Proof.
  intros He. unfold doc_dump_x, doc_content_entry.
  destruct (String.eqb k "version") eqn:E1.
  { apply String.eqb_eq in E1. subst k. rewrite !dict_get_app.
    rewrite (dict_get_extra doc_declared "version" _ He eq_refl).
    destruct (version_set m), (type_set m), (doc_content_set m); reflexivity. }
  destruct (String.eqb k "type") eqn:E2.
  { apply String.eqb_eq in E2. subst k. rewrite !dict_get_app.
    rewrite (dict_get_extra doc_declared "type" _ He eq_refl).
    destruct (version_set m), (type_set m), (doc_content_set m); reflexivity. }
  destruct (String.eqb k "content") eqn:E3.
  { apply String.eqb_eq in E3. subst k. rewrite !dict_get_app.
    rewrite (dict_get_extra doc_declared "content" _ He eq_refl).
    destruct (version_set m), (type_set m), (doc_content_set m); reflexivity. }
  rewrite !dict_get_app.
  destruct (version_set m), (type_set m), (doc_content_set m);
    cbn [dict_get]; rewrite ?E1, ?E2, ?E3; reflexivity.
Qed.

Lemma model_to_dict_fields m : model_to_dict m = JObj (to_dict_fields m).
Proof. reflexivity. Qed.

(** What [to_dict] answers for each key. *)
Lemma to_dict_get m k :
  extra_ok doc_declared (doc_extra m) = true ->
  dict_get k (to_dict_fields m) =
  if String.eqb k "version" then Some (JNum ADF_VERSION)
  else if String.eqb k "type" then Some (JStr ADF_DOCUMENT_TYPE)
  else if String.eqb k "content" then doc_content_entry m
  else dict_get k (filter non_null (doc_extra m)).
Proof.
  intros He. unfold to_dict_fields, model_to_dict. cbv zeta.
  set (r1 := if dict_has "version" (doc_dump_x m) then doc_dump_x m
             else dict_set "version" (JNum ADF_VERSION) (doc_dump_x m)).
  assert (H1 : dict_get k r1 =
    if String.eqb k "version" then Some (JNum ADF_VERSION)
    else dict_get k (doc_dump_x m)).
  { subst r1. unfold dict_has.
    rewrite (doc_dump_x_get m "version" He). cbn [String.eqb Ascii.eqb Bool.eqb].
    destruct (version_set m) eqn:Evs.
    - rewrite (doc_dump_x_get m k He), Evs.
      destruct (String.eqb k "version"); reflexivity.
    - apply dict_get_set. }
  assert (Hh : dict_has "type" r1 = type_set m).
  { unfold dict_has. subst r1. unfold dict_has.
    rewrite (doc_dump_x_get m "version" He). cbn [String.eqb Ascii.eqb Bool.eqb].
    destruct (version_set m) eqn:Evs; rewrite ?dict_get_set;
      cbn [String.eqb Ascii.eqb Bool.eqb];
      rewrite (doc_dump_x_get m "type" He); cbn [String.eqb Ascii.eqb Bool.eqb];
      destruct (type_set m); reflexivity. }
  rewrite Hh. destruct (type_set m) eqn:Ets.
  - rewrite H1, (doc_dump_x_get m k He), Ets.
    destruct (String.eqb k "version"); reflexivity.
  - rewrite dict_get_set, H1, (doc_dump_x_get m k He), Ets.
    destruct (String.eqb k "version") eqn:E1.
    + apply String.eqb_eq in E1. subst k. reflexivity.
    + destruct (String.eqb k "type"); reflexivity.
Qed.

Lemma to_dict_extra m :
  extra_ok doc_declared (doc_extra m) = true ->
  filter (not_declared doc_declared) (to_dict_fields m)
  = filter non_null (doc_extra m).
Proof.
  intros He. unfold to_dict_fields, model_to_dict. cbv zeta.
  assert (H0 : filter (not_declared doc_declared) (doc_dump_x m)
               = filter non_null (doc_extra m)).
  { unfold doc_dump_x. rewrite !filter_app, filter_extra by assumption.
    destruct (version_set m), (type_set m), (doc_content_set m); reflexivity. }
  repeat match goal with
  | |- context [if ?b then _ else _] => destruct b
  end; rewrite ?filter_dict_set by reflexivity; assumption.
Qed.

Lemma extra_ok_non_null declared (e : dict) :
  extra_ok declared e = true -> extra_ok declared (filter non_null e) = true.
Proof.
  unfold extra_ok. rewrite !forallb_forall. intros H x Hx.
  apply filter_In in Hx as [Hx _]. auto.
Qed.

(** Validating a dump succeeds and dumps to the same dictionary. *)
Lemma model_roundtrip m :
  model_ok m = true ->
  exists m', doc_validate (model_to_dict m) = Some m'
             /\ same_dict (model_to_dict m') (model_to_dict m).
Proof.
  unfold model_ok. intros H. apply andb_prop in H as [Hn He].
  rewrite model_to_dict_fields. unfold doc_validate.
  rewrite !(to_dict_get m) by assumption.
  cbn [String.eqb Ascii.eqb Bool.eqb]. unfold dict_has.
  rewrite !(to_dict_get m) by assumption.
  cbn [String.eqb Ascii.eqb Bool.eqb].
  rewrite to_dict_extra by assumption.
  rewrite Z.eqb_refl. cbn [andb].
  destruct (all_valid_map node_validate node_dump_x (l := doc_content m))
    as (l' & Hl & Hmap).
  { rewrite forallb_forall in Hn. rewrite Forall_forall.
    intros y Hy. apply node_roundtrip; auto. }
  unfold doc_content_entry. destruct (doc_content_set m) eqn:Ecs.
  - cbn [read_content]. rewrite Hl.
    eexists; split; [reflexivity|].
    rewrite !model_to_dict_fields. intros k.
    rewrite !to_dict_get; cbn [doc_extra]; try assumption;
      [|now apply extra_ok_non_null].
    unfold doc_content_entry. cbn [doc_content_set doc_content].
    rewrite Ecs, Hmap, filter_non_null_idem. reflexivity.
  - cbn [read_content].
    eexists; split; [reflexivity|].
    rewrite !model_to_dict_fields. intros k.
    rewrite !to_dict_get; cbn [doc_extra]; try assumption;
      [|now apply extra_ok_non_null].
    unfold doc_content_entry. cbn [doc_content_set doc_content].
    rewrite Ecs, filter_non_null_idem. reflexivity.
Qed.

(* ================================================================= *)
(** ** The operations keep the model well formed *)

Lemma all_valid_node_ok items ns :
  all_valid node_validate items = Some ns -> forallb node_ok ns = true.
Proof.
  intros E. apply all_valid_Forall2 in E. apply forallb_forall.
  intros y Hy. induction E; [contradiction|].
  destruct Hy as [<-|Hy]; [eapply node_validate_ok; eauto|auto].
Qed.

Lemma doc_validate_ok j m : doc_validate j = Some m -> model_ok m = true.
Proof.
  destruct j as [| | | | |fs]; try discriminate. unfold doc_validate.
  destruct (dict_get "content" fs) as [[| | | |items|]|]; cbn [read_content];
    try discriminate.
  - destruct (all_valid node_validate items) eqn:E; [|discriminate].
    destruct (_ && _); [|discriminate]. intros H. injection H as <-.
    unfold model_ok. cbn [doc_content doc_extra].
    now rewrite (all_valid_node_ok _ E), filter_extra_ok.
  - destruct (_ && _); [|discriminate]. intros H. injection H as <-.
    unfold model_ok. cbn [doc_content doc_extra].
    now rewrite filter_extra_ok.
Qed.

Lemma list_alter_ok (n : Node) k l :
  node_ok n = true -> forallb node_ok l = true ->
  forallb node_ok (list_alter (fun _ => n) k l) = true.
Proof.
  intros Hn. revert k. induction l as [|x l IH]; intros k H; [reflexivity|].
  cbn [forallb] in H. apply andb_prop in H as [H1 H2].
  destruct k; cbn [list_alter forallb]; [now rewrite Hn, H2|].
  now rewrite H1, IH.
Qed.

Lemma list_insert_ok (n : Node) k l :
  node_ok n = true -> forallb node_ok l = true ->
  forallb node_ok (list_insert k n l) = true.
Proof.
  intros Hn. revert k. induction l as [|x l IH]; intros k H.
  - destruct k; cbn; now rewrite Hn.
  - cbn [forallb] in H. apply andb_prop in H as [H1 H2].
    destruct k; cbn [list_insert forallb].
    + now rewrite Hn, H1, H2.
    + now rewrite H1, IH.
Qed.

Lemma list_remove_ok k (l : list Node) :
  forallb node_ok l = true -> forallb node_ok (list_remove k l) = true.
Proof.
  revert k. induction l as [|x l IH]; intros k H; [reflexivity|].
  cbn [forallb] in H. apply andb_prop in H as [H1 H2].
  destruct k; cbn [list_remove forallb]; [assumption|].
  now rewrite H1, IH.
Qed.

Lemma list_alter_forallb (f : Node -> Node) k l :
  (forall x, In x l -> node_ok x = true -> node_ok (f x) = true) ->
  forallb node_ok l = true -> forallb node_ok (list_alter f k l) = true.
Proof.
  revert k. induction l as [|x l IH]; intros k Hf H; [reflexivity|].
  cbn [forallb] in H. apply andb_prop in H as [H1 H2].
  destruct k; cbn [list_alter forallb].
  - rewrite Hf; simpl; auto.
  - rewrite H1, IH; simpl; auto. intros y Hy. apply Hf. now right.
Qed.

Lemma set_node_content_ok n c :
  node_ok n = true ->
  match c with Some l => forallb node_ok l | None => true end = true ->
  node_ok (set_node_content n c) = true.
Proof.
  destruct n as [t a c0 x m sa sc sx sm e]. cbn. intros H Hc.
  apply andb_prop in H as [H _]. now rewrite H, Hc.
Qed.

Lemma node_ok_content n l :
  node_ok n = true -> node_content n = Some l -> forallb node_ok l = true.
Proof.
  destruct n as [t a c0 x m sa sc sx sm e]. cbn. intros H ->.
  now apply andb_prop in H as [_ H].
Qed.

Lemma modify_parent_ok f path :
  (forall l, forallb node_ok l = true -> forallb node_ok (f l) = true) ->
  forall l, forallb node_ok l = true ->
            forallb node_ok (modify_parent f l path) = true.
Proof.
  intros Hf. induction path as [|i rest IH]; intros l Hl; cbn [modify_parent].
  - auto.
  - destruct (py_pos (List.length l) i); [|assumption].
    apply list_alter_forallb; [|assumption].
    intros x _ Hx. apply set_node_content_ok; [assumption|].
    destruct (node_content x) as [c|] eqn:Ec; [|reflexivity].
    cbn [option_map]. apply IH. eapply node_ok_content; eauto.
Qed.

Lemma refreshed_ok d c :
  model_ok (model d) = true -> forallb node_ok c = true ->
  model_ok (model (refreshed d c)) = true.
Proof.
  unfold model_ok, refreshed. intros H Hc.
  cbn [model set_doc_content doc_content doc_extra].
  apply andb_prop in H as [_ He]. now rewrite Hc, He.
Qed.

Lemma to_model_ok e n :
  element_ok e = true -> to_model e = Ok n -> node_ok n = true.
Proof.
  destruct e as [j|n0]; cbn [element_ok to_model].
  - intros _. destruct j as [| | | | |fs]; try discriminate.
    destruct (node_validate (JObj fs)) eqn:E; [|discriminate].
    intros H. injection H as <-. eapply node_validate_ok; eauto.
  - intros H H1. now injection H1 as <-.
Qed.

Lemma init_ok data : model_ok (model (ADFDocument_init data)) = true.
Proof.
  unfold ADFDocument_init. cbn [model].
  destruct (doc_validate _) eqn:E; [|reflexivity].
  eapply doc_validate_ok; eauto.
Qed.

Lemma update_element_ok d u :
  model_ok (model d) = true ->
  model_ok (model (snd (update_element d u))) = true.
Proof.
  intros Hd. assert (Hc : forallb node_ok (doc_content (model d)) = true)
    by (unfold model_ok in Hd; now apply andb_prop in Hd as [Hd _]).
  unfold update_element. cbv zeta.
  destruct (target_path u) eqn:Ep; [assumption|]. rewrite <- Ep.
  destruct (descend _ _); [|assumption].
  repeat match goal with
  | |- context [if ?b then _ else _] => destruct b
  | |- context [match node_validate ?j with _ => _ end] =>
      let E := fresh "E" in destruct (node_validate j) eqn:E
  | |- context [match ?a with Some _ => _ | None => _ end] => destruct a
  end; cbn [snd]; try assumption;
  apply refreshed_ok; try assumption; apply modify_parent_ok; try assumption;
  intros l' Hl; auto using list_remove_ok;
  try (apply list_alter_ok; [eapply node_validate_ok; eauto|assumption]);
  try (apply list_insert_ok; [eapply node_validate_ok; eauto|assumption]).
Qed.

Lemma built_ok d : built d -> model_ok (model d) = true.
Proof.
  induction 1 as [data | d path e b d' _ IH He H | d path i e b d' _ IH He H
                 | d path _ IH | d u _ IH | d text _ IH | d _ IH].
  - apply init_ok.
  - assert (Hc : forallb node_ok (doc_content (model d)) = true)
      by (unfold model_ok in IH; now apply andb_prop in IH as [IH _]).
    unfold _replace_element_at_path in H.
    destruct path; [now injection H as _ <-|].
    destruct (_get_parent_at_path _ _); [|now injection H as _ <-].
    destruct (_ >=? _); [now injection H as _ <-|].
    destruct (to_model e) eqn:Em; [|discriminate]. cbn [bind] in H.
    destruct (py_pos _ _); injection H as _ <-; [|assumption].
    apply refreshed_ok; [assumption|]. apply modify_parent_ok; [|assumption].
    intros l1 Hl. apply list_alter_ok; [|assumption]. eapply to_model_ok; eauto.
  - assert (Hc : forallb node_ok (doc_content (model d)) = true)
      by (unfold model_ok in IH; now apply andb_prop in IH as [IH _]).
    unfold _insert_element_at_path in H.
    destruct (_get_parent_at_path _ _); [|now injection H as _ <-].
    cbv zeta in H. destruct (to_model e) eqn:Em; [|discriminate].
    cbn [bind] in H. injection H as _ <-.
    apply refreshed_ok; [assumption|]. apply modify_parent_ok; [|assumption].
    intros l1 Hl. apply list_insert_ok; [|assumption]. eapply to_model_ok; eauto.
  - assert (Hc : forallb node_ok (doc_content (model d)) = true)
      by (unfold model_ok in IH; now apply andb_prop in IH as [IH _]).
    unfold _delete_element_at_path.
    destruct path; [assumption|].
    destruct (_get_parent_at_path _ _); [|assumption].
    destruct (_ >=? _); [assumption|].
    destruct (py_pos _ _); [|assumption]. cbn [snd].
    apply refreshed_ok; [assumption|]. apply modify_parent_ok; [|assumption].
    intros l1 Hl. now apply list_remove_ok.
  - now apply update_element_ok.
  - assert (Hc : forallb node_ok (doc_content (model d)) = true)
      by (unfold model_ok in IH; now apply andb_prop in IH as [IH _]).
    unfold add_paragraph. cbv zeta.
    destruct (doc_content (model d)) eqn:Ec.
    + destruct (node_validate _) eqn:E; [|assumption]. cbn [snd].
      apply refreshed_ok; [assumption|]. cbn.
      apply node_validate_ok in E. now rewrite E.
    + now apply update_element_ok.
  - unfold model_ok in *. cbn. now apply andb_prop in IH as [_ IH].
Qed.

(** X28.  For every document built with the Document Model operations
    from node dictionaries, dumping with [to_dict], constructing a
    document from the dump and dumping again gives the same dictionary as
    the first dump. *)
Theorem to_dict_roundtrip d :
  built d -> same_dict (to_dict (from_dict (to_dict d))) (to_dict d).
Proof.
  intros Hb. apply built_ok in Hb.
  destruct (model_roundtrip _ Hb) as (m' & Hv & Hs).
  unfold from_dict, ADFDocument_init, to_dict at 1. cbn [model].
  unfold to_dict. now rewrite Hv.
Qed.

Lemma to_dict_roundtrip_witness :
  let d := snd (add_paragraph
                  (ADFDocument_init
                     (Some (JObj [("content",
                                   JArr [JObj [("type", JStr "paragraph")]])])))
                  "Hi") in
  built d /\ same_dict (to_dict (from_dict (to_dict d))) (to_dict d).
Proof.
  intros d. assert (Hb : built d) by (apply built_add_paragraph, built_init).
  split; [exact Hb | exact (to_dict_roundtrip Hb)].
Defined.

(* ================================================================= *)
(** ** Lenient parsing *)

Lemma all_valid_None A B (f : A -> option B) l x :
  In x l -> f x = None -> all_valid f l = None.
Proof.
  induction l as [|y l IH]; [contradiction|]. intros [->|H] Hx; simpl.
  - now rewrite Hx.
  - rewrite (IH H Hx). now destruct (f y).
Qed.

Lemma unknown_invalid j : unknown_in_node j -> node_validate j = None.
Proof.
  induction 1 as [fs t Ht Hin | fs ms mfs t Hm Hi Ht Hin | fs items c Hc Hi _ IH];
    rewrite node_validate_eq.
  - rewrite Ht. cbv zeta. now rewrite Hin.
  - destruct (dict_get "type" fs) as [[| | |t'| |]|]; try reflexivity.
    cbv zeta. rewrite Hm. cbn [read_marks].
    rewrite (all_valid_None mark_validate ms (JObj mfs) Hi).
    + cbn [field_ok]. now rewrite !andb_false_r.
    + unfold mark_validate. now rewrite Ht, Hin.
  - destruct (dict_get "type" fs) as [[| | |t'| |]|]; try reflexivity.
    cbv zeta. rewrite Hc. cbn [read_content].
    rewrite (all_valid_None node_validate items c Hi IH).
    cbn [field_ok]. now rewrite !andb_false_r.
Qed.

(** C10.  An input dictionary with a node of unknown type, or a mark of
    unknown type, anywhere in its content tree constructs the empty
    document: [to_dict] returns exactly
    [{"version": 1, "type": "doc", "content": []}]. *)
Theorem unknown_type_gives_empty_document data :
  unknown_in_doc data ->
  model (from_dict data) = empty_model
  /\ to_dict (from_dict data) = EMPTY_ADF_DOCUMENT.
Proof.
  intros (fs & items & c & -> & Hc & Hi & Hu).
  assert (Hv : doc_validate (JObj fs) = None).
  { unfold doc_validate. rewrite Hc. cbn [read_content].
    now rewrite (all_valid_None node_validate items c Hi (unknown_invalid Hu)). }
  unfold from_dict, ADFDocument_init, to_dict. cbn [model].
  rewrite Hv. split; reflexivity.
Qed.

Lemma unknown_type_gives_empty_document_witness :
  let data :=
    JObj [("version", JNum 1); ("type", JStr "doc");
          ("content",
           JArr [JObj [("type", JStr "paragraph");
                       ("content",
                        JArr [JObj [("type", JStr "text"); ("text", JStr "kept?")];
                              JObj [("type", JStr "blink")]])]])] in
  unknown_in_doc data
  /\ model (from_dict data) = empty_model
  /\ to_dict (from_dict data) = EMPTY_ADF_DOCUMENT.
Proof.
  intros data.
  assert (H : unknown_in_doc data).
  { eexists _, _, _. split; [reflexivity|]. split; [reflexivity|].
    split; [left; reflexivity|].
    eapply unknown_below; [reflexivity | right; left; reflexivity |].
    eapply unknown_node_type; reflexivity. }
  split; [exact H | exact (unknown_type_gives_empty_document H)].
Defined.

(* ================================================================= *)
(** ** Paths *)

Lemma py_pos_in n i : 0 <= i -> i < Z.of_nat n -> py_pos n i = Some (Z.to_nat i).
Proof.
  intros H1 H2. unfold py_pos.
  destruct (0 <=? i) eqn:E1; [|lia]. destruct (i <? Z.of_nat n) eqn:E2; [|lia].
  reflexivity.
Qed.

Lemma py_pos_past n i : Z.of_nat n <= i -> py_pos n i = None.
Proof.
  intros H. unfold py_pos.
  destruct (i <? Z.of_nat n) eqn:E2; [lia|]. rewrite andb_false_r.
  destruct (i <? 0) eqn:E3; [lia|]. reflexivity.
Qed.

Lemma nth_error_len A (l : list A) i x :
  0 <= i -> nth_error l (Z.to_nat i) = Some x -> i < len l.
Proof.
  intros H0 H. assert (Hn : (Z.to_nat i < List.length l)%nat)
    by (apply nth_error_Some; congruence).
  unfold len. lia.
Qed.

Lemma removelast_cons A (x y : A) l :
  removelast (x :: y :: l) = x :: removelast (y :: l).
Proof. reflexivity. Qed.

Lemma last_cons A (x y : A) l d : last (x :: y :: l) d = last (y :: l) d.
Proof. reflexivity. Qed.

(** Reading along a path that leaves the tree ends in an [IndexError]
    inside the [try] block. *)
Lemma read_out_of_range path : forall content,
  out_of_range content path ->
  (current <- descend (Some content) (removelast path) ;;
   match path with
   | [] => Ok None
   | _ =>
       match current with
       | None => Raise TypeError
       | Some l =>
           match py_nth l (last path 0) with
           | None => Raise IndexError
           | Some n => Ok (Some n)
           end
       end
   end) = Raise IndexError.
Proof.
  induction path as [|i rest IH]; intros content H; [contradiction|].
  destruct H as [H0 [Hlen|(n & c & Hn & Hc & Hr)]].
  - destruct rest as [|j rest].
    + cbn. unfold py_nth. now rewrite py_pos_past.
    + rewrite removelast_cons. cbn [descend bind]. unfold py_nth.
      now rewrite py_pos_past.
  - destruct rest as [|j rest]; [contradiction|].
    rewrite removelast_cons, last_cons. cbn [descend].
    unfold py_nth at 1. rewrite py_pos_in, Hn, Hc;
      [|assumption|eapply nth_error_len; eauto].
    specialize (IH c Hr). exact IH.
Qed.

(** Along such a path the parent list is missing, or the last index is
    past its end. *)
Lemma parent_out_of_range path : forall content,
  out_of_range content path ->
  match get_parent content (removelast path) with
  | None => True
  | Some parent => (last path 0 >=? len parent) = true
  end.
Proof.
  induction path as [|i rest IH]; intros content H; [contradiction|].
  destruct H as [H0 [Hlen|(n & c & Hn & Hc & Hr)]].
  - destruct rest as [|j rest].
    + cbn. apply Z.geb_le. lia.
    + rewrite removelast_cons. cbn [get_parent].
      destruct (i >=? len content) eqn:E; [exact I|].
      rewrite Z.geb_leb in E. apply Z.leb_gt in E. lia.
  - destruct rest as [|j rest]; [contradiction|].
    rewrite removelast_cons, last_cons. cbn [get_parent].
    assert (Hlt : i < len content) by (eapply nth_error_len; eauto).
    destruct (i >=? len content) eqn:E;
      [rewrite Z.geb_leb in E; apply Z.leb_le in E; lia|].
    unfold py_nth. rewrite py_pos_in, Hn, Hc by assumption.
    exact (IH c Hr).
Qed.

Lemma list_alter_length A (f : A -> A) k l :
  List.length (list_alter f k l) = List.length l.
Proof.
  revert k. induction l as [|x l IH]; intros k; [reflexivity|].
  destruct k; cbn; auto.
Qed.

Lemma nth_error_list_alter A (f : A -> A) k l x :
  nth_error l k = Some x -> nth_error (list_alter f k l) k = Some (f x).
Proof.
  revert k. induction l as [|y l IH]; intros k H; [now destruct k|].
  destruct k; cbn in *; [now injection H as ->|auto].
Qed.

(** After a change through [modify_parent] the same path leads to the
    changed list. *)
Lemma get_parent_modify f path : forall content parent,
  get_parent content path = Some parent ->
  get_parent (modify_parent f content path) path = Some (f parent).
Proof.
  induction path as [|i rest IH]; intros content parent H.
  - cbn in *. now injection H as ->.
  - cbn [get_parent modify_parent] in *.
    destruct (i >=? len content) eqn:E; [discriminate|].
    unfold py_nth in H.
    destruct (py_pos (List.length content) i) as [k|] eqn:Ek; [|discriminate].
    destruct (nth_error content k) as [e|] eqn:En; [|discriminate].
    destruct (node_content e) as [c|] eqn:Ec; [|discriminate].
    unfold len. rewrite list_alter_length. fold (len content). rewrite E.
    unfold py_nth. rewrite list_alter_length, Ek.
    rewrite (nth_error_list_alter _ _ _ En).
    destruct e as [t a c0 x m sa sc sx sm ex]. cbn in Ec. subst c0.
    cbn. apply IH. exact H.
Qed.

Lemma py_insert_pos_clamped n i :
  py_insert_pos n (Z.max 0 (Z.min i (Z.of_nat n)))
  = Z.to_nat (Z.max 0 (Z.min i (Z.of_nat n))).
Proof.
  unfold py_insert_pos.
  destruct (Z.max 0 (Z.min i (Z.of_nat n)) <? 0) eqn:E; [lia|].
  f_equal. lia.
Qed.

Lemma nth_error_list_insert A k (x : A) l :
  (k <= List.length l)%nat -> nth_error (list_insert k x l) k = Some x.
Proof.
  revert l. induction k as [|k IH]; intros l H; [now destruct l|].
  destruct l as [|y l]; cbn in *; [lia|]. apply IH. lia.
Qed.

(** C4.  For a path that is empty or leaves the tree, reading returns
    [None], and replace and delete return [False] without raising and
    leave the document as it was.  Insert never fails on its index: with a
    parent path that leads to a list and a node that validates, the index
    is clamped into [0, len(parent)], the call returns [True], and the
    node sits at the clamped position of the parent list; index 999 in a
    list of two puts it at position 2. *)
Theorem path_errors d :
  (forall path,
      path = [] \/ out_of_range (doc_content (model d)) path ->
      _get_element_at_path d path = Ok None
      /\ (forall e, _replace_element_at_path d path e = Ok (false, d))
      /\ _delete_element_at_path d path = (false, d))
  /\ (forall parent_path parent index e n,
         _get_parent_at_path d parent_path = Some parent ->
         to_model e = Ok n ->
         let k := Z.to_nat (Z.max 0 (Z.min index (len parent))) in
         exists d',
           _insert_element_at_path d parent_path index e = Ok (true, d')
           /\ _get_parent_at_path d' parent_path = Some (list_insert k n parent)
           /\ nth_error (list_insert k n parent) k = Some n
           /\ (List.length parent = 2%nat -> index = 999 -> k = 2%nat)).
Proof.
  split.
  - intros path [->|H]; [repeat split; reflexivity|].
    assert (Hne : path <> []) by (destruct path; [contradiction|discriminate]).
    pose proof (read_out_of_range _ _ H) as Hr.
    pose proof (parent_out_of_range _ _ H) as Hp.
    repeat split.
    + unfold _get_element_at_path, _get_node_by_path. cbv zeta. now rewrite Hr.
    + intros e. unfold _replace_element_at_path, _get_parent_at_path.
      destruct path; [contradiction|].
      destruct (get_parent _ _); [|reflexivity]. now rewrite Hp.
    + unfold _delete_element_at_path, _get_parent_at_path.
      destruct path; [contradiction|].
      destruct (get_parent _ _); [|reflexivity]. now rewrite Hp.
  - intros parent_path parent index e n Hp Hn k.
    unfold _insert_element_at_path. rewrite Hp, Hn. cbn [bind].
    eexists. split; [reflexivity|].
    unfold len. rewrite py_insert_pos_clamped. fold (len parent). fold k.
    split; [|split].
    + unfold _get_parent_at_path, refreshed. cbn [model set_doc_content doc_content].
      now apply get_parent_modify.
    + apply nth_error_list_insert. subst k. unfold len. lia.
    + intros Hl ->. subst k. unfold len. rewrite Hl. reflexivity.
Qed.

Lemma path_errors_witness :
  let d := from_dict
             (JObj [("version", JNum 1); ("type", JStr "doc");
                    ("content",
                     JArr [JObj [("type", JStr "paragraph")];
                           JObj [("type", JStr "rule")]])]) in
  let new := JObj [("type", JStr "paragraph")] in
  out_of_range (doc_content (model d)) [0; 3]
  /\ _get_element_at_path d [0; 3] = Ok None
  /\ _replace_element_at_path d [0; 3] (EDict new) = Ok (false, d)
  /\ _delete_element_at_path d [] = (false, d)
  /\ exists d' n,
       _insert_element_at_path d [] 999 (EDict new) = Ok (true, d')
       /\ nth_error (doc_content (model d')) 2 = Some n
       /\ node_type n = "paragraph"
       /\ List.length (doc_content (model d')) = 3%nat.
Proof.
  intros d new.
  assert (H : out_of_range (doc_content (model d)) [0; 3]).
  { cbn. split; [lia|]. right. eexists _, _. split; [reflexivity|].
    split; [reflexivity|]. split; [lia|]. left. unfold len. cbn. lia. }
  destruct (path_errors d) as [Hbad Hins].
  destruct (Hbad [0; 3] (or_intror H)) as (Hr & Hrep & _).
  destruct (Hbad [] (or_introl eq_refl)) as (_ & _ & Hdel).
  split; [exact H|]. split; [exact Hr|]. split; [exact (Hrep _)|].
  split; [exact Hdel|].
  eexists _, _. repeat split; reflexivity.
Defined.

(* ================================================================= *)
(** ** The validator and the depth limit *)

Lemma quiet_sound A (m : VM A) d P : quiet m -> sound d P m.
Proof.
  intros H st Hd. destruct (H st) as (H1 & H2 & H3).
  repeat split; auto; try congruence. rewrite H3. auto.
Qed.

Lemma sound_weaken A (m : VM A) d (P Q : Prop) :
  (P -> Q) -> sound d P m -> sound d Q m.
Proof.
  intros HPQ H st Hd. destruct (H st Hd) as (H1 & H2 & H3 & H4).
  repeat split; auto. intros Hr. destruct (H3 Hr); auto.
Qed.

Lemma quiet_ret A (a : A) : quiet (vret a).
Proof. intros st. cbn. repeat split. discriminate. Qed.

Lemma quiet_lift A (r : res A) : norec r -> quiet (vlift r).
Proof. intros H st. cbn. repeat split. exact H. Qed.

Lemma quiet_bind A B (m : VM A) (k : A -> VM B) :
  quiet m -> (forall a, quiet (k a)) -> quiet (vbind m k).
Proof.
  intros Hm Hk st. unfold vbind. destruct (Hm st) as (H1 & H2 & H3).
  destruct (m st) as [[a|e] st'] eqn:E; cbn in *.
  - destruct (Hk a st') as (K1 & K2 & K3).
    split; [exact K1|]. split; congruence.
  - split; [|split; assumption].
    intros C. apply H1. injection C as ->. reflexivity.
Qed.

Lemma sound_bind A B d P (m : VM A) (k : A -> VM B) :
  sound d P m -> (forall a, sound d P (k a)) -> sound d P (vbind m k).
Proof.
  intros Hm Hk st Hd. unfold vbind. destruct (Hm st Hd) as (H1 & H2 & H3 & H4).
  destruct (m st) as [[a|e] st'] eqn:E; cbn in *.
  - destruct (Hk a st' (H2 a eq_refl)) as (K1 & K2 & K3 & K4).
    repeat split; auto. intros Hr. destruct (K3 Hr); auto.
  - split; [intros C; apply H1; injection C as ->; reflexivity|].
    split; [discriminate|]. split; assumption.
Qed.

Lemma quiet_add_error path msg severity :
  is_max_depth_error (mkVE path msg
     (if str_in severity ["error"; "warning"] then severity else "error"))
  = false ->
  quiet (_add_error path msg severity).
Proof.
  intros Hm st. unfold _add_error.
  destruct (String.eqb severity "error"); cbn [fst snd current_depth];
    repeat split; try discriminate.
  unfold reports_max_depth. cbn [errors].
  rewrite existsb_app. cbn [existsb]. rewrite Hm. now rewrite !orb_false_r.
Qed.

Lemma quiet_no_errors : quiet no_errors.
Proof. intros st. cbn. repeat split. discriminate. Qed.

Lemma norec_key_in x keys : norec (key_in x keys).
Proof. destruct x; discriminate. Qed.

Lemma norec_json_get x k : norec (json_get x k).
Proof. destruct x; discriminate. Qed.

Lemma norec_py_contains k x : norec (py_contains k x).
Proof. destruct x; discriminate. Qed.

Lemma norec_py_iter v : norec (py_iter v).
Proof. destruct v; discriminate. Qed.

Create HintDb quiet.

#[local] Hint Resolve norec_key_in norec_json_get norec_py_contains
  norec_py_iter quiet_ret quiet_no_errors : quiet.

Ltac quiet_step :=
  first
    [ apply quiet_ret
    | apply quiet_no_errors
    | apply quiet_lift; first [solve [auto with quiet] | unfold norec; discriminate]
    | apply quiet_add_error; reflexivity
    | apply quiet_bind; [|intros ?]
    | progress cbv zeta
    | match goal with
      | |- quiet (if ?b then _ else _) => destruct b
      | |- quiet (match ?x with _ => _ end) => destruct x
      end ].

Ltac quiet_auto := repeat quiet_step.

Lemma quiet_root_structure document : quiet (_validate_root_structure document).
Proof. unfold _validate_root_structure. quiet_auto. Qed.

Lemma quiet_version v : quiet (_validate_version v).
Proof. unfold _validate_version. quiet_auto. Qed.

Lemma quiet_document_type v : quiet (_validate_document_type v).
Proof. unfold _validate_document_type. quiet_auto. Qed.

Lemma quiet_node_type t path : quiet (_validate_node_type t path).
Proof. unfold _validate_node_type. quiet_auto. Qed.

Lemma quiet_attributes a path : quiet (_validate_attributes a path).
Proof.
  unfold _validate_attributes, _validate_node_specific_attrs, _add_warning.
  quiet_auto.
Qed.

Lemma quiet_mark_attributes m path : quiet (_validate_mark_attributes m path).
Proof. unfold _validate_mark_attributes. quiet_auto. Qed.

Lemma quiet_marks m path : quiet (_validate_marks m path).
Proof.
  unfold _validate_marks. destruct m as [| | | |l|]; try solve [quiet_auto].
  induction l as [|mark rest IH]; cbn [_validate_marks_loop]; [quiet_auto|].
  destruct mark; try solve [quiet_auto].
  destruct (negb _); [quiet_auto|].
  apply quiet_bind; [quiet_auto|intros known].
  destruct (negb known); [quiet_auto|].
  apply quiet_bind; [apply quiet_mark_attributes|intros ok].
  destruct (negb ok); [quiet_auto|exact IH].
Qed.

Lemma quiet_text t path : quiet (_validate_text_content t path).
Proof. unfold _validate_text_content, _add_warning. quiet_auto. Qed.

Lemma quiet_cells cells path i next :
  quiet next -> forall j, quiet (_validate_cells cells path i j next).
Proof.
  intros Hn. induction cells as [|cell rest IH]; intros j;
    cbn [_validate_cells]; [exact Hn|].
  destruct cell; try solve [quiet_auto].
  destruct (negb _); [quiet_auto|apply IH].
Qed.

Lemma quiet_rows rows path : forall i, quiet (_validate_rows rows path i).
Proof.
  induction rows as [|row rest IH]; intros i; cbn [_validate_rows];
    [quiet_auto|].
  destruct row; try solve [quiet_auto].
  destruct (negb _); [quiet_auto|].
  apply quiet_bind; [quiet_auto|intros cells]. apply quiet_cells. apply IH.
Qed.

Lemma quiet_node_specific node path : quiet (_validate_node_specific node path).
Proof.
  unfold _validate_node_specific. cbv zeta.
  destruct (py_eq _ _).
  { unfold _validate_heading_node. quiet_auto. }
  destruct (py_eq _ _).
  { unfold _validate_panel_node. quiet_auto. }
  destruct (py_eq _ _).
  { unfold _validate_table_node, _add_warning. cbv zeta.
    destruct (negb _); [quiet_auto|].
    apply quiet_bind; [quiet_auto|intros rows]. apply quiet_rows. }
  destruct (_ || _); [|quiet_auto].
  unfold _validate_extension_node. quiet_auto.
Qed.

Section SoundNodes.
Variable content_array : json -> list Z -> VM bool.
Variable d : Z.

Lemma sound_when_present k node check all_valid P :
  (forall v, dict_get k node = Some v -> sound d P (check v)) ->
  sound d P (when_present k node check all_valid).
Proof.
  intros H. unfold when_present. destruct (dict_get k node) as [v|].
  - apply sound_bind; [now apply H|]. intros ok. apply quiet_sound, quiet_ret.
  - apply quiet_sound, quiet_ret.
Qed.

Lemma sound_node_structure node path P :
  (forall c, dict_get "content" node = Some c ->
             sound d P (content_array c path)) ->
  sound d P (_validate_node_structure content_array node path).
Proof.
  intros H. unfold _validate_node_structure.
  apply sound_bind;
    [apply sound_when_present; intros; apply quiet_sound, quiet_attributes|].
  intros v1. apply sound_bind;
    [apply sound_when_present; intros; apply quiet_sound, quiet_marks|].
  intros v2. apply sound_bind;
    [apply sound_when_present; intros; apply quiet_sound, quiet_text|].
  intros v3. apply sound_bind; [apply sound_when_present; exact H|].
  intros v4. apply sound_bind; [apply quiet_sound, quiet_node_specific|].
  intros ok. apply quiet_sound, quiet_ret.
Qed.

Lemma sound_validate_node node path P :
  (forall fs c, node = JObj fs -> dict_get "content" fs = Some c ->
                sound d P (content_array c path)) ->
  sound d P (validate_node content_array node path).
Proof.
  intros H. unfold validate_node.
  destruct node as [| | | | |fs]; try solve [apply quiet_sound; quiet_auto].
  cbv zeta. destruct (negb _); [apply quiet_sound; quiet_auto|].
  apply sound_bind; [apply quiet_sound, quiet_node_type|]. intros known.
  destruct (negb known); [apply quiet_sound; quiet_auto|].
  apply sound_bind; [|intros; apply quiet_sound, quiet_no_errors].
  apply sound_node_structure. intros c Hc. now apply (H fs).
Qed.

Lemma sound_validate_nodes items path P :
  (forall fs c i, In (JObj fs) items -> dict_get "content" fs = Some c ->
                  sound d P (content_array c (path ++ [i]))) ->
  forall i all_valid,
    sound d P (validate_nodes content_array items path i all_valid).
Proof.
  induction items as [|node rest IH]; intros H i all_valid;
    cbn [validate_nodes]; [apply quiet_sound, quiet_ret|].
  apply sound_bind.
  - apply sound_validate_node. intros fs c -> Hc.
    apply (H fs c i); [now left|exact Hc].
  - intros ok. apply IH. intros fs c j Hin. apply (H fs c j). now right.
Qed.
End SoundNodes.

(** At depth [21 - r] a budget of [r + 1] nested calls is enough, and the
    depth error appears only for an array with [r] more levels below. *)
Lemma sound_content_array r : forall fuel content path,
  (S r <= fuel)%nat -> (r <= 21)%nat ->
  sound (21 - Z.of_nat r) (deep r content)
        (_validate_content_array fuel content path).
Proof.
  induction r as [|r IH]; intros fuel content path Hf Hr;
    (destruct fuel as [|fuel]; [lia|]); cbn [_validate_content_array];
    (destruct content as [| | | |items|]; try solve [apply quiet_sound; quiet_auto]).
  - intros st Hd. replace (current_depth st >? MAX_DEPTH) with true
      by (rewrite Hd; reflexivity).
    unfold vbind, _add_error, vret. cbn.
    split; [discriminate|]. split; [auto|]. split; [right; constructor|].
    intros Hs. unfold reports_max_depth in *. cbn.
    rewrite existsb_app, Hs. reflexivity.
  - intros st Hd.
    assert (Hle : (current_depth st >? MAX_DEPTH) = false).
    { rewrite Hd. unfold MAX_DEPTH. rewrite Z.gtb_ltb. apply Z.ltb_ge. lia. }
    rewrite Hle.
    set (st1 := mkVS (errors st) (warnings st) (current_depth st + 1)).
    assert (Hs : sound (21 - Z.of_nat r) (deep (S r) (JArr items))
                   (validate_nodes (_validate_content_array fuel) items path 0 true)).
    { apply sound_validate_nodes. intros fs c i Hin Hc.
      eapply sound_weaken; [|apply IH; lia].
      intros Hdeep. econstructor; eauto. }
    assert (Hd1 : current_depth st1 = 21 - Z.of_nat r)
      by (subst st1; cbn [current_depth]; rewrite Hd; lia).
    destruct (Hs st1 Hd1) as (N1 & N2 & N3 & N4).
    unfold vbind, set_depth, vret. cbv beta. fold st1.
    destruct (validate_nodes _ items path 0 true st1) as [[b|e] st2] eqn:E;
      cbn [fst snd current_depth errors warnings] in *.
    + specialize (N2 b eq_refl).
      split; [discriminate|]. split; [intros; lia|]. split; [exact N3|exact N4].
    + split; [intros C; apply N1; injection C as ->; reflexivity|].
      split; [discriminate|]. split; [exact N3|exact N4].
Qed.

Lemma vbind_ok A B (m : VM A) (k : A -> VM B) st b st' :
  vbind m k st = (Ok b, st') ->
  exists a st1, m st = (Ok a, st1) /\ k a st1 = (Ok b, st').
Proof.
  unfold vbind. destruct (m st) as [[a|e] st1]; [eauto|discriminate].
Qed.

Lemma quiet_run A (m : VM A) st r st' :
  quiet m -> m st = (r, st') ->
  current_depth st' = current_depth st
  /\ reports_max_depth st' = reports_max_depth st.
Proof. intros H E. destruct (H st) as (_ & H2 & H3). now rewrite E in *. Qed.

Lemma quiet_when_present k node check all_valid :
  (forall v, quiet (check v)) -> quiet (when_present k node check all_valid).
Proof. intros H. unfold when_present. quiet_auto. apply H. Qed.

Section CompleteNodes.
Variable content_array : json -> list Z -> VM bool.
Variable d : Z.
Hypothesis content_array_sound :
  forall c path, sound d True (content_array c path).

Lemma complete_validate_node fs t c path st b st' :
  dict_get "type" fs = Some (JStr t) -> str_in t NODE_TYPES = true ->
  dict_get "content" fs = Some c ->
  (forall st0 b0 st0', current_depth st0 = d ->
      content_array c path st0 = (Ok b0, st0') ->
      reports_max_depth st0' = true) ->
  current_depth st = d ->
  validate_node content_array (JObj fs) path st = (Ok b, st') ->
  reports_max_depth st' = true.
Proof.
  intros Ht Hk Hc Hdeep Hd. unfold validate_node. rewrite Ht. cbn [or_null].
  assert (Htr : truthy (JStr t) = true).
  { cbn. destruct (String.eqb t "") eqn:E; [|reflexivity].
    apply String.eqb_eq in E. subst t. discriminate. }
  rewrite Htr. cbn [negb].
  unfold _validate_node_type. cbn [key_in]. rewrite Hk.
  unfold vlift, vret, vbind at 1 2. cbn [negb].
  intros H. apply vbind_ok in H as (u & s5 & H & Hno).
  assert (Hr : reports_max_depth s5 = true).
  { unfold _validate_node_structure in H.
    apply vbind_ok in H as (v1 & s1 & H1 & H).
    apply vbind_ok in H as (v2 & s2 & H2 & H).
    apply vbind_ok in H as (v3 & s3 & H3 & H).
    apply vbind_ok in H as (v4 & s4 & H4 & H).
    apply vbind_ok in H as (ok & s6 & H6 & H).
    injection H as _ <-.
    apply quiet_run in H1 as [D1 _];
      [|apply quiet_when_present; intros; apply quiet_attributes].
    apply quiet_run in H2 as [D2 _];
      [|apply quiet_when_present; intros; apply quiet_marks].
    apply quiet_run in H3 as [D3 _];
      [|apply quiet_when_present; intros; apply quiet_text].
    apply quiet_run in H6 as [_ R6]; [|apply quiet_node_specific].
    rewrite R6. unfold when_present in H4. rewrite Hc in H4.
    apply vbind_ok in H4 as (ok4 & s7 & H4 & H7). injection H7 as _ <-.
    eapply Hdeep; [|exact H4]. congruence. }
  unfold no_errors in Hno. injection Hno as _ <-. exact Hr.
Qed.

Lemma complete_validate_nodes fs t c path items :
  In (JObj fs) items ->
  dict_get "type" fs = Some (JStr t) -> str_in t NODE_TYPES = true ->
  dict_get "content" fs = Some c ->
  (forall p st0 b0 st0', current_depth st0 = d ->
      content_array c p st0 = (Ok b0, st0') ->
      reports_max_depth st0' = true) ->
  forall i all_valid st b st',
    current_depth st = d ->
    validate_nodes content_array items path i all_valid st = (Ok b, st') ->
    reports_max_depth st' = true.
Proof.
  intros Hin Ht Hk Hc Hdeep.
  assert (Hmono : forall l i all_valid st b st',
    current_depth st = d -> reports_max_depth st = true ->
    validate_nodes content_array l path i all_valid st = (Ok b, st') ->
    reports_max_depth st' = true).
  { intros l i all_valid st b st' Hd Hr H.
    destruct (@sound_validate_nodes content_array d l path True
                (fun fs c i _ _ => content_array_sound c (path ++ [i]))
                i all_valid st Hd) as (_ & _ & _ & N4).
    rewrite H in N4. auto. }
  induction items as [|node rest IH]; [contradiction|].
  intros i all_valid st b st' Hd H. cbn [validate_nodes] in H.
  apply vbind_ok in H as (ok & s1 & H1 & H).
  assert (Hd1 : current_depth s1 = d).
  { destruct (@sound_validate_node content_array d node (path ++ [i]) True
                (fun fs c _ _ => content_array_sound c (path ++ [i]))
                st Hd) as (_ & N2 & _).
    rewrite H1 in N2. eapply N2. reflexivity. }
  destruct Hin as [->|Hin].
  - eapply Hmono; [exact Hd1| |exact H].
    eapply complete_validate_node;
      [exact Ht | exact Hk | exact Hc | | exact Hd | exact H1].
    intros st0 b0 st0'. apply Hdeep.
  - eapply IH; eauto.
Qed.
End CompleteNodes.

(** Along a branch of nodes of known type, a run that ends without an
    exception has reported the depth error. *)
Lemma complete_content_array r : forall fuel content path st b st',
  (S r <= fuel)%nat -> (r <= 21)%nat ->
  current_depth st = 21 - Z.of_nat r ->
  deep_known r content ->
  _validate_content_array fuel content path st = (Ok b, st') ->
  reports_max_depth st' = true.
Proof.
  induction r as [|r IH]; intros fuel content path st b st' Hf Hr Hd Hk H;
    (destruct fuel as [|fuel]; [lia|]); cbn [_validate_content_array] in H;
    inversion Hk; subst.
  - replace (current_depth st >? MAX_DEPTH) with true in H
      by (rewrite Hd; reflexivity).
    unfold vbind, _add_error, vret in H. cbn in H. injection H as _ <-.
    unfold reports_max_depth. cbn. rewrite existsb_app. cbn.
    now rewrite orb_true_r.
  - assert (Hle : (current_depth st >? MAX_DEPTH) = false).
    { rewrite Hd. unfold MAX_DEPTH. rewrite Z.gtb_ltb. apply Z.ltb_ge. lia. }
    rewrite Hle in H. unfold vbind, set_depth, vret in H. cbv beta in H.
    set (st1 := mkVS (errors st) (warnings st) (current_depth st + 1)) in H.
    assert (Hd1 : current_depth st1 = 21 - Z.of_nat r)
      by (subst st1; cbn [current_depth]; rewrite Hd; lia).
    destruct (validate_nodes _ items path 0 true st1) as [[b1|e] st2] eqn:E;
      [|discriminate].
    injection H as _ <-. unfold reports_max_depth. cbn [errors].
    change (reports_max_depth st2 = true).
    eapply (@complete_validate_nodes (_validate_content_array fuel)
              (21 - Z.of_nat r)); eauto.
    + intros c0 p. eapply sound_weaken; [|apply sound_content_array; lia]. auto.
    + intros p st0 b0 st0' Hd0 H0.
      eapply IH; [| |exact Hd0|eassumption|exact H0]; lia.
Qed.

Lemma sound_document_body fuel document :
  (enough_fuel <= fuel)%nat ->
  sound 0 (deep 21 (doc_body document)) (validate_document_body fuel document).
Proof.
  intros Hf. unfold validate_document_body.
  apply sound_bind; [apply quiet_sound, quiet_root_structure|]. intros ok1.
  destruct (negb ok1); [apply quiet_sound, quiet_no_errors|]. cbv zeta.
  apply sound_bind; [apply quiet_sound, quiet_version|]. intros ok2.
  destruct (negb ok2); [apply quiet_sound, quiet_no_errors|].
  apply sound_bind; [apply quiet_sound, quiet_document_type|]. intros ok3.
  destruct (negb ok3); [apply quiet_sound, quiet_no_errors|].
  apply sound_bind; [|intros; apply quiet_sound, quiet_no_errors].
  apply (@sound_content_array 21); [exact Hf|lia].
Qed.

Lemma add_error_reports path text st :
  String.eqb text msg_max_depth_exceeded = false ->
  reports_max_depth (snd (_add_error path (VMsg text) "error" st))
  = reports_max_depth st.
Proof.
  intros H. unfold _add_error.
  change (String.eqb "error" "error") with true. cbv iota. cbn [snd].
  unfold reports_max_depth. cbn [errors]. rewrite existsb_app.
  cbn [existsb]. unfold is_max_depth_error at 2. cbn [ve_message].
  rewrite H. now rewrite !orb_false_r.
Qed.

Lemma add_exception_reports path text e st :
  reports_max_depth (snd (_add_error path (VExn text e) "error" st))
  = reports_max_depth st.
Proof.
  unfold _add_error.
  change (String.eqb "error" "error") with true. cbv iota. cbn [snd].
  unfold reports_max_depth. cbn [errors]. rewrite existsb_app.
  cbn [existsb]. unfold is_max_depth_error at 2. cbn [ve_message].
  now rewrite !orb_false_r.
Qed.

(** C8, as the code has it.  Whatever the document, a budget of
    [MAX_DEPTH + 2] nested calls is never used up, so the walk stops at
    the limit.  The depth error is reported only when a content array lies
    more than 20 nodes deep.  It is reported, and the document is invalid,
    when such an array lies on a branch of nodes of known type, the root
    checks pass and no check raises on the way. *)
Theorem depth_limit document fuel :
  (enough_fuel <= fuel)%nat ->
  norec (fst (validate_document_body fuel document _reset_validation_state))
  /\ (reports_max_depth (snd (validate_document fuel document)) = true ->
      deep 21 (doc_body document))
  /\ (forall b st,
        validate_document_body fuel document _reset_validation_state = (Ok b, st) ->
        _validate_root_structure document _reset_validation_state
          = (Ok true, _reset_validation_state) ->
        py_eq (or_null (dict_get "version" (doc_fields document)))
              (JNum ADF_VERSION) = true ->
        py_eq (or_null (dict_get "type" (doc_fields document)))
              (JStr ADF_DOCUMENT_TYPE) = true ->
        deep_known 21 (doc_body document) ->
        validate_document fuel document = (false, st)
        /\ reports_max_depth st = true).
Proof.
  intros Hf.
  destruct (sound_document_body document Hf _reset_validation_state eq_refl)
    as (N1 & _ & N3 & _).
  split; [exact N1|]. split.
  - unfold validate_document.
    destruct (validate_document_body fuel document _reset_validation_state)
      as [[b|e] st] eqn:E; cbn [fst snd] in *.
    + intros H. destruct (N3 H) as [C|C]; [discriminate|exact C].
    + rewrite add_exception_reports.
      intros H. destruct (N3 H) as [C|C]; [discriminate|exact C].
  - intros b st E Hroot Hv Ht Hk.
    assert (Hr : reports_max_depth st = true /\ b = false).
    { unfold validate_document_body in E.
      apply vbind_ok in E as (ok1 & s1 & E1 & E).
      rewrite Hroot in E1. injection E1 as <- <-. cbn [negb] in E. cbv zeta in E.
      unfold _validate_version in E. rewrite Hv in E. cbn [negb] in E.
      unfold _validate_document_type in E. rewrite Ht in E. cbn [negb] in E.
      unfold vbind at 1 2, vret at 1 2 in E. cbn [negb] in E.
      apply vbind_ok in E as (ok4 & s4 & E4 & E).
      assert (R : reports_max_depth s4 = true).
      { apply (@complete_content_array 21 fuel (doc_body document) []
                 _reset_validation_state ok4 s4);
          [exact Hf|lia|reflexivity|exact Hk|exact E4]. }
      unfold no_errors in E. injection E as <- <-. split; [exact R|].
      unfold reports_max_depth in R. destruct (errors s4); [discriminate|].
      reflexivity. }
    destruct Hr as [Hr ->]. unfold validate_document. rewrite E. auto.
Qed.

Ltac deep_chain c :=
  repeat (eapply c; [left; reflexivity | try reflexivity ..]).

Lemma depth_limit_witness :
  let document := doc_of [nested "paragraph" 24] in
  (enough_fuel <= enough_fuel)%nat
  /\ deep_known 21 (doc_body document)
  /\ fst (validate_document enough_fuel document) = false
  /\ reports_max_depth (snd (validate_document enough_fuel document)) = true.
Proof.
  intros document.
  assert (Hk : deep_known 21 (doc_body document)).
  { cbn. deep_chain deep_known_below. apply deep_known_here. }
  destruct (@depth_limit document enough_fuel (le_n _)) as (_ & _ & H).
  destruct (validate_document_body enough_fuel document _reset_validation_state)
    as [[b|e] st] eqn:E; [|vm_compute in E; discriminate].
  destruct (H b st eq_refl eq_refl eq_refl eq_refl Hk) as [H1 H2].
  rewrite H1. repeat split; [apply le_n|exact Hk|exact H2].
Defined.

(** C8 as stated fails: 25 levels of nesting under a node of unknown
    type are never walked, so no depth error is reported for them. *)
Lemma depth_error_not_reported :
  let document :=
    doc_of [JObj [("type", JStr "bogus");
                  ("content", JArr [nested "paragraph" 24])]] in
  deep 21 (doc_body document)
  /\ reports_max_depth (snd (validate_document enough_fuel document)) = false
  /\ fst (validate_document enough_fuel document) = false.
Proof.
  intros document. split.
  - cbn. deep_chain deep_below. apply deep_here.
  - vm_compute. split; reflexivity.
Qed.

(* ================================================================= *)
(** ** The finder *)

Lemma choose_priority criteria : choose criteria = chosen_by_priority criteria.
Proof.
  unfold choose, chosen_by_priority, priority. cbn [find supplied key_of].
  repeat match goal with
  | |- context [get_truthy ?k criteria] => destruct (get_truthy k criteria)
  end; try reflexivity.
  destruct (or_null _); reflexivity.
Qed.

Lemma run_strategy_key s criteria criteria' d :
  s <> Compound ->
  dict_get (key_of s) criteria' = dict_get (key_of s) criteria ->
  run_strategy s criteria' d = run_strategy s criteria d.
Proof.
  intros Hs Hk. destruct s; cbn [run_strategy key_of] in *;
    try now rewrite Hk. contradiction.
Qed.

(** C2, as the code has it.  The strategy is chosen in the order
    JSONPath, text, node_type, attributes, marks, index among the keys
    whose value is truthy ([index]: not [None]), the compound walk being
    the fallback; and the answer of a call depends on the criteria only
    through the value of the chosen key: two criteria that lead to the
    same strategy with the same value under its key get the same answer,
    whatever else they hold. *)
Theorem dispatch_priority key d criteria limit include_context :
  choose criteria = chosen_by_priority criteria
  /\ forall criteria',
       criteria <> [] -> criteria' <> [] ->
       choose criteria <> Compound ->
       choose criteria' = choose criteria ->
       dict_get (key_of (choose criteria)) criteria'
       = dict_get (key_of (choose criteria)) criteria ->
       find_element_in_adf key d criteria' limit include_context
       = find_element_in_adf key d criteria limit include_context.
Proof.
  split; [apply choose_priority|].
  intros criteria' Hne Hne' Hs Hc Hk.
  unfold find_element_in_adf, find_elements. cbn [cache_get].
  destruct criteria as [|e l]; [contradiction|].
  destruct criteria' as [|e' l']; [contradiction|].
  rewrite Hc. rewrite (@run_strategy_key _ (e :: l) (e' :: l') d Hs Hk).
  destruct (_ <- run_strategy _ _ _ ;; _); reflexivity.
Qed.

Lemma dispatch_priority_witness :
  let both := [("json_path", JStr "$.[0]"); ("text", JStr "ignored")] in
  let alone := [("json_path", JStr "$.[0]")] in
  choose both = ByJsonPath
  /\ find_element_in_adf no_hash hello_document both None true
     = find_element_in_adf no_hash hello_document alone None true
  /\ exists r, find_element_in_adf no_hash hello_document both None true = Ok [r]
               /\ ep_path (sr_path r) = [0].
Proof.
  intros both alone.
  destruct (dispatch_priority no_hash hello_document alone None true) as [_ H].
  split; [reflexivity|]. split.
  - apply H; try discriminate; reflexivity.
  - eexists. split; reflexivity.
Defined.

(** C2 as stated fails: a criteria that contains the [json_path] key with
    an empty value and a text is answered by the text strategy. *)
Lemma priority_by_presence_fails :
  let criteria := [("json_path", JStr ""); ("text", JStr "Hello")] in
  chosen_by_presence criteria = ByJsonPath
  /\ choose criteria = ByText
  /\ _search_by_json_path (JStr "") hello_document = []
  /\ exists r, find_element_in_adf no_hash hello_document criteria None true
               = Ok [r]
               /\ ep_path (sr_path r) = [0; 0]
               /\ ep_text_content (sr_path r) = Some "Hello".
Proof.
  intros criteria. repeat split. eexists. repeat split.
Qed.

Lemma traverse_Forall R (Q : R -> Prop) (visit : list Z -> Z -> Node -> list R) :
  (forall p i n, Forall Q (visit p i n)) ->
  forall l path j, Forall Q (traverse_from visit path j l).
Proof.
  intros Hv.
  assert (Hn : forall n path i, Forall Q (traverse_node visit path i n)).
  { induction n as [t a c x m sa sc sx sm e IH] using Node_rect'.
    intros path i. rewrite traverse_node_eq. apply Forall_app. split; [apply Hv|].
    cbn [node_content]. destruct c as [l|]; [|constructor].
    specialize (IH l eq_refl). unfold traverse. generalize 0 as j.
    induction IH as [|y r Hy _ IHr]; intros j; cbn [traverse_from];
      [constructor|].
    apply Forall_app. split; [apply Hy|apply IHr]. }
  induction l as [|y r IH]; intros path j; cbn [traverse_from]; [constructor|].
  apply Forall_app. split; [apply Hn|apply IH].
Qed.

Lemma collect_nothing A (l : list (res (list A))) :
  Forall (fun r => r = Ok []) l -> collect l = Ok [].
Proof.
  induction 1 as [|r l -> _ IH]; [reflexivity|]. cbn. now rewrite IH.
Qed.

Lemma search_with_predicate_never nodes path :
  _search_with_predicate nodes path (fun _ => Ok false) = Ok [].
Proof.
  unfold _search_with_predicate, traverse. apply collect_nothing.
  apply traverse_Forall. intros p i n. repeat constructor.
Qed.

(** C9 at its failing input.  A text criterion that is not a string makes
    the text search raise [AttributeError] on [text_query.lower()], for
    every document; the attribute search, which checks the type of its
    criterion first, answers the same kind of input with no match. *)
Theorem malformed_text_raises key d limit include_context :
  find_element_in_adf key d [("text", JNum 123)] limit include_context
  = Raise AttributeError
  /\ find_element_in_adf key d [("attributes", JStr "not_a_dict")] limit
       include_context
     = Ok [].
Proof.
  split; [reflexivity|].
  unfold find_element_in_adf, find_elements. cbn [cache_get fst].
  change (choose [("attributes", JStr "not_a_dict")]) with ByAttributes.
  cbn [run_strategy dict_get String.eqb Ascii.eqb Bool.eqb or_null].
  unfold _search_by_attributes.
  change (fun n : Node => Ok (attributes_match (JStr "not_a_dict") n))
    with (fun _ : Node => @Ok bool false).
  rewrite search_with_predicate_never. cbn [bind].
  destruct include_context; cbn; destruct limit as [n|]; try reflexivity;
    unfold apply_limit; destruct (negb _ && _); try reflexivity;
    unfold py_prefix; destruct (0 <=? n); now rewrite firstn_nil.
Qed.

(* ================================================================= *)
(** ** The writer: replace *)

Lemma dict_get_merge k (b : dict) : forall a,
  NoDup (map fst b) ->
  dict_get k (dict_merge a b) =
  match dict_get k b with Some v => Some v | None => dict_get k a end.
Proof.
  unfold dict_merge. induction b as [|[k0 v0] b IH]; intros a Hn; [reflexivity|].
  cbn [fold_left fst snd dict_get]. inversion Hn as [|? ? Hnot Hn']; subst.
  rewrite IH by assumption. rewrite dict_get_set.
  destruct (String.eqb k k0) eqn:E; [|reflexivity].
  apply String.eqb_eq in E. subst k0.
  destruct (dict_get k b) as [v|] eqn:Eb; [|reflexivity].
  exfalso. apply Hnot. clear -Eb. induction b as [|[k1 v1] b IH]; [discriminate|].
  cbn in *. destruct (String.eqb k k1) eqn:E.
  - apply String.eqb_eq in E. now left.
  - right. auto.
Qed.

Lemma mark_type_key_ok m k : mark_type_key m = Ok k -> k = mark_key m.
Proof.
  unfold mark_type_key, mark_key. destruct m; cbn; try discriminate.
  destruct (or_null _); cbn; intros H; try discriminate; now injection H.
Qed.

Lemma mark_type_keys_ok ms ks :
  mark_type_keys ms = Ok ks ->
  ks = map mark_key ms /\ Forall (fun m => mark_type_key m = Ok (mark_key m)) ms.
Proof.
  revert ks. induction ms as [|m ms IH]; cbn; intros ks H.
  - injection H as <-. split; [reflexivity|constructor].
  - destruct (mark_type_key m) as [k|] eqn:E; [|discriminate]. cbn in H.
    destruct (mark_type_keys ms) as [ks'|]; [|discriminate]. cbn in H.
    injection H as <-. destruct (IH _ eq_refl) as [-> HF].
    pose proof (mark_type_key_ok _ E) as ->. split; [reflexivity|].
    constructor; assumption.
Qed.

Lemma append_missing_ok originals existing : forall l,
  Forall (fun m => mark_type_key m = Ok (mark_key m)) originals ->
  append_missing originals existing (JArr l)
  = Ok (JArr (l ++ filter (missing_from existing) originals)).
Proof.
  induction originals as [|m ms IH]; intros l HF; cbn [append_missing filter].
  - now rewrite app_nil_r.
  - inversion HF as [|? ? Hm HF']; subst. rewrite Hm. cbn [bind].
    unfold missing_from at 1.
    destruct (negb (existsb (py_eq (mark_key m)) existing)).
    + cbn [marks_append bind]. rewrite IH by assumption.
      now rewrite <- app_assoc.
    + now apply IH.
Qed.

Lemma py_eq_key_sym a b :
  mark_type_key a = Ok (mark_key a) -> mark_type_key b = Ok (mark_key b) ->
  py_eq (mark_key a) (mark_key b) = py_eq (mark_key b) (mark_key a).
Proof.
  unfold mark_type_key. destruct a, b; cbn; try discriminate.
  destruct (or_null (dict_get "type" fields)) eqn:Ea,
           (or_null (dict_get "type" fields0)) eqn:Eb;
    cbn; try discriminate; intros _ _; try reflexivity.
  - now destruct b, b0.
  - apply Z.eqb_sym.
  - apply String.eqb_sym.
Qed.

Lemma distinct_app (a b : list json) :
  distinct a = true -> distinct b = true ->
  (forall x, In x a -> existsb (py_eq x) b = false) ->
  distinct (a ++ b) = true.
Proof.
  induction a as [|x a IH]; intros Da Db Hc; [exact Db|].
  cbn [app distinct] in *. apply andb_prop in Da as [D1 D2].
  rewrite existsb_app. apply negb_true_iff in D1. rewrite D1.
  rewrite (Hc x (or_introl eq_refl)). cbn [orb negb andb].
  apply IH; auto. intros y Hy. apply Hc. now right.
Qed.

Lemma distinct_app_filter (news olds : list json) :
  Forall (fun m => mark_type_key m = Ok (mark_key m)) news ->
  Forall (fun m => mark_type_key m = Ok (mark_key m)) olds ->
  distinct (map mark_key news) = true ->
  distinct (map mark_key olds) = true ->
  distinct (map mark_key
              (news ++ filter (missing_from (map mark_key news)) olds)) = true.
Proof.
  intros Hn Ho Dn Do.
  set (ex := map mark_key news). rewrite map_app. fold ex.
  apply distinct_app; [exact Dn| |].
  - clear -Do. induction olds as [|m ms IH]; [reflexivity|].
    cbn [map distinct] in Do. apply andb_prop in Do as [D1 D2].
    cbn [filter]. destruct (missing_from ex m); [|auto].
    cbn [map distinct]. rewrite IH by assumption. rewrite andb_true_r.
    apply negb_true_iff. apply negb_true_iff in D1.
    destruct (existsb _ (map mark_key (filter _ ms))) eqn:E; [|reflexivity].
    apply existsb_exists in E as (x & Hx & Hp).
    apply in_map_iff in Hx as (y & <- & Hy). apply filter_In in Hy as [Hy _].
    rewrite <- D1. symmetry. apply existsb_exists.
    exists (mark_key y). split; [now apply in_map|exact Hp].
  - intros k Hk. apply in_map_iff in Hk as (x & <- & Hx).
    destruct (existsb _ _) eqn:E; [|reflexivity].
    apply existsb_exists in E as (k & Hk & Hp).
    apply in_map_iff in Hk as (y & <- & Hy). apply filter_In in Hy as [Hy Hm].
    unfold missing_from in Hm. apply negb_true_iff in Hm.
    rewrite <- Hm. symmetry. apply existsb_exists.
    exists (mark_key x). split; [now apply in_map|].
    rewrite Forall_forall in Hn, Ho.
    now rewrite (@py_eq_key_sym y x (Ho y Hy) (Hn x Hx)).
Qed.

Lemma mark_type_keys_all ms :
  Forall (fun m => mark_type_key m = Ok (mark_key m)) ms ->
  mark_type_keys ms = Ok (map mark_key ms).
Proof.
  induction 1 as [|m ms Hm _ IH]; [reflexivity|].
  cbn [mark_type_keys map]. now rewrite Hm, IH.
Qed.

Lemma attrs_step_ok preserve (o n oa na : dict) :
  attrs_of o = Some oa -> attrs_of n = Some na -> NoDup (map fst na) ->
  exists n1 ra,
    preserve_attrs_step preserve (JObj o) (JObj n) = Ok (JObj n1)
    /\ attrs_of n1 = Some ra
    /\ (preserve = true ->
        forall k, dict_get k ra =
                  match dict_get k na with
                  | Some v => Some v
                  | None => dict_get k oa
                  end)
    /\ dict_get "marks" n1 = dict_get "marks" n
    /\ dict_get "type" n1 = dict_get "type" n.
Proof.
  intros Ho Hn Hd. unfold preserve_attrs_step.
  assert (Hkeep : exists n1 ra,
            Ok (JObj n) = Ok (JObj n1) /\ attrs_of n1 = Some ra
            /\ (oa = [] \/ preserve = false ->
                preserve = true ->
                forall k, dict_get k ra =
                          match dict_get k na with
                          | Some v => Some v
                          | None => dict_get k oa
                          end)
            /\ dict_get "marks" n1 = dict_get "marks" n
            /\ dict_get "type" n1 = dict_get "type" n).
  { exists n, na. repeat split; auto. intros [-> | ->] Hp k; [|discriminate].
    now destruct (dict_get k na). }
  destruct Hkeep as (n0 & ra0 & K1 & K2 & K3 & K4 & K5).
  unfold attrs_of in Ho.
  destruct (dict_get "attrs" o) as [[| | | | |a]|] eqn:Eo; try discriminate;
    injection Ho as <-.
  - destruct preserve; cbn [andb];
      [|exists n0, ra0; repeat split; auto; intros; discriminate].
    destruct a as [|kv a'] eqn:Ea; cbn [truthy];
      [exists n0, ra0; repeat split; auto|]. rewrite <- Ea.
    unfold attrs_of in Hn.
    destruct (dict_get "attrs" n) as [[| | | | |b]|] eqn:En; try discriminate;
      injection Hn as <-; cbn [merge_attrs bind];
      eexists _, _; (split; [reflexivity|]);
      unfold attrs_of; rewrite !dict_get_set;
      cbn [String.eqb Ascii.eqb Bool.eqb];
      (split; [reflexivity|]); (split; [|split; reflexivity]);
      intros _ k; now apply dict_get_merge.
  - cbn [truthy]. rewrite andb_false_r. exists n0, ra0. repeat split; auto.
Qed.

(** X26.  With a new content [n] and an original
    [o] whose [attrs] are dictionaries and whose [marks] are lists of
    marks with hashable types, the element handed to the document has,
    under [preserve_attributes], the original attrs merged under the new
    ones, the new value winning on every common key; and, under
    [preserve_marks] for a new text node, the new marks followed by the
    original marks whose type is not among the new mark types.  No mark
    type occurs twice in the result when none does in the new marks nor in
    the original marks. *)
Theorem replace_merges op (o n oa na : dict) (om nm : list json) :
  op_new_content op = JObj n ->
  attrs_of o = Some oa -> attrs_of n = Some na -> NoDup (map fst na) ->
  marks_of o = Some om -> marks_of n = Some nm ->
  Forall (fun m => mark_type_key m = Ok (mark_key m)) om ->
  Forall (fun m => mark_type_key m = Ok (mark_key m)) nm ->
  exists r ra,
    replacement op (JObj o) = Ok (JObj r)
    /\ (forall d er, sr_node er = JObj o ->
          _apply_replace_operation d er op
          = count_of (_replace_element_at_path d (ep_path (sr_path er))
                        (EDict (JObj r))) d)
    /\ attrs_of r = Some ra
    /\ (preserve_attributes op = true ->
        forall k, dict_get k ra =
                  match dict_get k na with
                  | Some v => Some v
                  | None => dict_get k oa
                  end)
    /\ (preserve_marks op = true -> dict_get "type" n = Some (JStr "text") ->
        let merged := nm ++ filter (missing_from (map mark_key nm)) om in
        marks_of r = Some merged
        /\ Forall (fun m => In m om -> In m merged
                            \/ existsb (py_eq (mark_key m)) (map mark_key nm) = true) om
        /\ (distinct (map mark_key nm) = true ->
            distinct (map mark_key om) = true ->
            distinct (map mark_key merged) = true)).
Proof.
  intros Hc Ho Hn Hd Hom Hnm Fo Fn.
  destruct (attrs_step_ok (preserve_attributes op) o n Ho Hn Hd)
    as (n1 & ra & S1 & S2 & S3 & S4 & S5).
  assert (Hm1 : marks_of n1 = Some nm) by (unfold marks_of in *; now rewrite S4).
  assert (Hstep : exists r,
    preserve_marks_step (preserve_marks op) (JObj o) (JObj n1) = Ok (JObj r)
    /\ attrs_of r = Some ra
    /\ (preserve_marks op = true -> dict_get "type" n = Some (JStr "text") ->
        marks_of r = Some (nm ++ filter (missing_from (map mark_key nm)) om))).
  { unfold preserve_marks_step.
    assert (Hkeep : om = [] \/ preserve_marks op = false
                    \/ py_eq (or_null (dict_get "type" n1)) (JStr "text") = false ->
              exists r, Ok (JObj n1) = Ok (JObj r) /\ attrs_of r = Some ra
                /\ (preserve_marks op = true ->
                    dict_get "type" n = Some (JStr "text") ->
                    marks_of r
                    = Some (nm ++ filter (missing_from (map mark_key nm)) om))).
    { intros Hcase. exists n1. repeat split; auto. intros Hp Ht.
      destruct Hcase as [-> | [Hf | Hf]].
      - cbn [filter]. now rewrite app_nil_r.
      - congruence.
      - rewrite S5, Ht in Hf. discriminate. }
    destruct (preserve_marks op) eqn:Ep; cbn [andb]; [|apply Hkeep; auto].
    unfold marks_of in Hom.
    destruct (dict_get "marks" o) as [[| | | |l|]|] eqn:Eo; try discriminate;
      injection Hom as <-; [|cbn [truthy andb]; apply Hkeep; auto].
    destruct l as [|m0 l'] eqn:El; [cbn [truthy andb]; apply Hkeep; auto|].
    rewrite <- El in *. cbn [truthy andb].
    replace (match l with [] => false | _ :: _ => true end) with true
      by (now rewrite El).
    cbn [andb].
    destruct (py_eq (or_null (dict_get "type" n1)) (JStr "text")) eqn:Et;
      [|apply Hkeep; auto].
    assert (Hmk : match dict_get "marks" n1 with
                  | Some m => m
                  | None => JArr []
                  end = JArr nm).
    { unfold marks_of in Hm1.
      destruct (dict_get "marks" n1) as [[| | | |x|]|]; try discriminate;
        now injection Hm1 as ->. }
    rewrite Hmk. cbn [py_iter bind].
    rewrite (mark_type_keys_all Fn). cbn [bind].
    rewrite (append_missing_ok (map mark_key nm) nm Fo). cbn [bind].
    eexists. split; [reflexivity|]. split.
    - unfold attrs_of in *. rewrite dict_get_set. exact S2.
    - intros _ _. unfold marks_of. rewrite dict_get_set. reflexivity. }
  destruct Hstep as (r & R1 & R2 & R3).
  exists r, ra.
  assert (Hrep : replacement op (JObj o) = Ok (JObj r)).
  { unfold replacement. rewrite Hc, S1. exact R1. }
  split; [exact Hrep|]. split.
  { intros d er Her. unfold _apply_replace_operation. rewrite Her, Hrep.
    reflexivity. }
  split; [exact R2|]. split; [exact S3|].
  intros Hp Ht merged. split; [now apply R3|]. split.
  - apply Forall_forall. intros m Hm _.
    destruct (existsb (py_eq (mark_key m)) (map mark_key nm)) eqn:E; [now right|].
    left. subst merged. apply in_or_app. right. apply filter_In.
    split; [exact Hm|]. unfold missing_from. now rewrite E.
  - intros Dn Do. subst merged. now apply distinct_app_filter.
Qed.

Lemma replace_merges_witness :
  let o := text_node "old" [strong] in
  let n := text_node "new" [] in
  attrs_of o = Some [] /\ attrs_of n = Some [] /\ NoDup (map fst (@nil (string * json)))
  /\ marks_of o = Some [strong] /\ marks_of n = Some []
  /\ exists r,
       replacement (replace_with (JObj n)) (JObj o) = Ok (JObj r)
       /\ marks_of r = Some [strong]
       /\ distinct (map mark_key [strong]) = true.
Proof.
  intros o n.
  assert (Fo : Forall (fun m => mark_type_key m = Ok (mark_key m)) [strong])
    by (repeat constructor).
  destruct (@replace_merges (replace_with (JObj n)) o n [] [] [strong] []
              eq_refl eq_refl eq_refl (NoDup_nil _) eq_refl eq_refl Fo
              (Forall_nil _))
    as (r & ra & H1 & _ & _ & _ & H5).
  destruct (H5 eq_refl eq_refl) as (M1 & _ & M3).
  repeat split; try apply NoDup_nil.
  exists r. split; [exact H1|]. split; [exact M1|]. exact (M3 eq_refl eq_refl).
Defined.

(** C1 at its failing input.  An original text node that carries the
    same mark type twice keeps both marks under [preserve_marks]: the set
    of the mark types already present is computed once, from the new
    marks, before the loop over the original marks, and the loop does not
    extend it, so the merge does not avoid the duplicate.  This holds for
    the element handed to the document, whatever the mark type and the
    texts are, and for the document that [_apply_operation] leaves when
    the target is found in a parsed page: its text node then carries the
    type strong twice. *)
Theorem replace_repeats_mark_type :
  (forall t old new,
      let m := JObj [("type", JStr t)] in
      let o := text_node old [m; m] in
      let n := text_node new [] in
      exists r,
        replacement (replace_with (JObj n)) (JObj o) = Ok (JObj r)
        /\ marks_of r = Some [m; m]
        /\ distinct (map mark_key [m; m]) = false)
  /\ (forall key,
        let d :=
          from_dict
            (doc_of [JObj [("type", JStr "paragraph");
                           ("content",
                            JArr [JObj (text_node "old" [strong; strong])])]])
        in
        exists d' n',
          _apply_operation key d (replace_with (JObj (text_node "new" [])))
          = (Ok true, d')
          /\ node_at (doc_content (model d')) [0; 0]%nat = Some n'
          /\ node_text n' = Some "new"
          /\ option_map (map mark_type) (node_marks n')
             = Some ["strong"; "strong"]).
Proof.
  split.
  - intros t old new m o n. eexists. split; [reflexivity|].
    split; [reflexivity|].
    subst m. cbn [map mark_key].
    change (dict_get "type" [("type", JStr t)]) with (Some (JStr t)).
    cbn [or_null distinct existsb py_eq].
    now rewrite String.eqb_refl.
  - intros key d. eexists _, _. split; [reflexivity|].
    split; [reflexivity|]. split; reflexivity.
Qed.

(* ================================================================= *)
(** ** The writer: insert before and after *)

(** C6 at its failing input.  A target that is a top-level child of the
    document, path [[i]], is refused by both insert operations: they
    return 0 and leave the document as it is, for every document, node
    and new content.  The document's own insert, called with the parent
    path [[]] that the operations would compute, accepts it. *)
Theorem insert_rejects_top_level :
  (forall d i node t text parent index op,
      let er := mkSR node (mkEP [i] t text) parent index in
      _apply_insert_before_operation d er op = (Ok 0, d)
      /\ _apply_insert_after_operation d er op = (Ok 0, d))
  /\ exists d',
       _insert_element_at_path hello_document [] 0 (EDict new_paragraph)
       = Ok (true, d')
       /\ option_map node_text
            (match doc_content (model d') with
             | p :: _ => match node_content p with
                         | Some (t :: _) => Some t
                         | _ => None
                         end
             | [] => None
             end) = Some (Some "New")
       /\ List.length (doc_content (model d')) = 2%nat.
Proof.
  split.
  - intros. split; reflexivity.
  - eexists. split; [reflexivity|]. split; reflexivity.
Qed.

(* ================================================================= *)
(** ** The writer: update_text *)

Lemma py_nth_nat A (l : list A) i : py_nth l (Z.of_nat i) = nth_error l i.
Proof.
  unfold py_nth. destruct (Nat.ltb i (List.length l)) eqn:E.
  - apply Nat.ltb_lt in E. rewrite py_pos_in by lia. now rewrite Nat2Z.id.
  - apply Nat.ltb_ge in E. rewrite py_pos_past by lia.
    symmetry. now apply nth_error_None.
Qed.

Lemma py_pos_nat n i :
  (i < n)%nat -> py_pos n (Z.of_nat i) = Some i.
Proof. intros H. rewrite py_pos_in by lia. now rewrite Nat2Z.id. Qed.

Lemma get_body_cons cur a b r :
  get_body cur (a :: b :: r) =
  match cur with
  | None => Raise TypeError
  | Some l =>
      match py_nth l a with
      | None => Raise IndexError
      | Some n => get_body (node_content n) (b :: r)
      end
  end.
Proof.
  unfold get_body. rewrite removelast_cons, last_cons. cbn [descend].
  destruct cur as [l|]; [|reflexivity].
  destruct (py_nth l a); reflexivity.
Qed.

Lemma get_node_by_path_body d path :
  _get_node_by_path d path =
  match get_body (Some (doc_content (model d))) path with
  | Raise IndexError | Raise AttributeError => Ok None
  | r => r
  end.
Proof.
  unfold _get_node_by_path, get_body. cbv zeta.
  destruct (_ <- descend _ _ ;; _) as [o|[]]; reflexivity.
Qed.

Lemma get_body_node_at p : forall c n,
  get_body (Some c) (map Z.of_nat p) = Ok (Some n) <-> node_at c p = Some n.
Proof.
  induction p as [|i rest IH]; intros c n; [cbn; split; discriminate|].
  destruct rest as [|j rest].
  - cbn [map node_at]. unfold get_body. cbn [removelast descend bind last].
    rewrite py_nth_nat. destruct (nth_error c i); split; congruence.
  - cbn [map] in *. rewrite get_body_cons, py_nth_nat. cbn [node_at].
    destruct (nth_error c i) as [e|]; [|split; discriminate].
    destruct (node_content e) as [cc|]; [apply IH|].
    split; [|discriminate].
    destruct rest; cbn [map]; [cbn|rewrite get_body_cons]; discriminate.
Qed.

Lemma get_element_node_at d p n :
  _get_element_at_path d (map Z.of_nat p) = Ok (Some n)
  <-> node_at (doc_content (model d)) p = Some n.
Proof.
  unfold _get_element_at_path. rewrite get_node_by_path_body.
  rewrite <- get_body_node_at.
  destruct (get_body _ _) as [o|[]]; split; congruence.
Qed.

Lemma list_alter_ext_at A (g h : A -> A) i l e :
  nth_error l i = Some e -> g e = h e -> list_alter g i l = list_alter h i l.
Proof.
  revert i. induction l as [|x l IH]; intros i Hn Hg; [reflexivity|].
  destruct i; cbn in *; [injection Hn as ->; now rewrite Hg|].
  f_equal. eauto.
Qed.

(** The in-place change of [mutate_node] is the change at that position. *)
Lemma modify_parent_update_at f k p : forall c n,
  node_at c p = Some n -> last (map Z.of_nat p) 0 = k ->
  modify_parent
    (fun parent =>
       match py_pos (List.length parent) k with
       | Some j => list_alter f j parent
       | None => parent
       end) c (removelast (map Z.of_nat p))
  = update_at f c p.
Proof.
  induction p as [|i rest IH]; intros c n Hn Hk; [discriminate|].
  cbn [node_at] in Hn. destruct (nth_error c i) as [e|] eqn:Ee; [|discriminate].
  assert (Hi : (i < List.length c)%nat) by (apply nth_error_Some; congruence).
  destruct rest as [|j rest].
  - cbn in Hk. subst k. cbn [map removelast modify_parent update_at].
    now rewrite py_pos_nat.
  - cbn [map] in *. rewrite removelast_cons. rewrite last_cons in Hk.
    cbn [modify_parent update_at]. rewrite py_pos_nat by assumption.
    destruct (node_content e) as [cc|] eqn:Ec; [|discriminate].
    apply list_alter_ext_at with (e := e); [exact Ee|].
    rewrite Ec. cbn [option_map]. f_equal. f_equal. eapply IH; eauto.
Qed.

Lemma nth_error_list_alter_eq A (g : A -> A) i l :
  nth_error (list_alter g i l) i = option_map g (nth_error l i).
Proof.
  revert i. induction l as [|x l IH]; intros i; [now destruct i|].
  destruct i; cbn; auto.
Qed.

Lemma nth_error_list_alter_ne A (g : A -> A) i j l :
  i <> j -> nth_error (list_alter g i l) j = nth_error l j.
Proof.
  revert i j. induction l as [|x l IH]; intros i j H; [now destruct i, j|].
  destruct i, j; cbn; auto; congruence.
Qed.

Lemma update_at_length f p : forall c,
  List.length (update_at f c p) = List.length c.
Proof. destruct p; intros c; cbn; [reflexivity|apply list_alter_length]. Qed.

Section Frame.
Variable f : Node -> Node.
Hypothesis f_fields : forall n, other_fields (f n) = other_fields n.
Hypothesis f_content : forall n, node_content (f n) = node_content n.

Lemma update_at_frame p : forall c q,
  option_map other_fields (node_at (update_at f c p) q)
  = option_map other_fields (node_at c q)
  /\ (q <> p ->
      option_map node_text (node_at (update_at f c p) q)
      = option_map node_text (node_at c q)).
Proof.
  induction p as [|i rest IH]; intros c q; [cbn; auto|].
  destruct q as [|j q']; [cbn; auto|].
  cbn [update_at node_at].
  destruct (Nat.eq_dec i j) as [->|Hij];
    [|rewrite nth_error_list_alter_ne by assumption; auto].
  rewrite nth_error_list_alter_eq.
  destruct (nth_error c j) as [e|]; [|cbn; auto]. cbn [option_map].
  destruct rest as [|k rest].
  - rewrite f_content.
    destruct q' as [|k' q''].
    + cbn [option_map]. rewrite f_fields. split; [reflexivity|congruence].
    + split; [reflexivity|reflexivity].
  - destruct e as [t a cc x m sa sc sx sm ex].
    cbn [set_node_content node_content].
    destruct q' as [|k' q''].
    + cbn [option_map]. split; [|reflexivity].
      destruct cc as [l|]; [|reflexivity].
      unfold other_fields, set_node_content.
      cbn [node_type node_attrs node_marks node_extra node_content
           attrs_set content_set marks_set option_map].
      now rewrite update_at_length.
    + destruct cc as [l|]; [|cbn; auto]. cbn [option_map].
      destruct (IH l (k' :: q'')) as [H1 H2]. split; [exact H1|].
      intros Hne. apply H2. congruence.
Qed.

Lemma update_at_hit p : forall c n,
  node_at c p = Some n -> node_at (update_at f c p) p = Some (f n).
Proof.
  induction p as [|i rest IH]; intros c n Hn; [discriminate|].
  cbn [update_at node_at] in *. rewrite nth_error_list_alter_eq.
  destruct (nth_error c i) as [e|]; [|discriminate]. cbn [option_map].
  destruct rest as [|k rest]; [now injection Hn as ->|].
  destruct e as [t a cc x m sa sc sx sm ex].
  cbn [set_node_content node_content] in *.
  destruct cc as [l|]; [|discriminate]. cbn [option_map]. now apply IH.
Qed.
End Frame.

Lemma set_text_fields t n : other_fields (set_text t n) = other_fields n.
Proof. reflexivity. Qed.

Lemma set_text_content t n : node_content (set_text t n) = node_content n.
Proof. reflexivity. Qed.

(** C7.  [update_text] on a target that is not a text node applies to 0
    elements and leaves the document as it is.  On a text node it returns
    1, and in the document afterwards the node at the target path is the
    same node with the new text: its marks and every other field are the
    old ones, and so are all fields of every other node, text included. *)
Theorem update_text_frame d er op p element :
  ep_path (sr_path er) = map Z.of_nat p ->
  node_at (doc_content (model d)) p = Some element ->
  (node_type element <> "text" ->
   _apply_update_text_operation d er op = (Ok 0, d))
  /\ (node_type element = "text" ->
      forall s, op_new_content op = JStr s ->
      exists d',
        _apply_update_text_operation d er op = (Ok 1, d')
        /\ node_at (doc_content (model d')) p = Some (set_text (Some s) element)
        /\ node_text (set_text (Some s) element) = Some s
        /\ node_marks (set_text (Some s) element) = node_marks element
        /\ other_fields (set_text (Some s) element) = other_fields element
        /\ (forall q,
              option_map other_fields (node_at (doc_content (model d')) q)
              = option_map other_fields (node_at (doc_content (model d)) q)
              /\ (q <> p ->
                  option_map node_text (node_at (doc_content (model d')) q)
                  = option_map node_text (node_at (doc_content (model d)) q)))
        /\ List.length (doc_content (model d'))
           = List.length (doc_content (model d))
        /\ doc_extra (model d') = doc_extra (model d)).
Proof.
  intros Hp Hn. pose proof (proj2 (get_element_node_at d p element) Hn) as Hg.
  unfold _apply_update_text_operation. cbv zeta. rewrite Hp, Hg. split.
  - intros Ht. destruct (String.eqb (node_type element) "text") eqn:E;
      [apply String.eqb_eq in E; contradiction|reflexivity].
  - intros Ht s Hs. rewrite Ht, Hs. cbn [String.eqb Ascii.eqb Bool.eqb negb].
    cbn [assign_text]. eexists. split; [reflexivity|].
    unfold mutate_node. cbn [model set_doc_content doc_content doc_extra].
    rewrite (@modify_parent_update_at (set_text (Some s))
               (last (map Z.of_nat p) 0) p _ element Hn eq_refl).
    split; [now apply update_at_hit|]. split; [reflexivity|].
    split; [reflexivity|]. split; [reflexivity|]. split.
    + intros q. apply update_at_frame; intros; reflexivity.
    + split; [apply update_at_length|reflexivity].
Qed.

Lemma update_text_frame_witness :
  let d := from_dict
             (doc_of [JObj [("type", JStr "paragraph");
                            ("content",
                             JArr [JObj [("type", JStr "text");
                                         ("text", JStr "Hello");
                                         ("marks", JArr [strong])]])]]) in
  let er := mkSR JNull (mkEP [0; 0] "text" (Some "Hello")) None 0 in
  let op := mkOp "update_text" [("text", JStr "Hello")] (JStr "Hi") true true [] in
  exists element d',
    ep_path (sr_path er) = map Z.of_nat [0; 0]%nat
    /\ node_at (doc_content (model d)) [0; 0]%nat = Some element
    /\ node_type element = "text"
    /\ _apply_update_text_operation d er op = (Ok 1, d')
    /\ option_map node_text (node_at (doc_content (model d')) [0; 0]%nat)
       = Some (Some "Hi")
    /\ option_map node_marks (node_at (doc_content (model d')) [0; 0]%nat)
       = Some (node_marks element).
Proof.
  intros d er op.
  destruct (node_at (doc_content (model d)) [0; 0]%nat) as [element|] eqn:E;
    [|discriminate].
  destruct (@update_text_frame d er op [0; 0]%nat element eq_refl E) as [_ H].
  assert (Ht : node_type element = "text")
    by (cbn in E; injection E as <-; reflexivity).
  destruct (H Ht "Hi" eq_refl) as (d' & A1 & A2 & A3 & A4 & _).
  exists element, d'. split; [reflexivity|]. split; [reflexivity|].
  split; [exact Ht|]. split; [exact A1|]. rewrite A2. cbn [option_map].
  split; [now rewrite A3|now rewrite A4].
Defined.

(* ================================================================= *)
(** ** The retry loop against a client that always reports a conflict *)

Section RetryExhaustion.
Variable key : dict -> option Z -> string.
Variable now : Server -> Z.
Variable pages : nat -> json.
Variable complaint : string.
Variable docs : nat -> ADFDocument.
Variable titles versions : nat -> json.
Variable page_id : string.
Variable operations : list UpdateOperation.
Variable validate_before_update create_backup : bool.

Hypothesis readable :
  forall k, fetched_as (pages k) (docs k) (titles k) (versions k).
Hypothesis is_conflict : contains "conflict" (lower complaint) = true.

Lemma attempt_conflict (retry_count : Z) (b : backups) (k : nat)
    (jr : list event) :
  exists b',
    attempt key (serve_page pages) (refuse_write complaint) now page_id
      operations validate_before_update create_backup retry_count b
      (mkServer k jr)
    = (Raise (ValueError complaint), b',
       mkServer (S k) (jr ++ round key page_id operations (docs k) (titles k) (versions k))).
Proof.
  destruct (readable k) as (Hd & Ht & Hv).
  unfold attempt, serve_page. cbn [fetches journal]. rewrite Hd.
  destruct create_backup.
  - unfold _create_backup.
    destruct (apply_operations key operations 0 (docs k)) as [entries d'] eqn:E.
    rewrite Hv. unfold payload. rewrite Ht. cbn [bind].
    unfold refuse_write. cbn [fetches journal].
    eexists. rewrite <- app_assoc. unfold round. rewrite E.
    reflexivity.
  - destruct (apply_operations key operations 0 (docs k)) as [entries d'] eqn:E.
    rewrite Hv. unfold payload. rewrite Ht. cbn [bind].
    unfold refuse_write. cbn [fetches journal].
    eexists. rewrite <- app_assoc. unfold round. rewrite E.
    reflexivity.
Qed.

(** With [m] retries left after this one the loop makes [m + 1] more
    attempts, and the last conflict ends it. *)
Lemma retry_loop_conflicts (m : nat) :
  forall (k : nat) (last_error : option exn) (b : backups)
         (jr : list event),
  exists b',
    retry_loop key (serve_page pages) (refuse_write complaint) now (S m)
      page_id operations validate_before_update create_backup true
      (Z.of_nat (k + m)) (Z.of_nat k) last_error b (mkServer k jr)
    = (Raise (retries_exhausted (Z.of_nat (k + m)) complaint), b',
       mkServer (k + S m) (jr ++ flat_map (fun i => round key page_id operations (docs i) (titles i) (versions i)) (seq k (S m)))).
Proof.
  induction m as [|m IH]; intros k last_error b jr.
  - destruct (attempt_conflict (Z.of_nat k) b k jr) as [b' Ha].
    cbn [retry_loop]. rewrite Nat.add_0_r, Z.leb_refl, Ha.
    cbn [is_value_error str_exn]. rewrite is_conflict, Z.ltb_irrefl.
    cbn [andb]. exists b'. rewrite Nat.add_1_r. cbn [seq flat_map].
    rewrite app_nil_r. reflexivity.
  - destruct (attempt_conflict (Z.of_nat k) b k jr) as [b1 Ha].
    destruct (IH (S k) (Some (ValueError complaint)) b1 (jr ++ round key page_id operations (docs k) (titles k) (versions k)))
      as [b' Hl].
    exists b'.
    change (retry_loop key (serve_page pages) (refuse_write complaint) now
              (S (S m)) page_id operations validate_before_update
              create_backup true (Z.of_nat (k + S m)) (Z.of_nat k)
              last_error b (mkServer k jr))
      with
        (if Z.of_nat k <=? Z.of_nat (k + S m) then
           match attempt key (serve_page pages) (refuse_write complaint) now
                   page_id operations validate_before_update create_backup
                   (Z.of_nat k) b (mkServer k jr) with
           | (Ok r, b', w') => (Ok r, b', w')
           | (Raise e, b', w') =>
               if is_value_error e then
                 if contains "conflict" (lower (str_exn e)) && true then
                   if Z.of_nat k <? Z.of_nat (k + S m) then
                     retry_loop key (serve_page pages)
                       (refuse_write complaint) now (S m) page_id operations
                       validate_before_update create_backup true
                       (Z.of_nat (k + S m)) (Z.of_nat k + 1) (Some e) b' w'
                   else
                     (Raise (retries_exhausted (Z.of_nat (k + S m))
                               (str_exn e)), b', w')
                 else (Raise e, b', w')
               else
                 (Raise (RuntimeError ("Page update failed: " +++ str_exn e)),
                  b', w')
           end
         else
           (Raise (retries_exhausted (Z.of_nat (k + S m))
                     (match last_error with
                      | Some e => str_exn e
                      | None => "None"
                      end)), b, mkServer k jr)).
    replace (Z.of_nat k <=? Z.of_nat (k + S m)) with true
      by (symmetry; apply Z.leb_le; lia).
    rewrite Ha. cbn [is_value_error str_exn]. rewrite is_conflict.
    cbn [andb].
    replace (Z.of_nat k <? Z.of_nat (k + S m)) with true
      by (symmetry; apply Z.ltb_lt; lia).
    replace (Z.of_nat k + 1) with (Z.of_nat (S k)) by lia.
    replace (k + S m)%nat with (S k + m)%nat by lia.
    rewrite Hl.
    replace (k + S (S m))%nat with (S k + S m)%nat by lia.
    cbn [seq flat_map]. rewrite <- app_assoc. reflexivity.
Qed.
End RetryExhaustion.

(** C5.  With [max_retries = n] and a client that answers every write with
    a conflict, the update fetches and writes exactly [n + 1] times, each
    write carrying the operations applied to the page fetched just before
    it together with that page's version, and then fails with a
    [RuntimeError] whose message names [n]. *)
Theorem conflict_retries_exhausted
    (key : dict -> option Z -> string) (now : Server -> Z)
    (pages : nat -> json) (complaint : string)
    (docs : nat -> ADFDocument) (titles versions : nat -> json)
    (page_id : string) (operations : list UpdateOperation)
    (validate_before_update create_backup : bool) (n : Z) (b : backups) :
  0 <= n ->
  page_id <> "" ->
  operations <> [] ->
  contains "conflict" (lower complaint) = true ->
  (forall k, fetched_as (pages k) (docs k) (titles k) (versions k)) ->
  exists b',
    update_page_preserving_formatting key (serve_page pages)
      (refuse_write complaint) now true page_id operations
      validate_before_update create_backup true n b fresh_server
    = (Raise (RuntimeError ("Page update failed after " +++ str_of_Z n
                            +++ " retries: " +++ complaint)),
       b',
       mkServer (Z.to_nat n + 1)
         (flat_map
            (fun k => round key page_id operations
                        (docs k) (titles k) (versions k))
            (seq 0 (Z.to_nat n + 1)))).
Proof.
  intros Hn Hid Hops Hc Hr.
  unfold update_page_preserving_formatting.
  apply String.eqb_neq in Hid. rewrite Hid.
  destruct operations as [|op rest]; [congruence|].
  cbn [negb].
  replace (Z.to_nat (n + 1)) with (S (Z.to_nat n)) by lia.
  destruct (@retry_loop_conflicts key now pages complaint docs titles versions
              page_id (op :: rest) validate_before_update create_backup
              Hr Hc (Z.to_nat n) 0%nat None b []) as [b' H].
  exists b'. cbn [Nat.add app] in H. rewrite Z2Nat.id in H by exact Hn.
  change (Z.of_nat 0) with 0 in H.
  unfold fresh_server. rewrite H. unfold retries_exhausted.
  rewrite Nat.add_1_r. reflexivity.
Qed.

Lemma conflict_retries_exhausted_witness :
  let page (k : nat) :=
    JObj [("title", JStr "Home");
          ("version", JObj [("number", JNum (Z.of_nat k + 7))]);
          ("body",
           JObj [("atlas_doc_format",
                  doc_of [JObj [("type", JStr "paragraph");
                                ("content",
                                 JArr [JObj [("type", JStr "text");
                                             ("text", JStr "Hello")]])]])])] in
  let op := mkOp "update_text" [("text", JStr "Hello")] (JStr "Hi")
                 true true [] in
  let said := "Page version conflict - page may have been updated by another user" in
  exists b' body0 body1,
    update_page_preserving_formatting no_hash (serve_page page)
      (refuse_write said) (fun _ => 0) true "123" [op] true false true 1 []
      fresh_server
    = (Raise (RuntimeError ("Page update failed after 1 retries: " +++ said)),
       b',
       mkServer 2 [Fetched "123"; Written "123" body0 (JNum 7);
                   Fetched "123"; Written "123" body1 (JNum 8)]).
Proof.
  intros page op said.
  destruct (@conflict_retries_exhausted no_hash (fun _ => 0) page said
              (fun _ => hello_document) (fun _ => JStr "Home")
              (fun k => JNum (Z.of_nat k + 7)) "123" [op] true false 1 [])
    as [b' H].
  - lia.
  - discriminate.
  - discriminate.
  - reflexivity.
  - intros k. repeat split.
  - exists b'. do 2 eexists. rewrite H. reflexivity.
Defined.

(* ================================================================= *)
(** ** The walk over a tree *)

Lemma traverse_from_app R (visit : list Z -> Z -> Node -> list R) path :
  forall a b j,
    traverse_from visit path j (a ++ b)
    = traverse_from visit path j a
      ++ traverse_from visit path (j + len a) b.
Proof.
  induction a as [|x a IH]; intros b j.
  - cbn. now rewrite Z.add_0_r.
  - cbn [app traverse_from]. rewrite IH, <- app_assoc. do 3 f_equal.
    unfold len. cbn [List.length]. lia.
Qed.

(** Every walk is the walk that lists the nodes, followed by the visit. *)
Lemma traverse_walk R (visit : list Z -> Z -> Node -> list R) :
  forall l path j,
    traverse_from visit path j l
    = flat_map (fun x => visit (fst (fst x)) (snd (fst x)) (snd x))
        (traverse_from (fun p i n => [(p, i, n)]) path j l).
Proof.
  assert (Hn : forall n path i,
             traverse_node visit path i n
             = flat_map (fun x => visit (fst (fst x)) (snd (fst x)) (snd x))
                 (traverse_node (fun p i n => [(p, i, n)]) path i n)).
  { induction n as [t a c x m sa sc sx sm e IH] using Node_rect'.
    intros path i. rewrite !traverse_node_eq. cbn [node_content].
    rewrite flat_map_app. cbn [flat_map fst snd]. rewrite app_nil_r. f_equal.
    destruct c as [l|]; [|reflexivity].
    specialize (IH l eq_refl). unfold traverse. generalize 0 as j.
    induction IH as [|y r Hy _ IHr]; intros j; cbn [traverse_from];
      [reflexivity|].
    now rewrite flat_map_app, Hy, IHr. }
  induction l as [|y r IH]; intros path j; cbn [traverse_from]; [reflexivity|].
  now rewrite flat_map_app, Hn, IH.
Qed.

(** The nodes of a validated tree are validated nodes. *)
Lemma walk_ok : forall l path j,
  forallb node_ok l = true ->
  Forall (fun x => node_ok (snd x) = true)
         (traverse_from (fun p i n => [(p, i, n)]) path j l).
Proof.
  assert (Hn : forall n path i,
             node_ok n = true ->
             Forall (fun x => node_ok (snd x) = true)
                    (traverse_node (fun p i n => [(p, i, n)]) path i n)).
  { induction n as [t a c x m sa sc sx sm e IH] using Node_rect'.
    intros path i Hok. rewrite traverse_node_eq. apply Forall_app. split.
    - constructor; [exact Hok|constructor].
    - cbn [node_content]. destruct c as [l|]; [|constructor].
      specialize (IH l eq_refl).
      assert (Hl : forallb node_ok l = true).
      { cbn in Hok. rewrite !andb_true_iff in Hok. tauto. }
      clear Hok. unfold traverse. generalize 0 as j.
      induction IH as [|y r Hy _ IHr]; intros j; cbn [traverse_from];
        [constructor|].
      cbn [forallb] in Hl. apply andb_true_iff in Hl as [Hy' Hr'].
      apply Forall_app. split; [now apply Hy|now apply IHr]. }
  induction l as [|y r IH]; intros path j Hl; cbn [traverse_from];
    [constructor|].
  cbn [forallb] in Hl. apply andb_true_iff in Hl as [Hy Hr].
  apply Forall_app. split; [now apply Hn|now apply IH].
Qed.

(* ================================================================= *)
(** ** Counting the elements *)

Lemma tally_get_set k k' v c :
  tally_get k (tally_set k' v c) =
  if String.eqb k k' then Some v else tally_get k c.
Proof.
  induction c as [|[k0 v0] c IH]; cbn [tally_set tally_get].
  - destruct (String.eqb k k'); reflexivity.
  - destruct (String.eqb k' k0) eqn:E; cbn [tally_get].
    + apply String.eqb_eq in E. subst k0.
      destruct (String.eqb k k'); reflexivity.
    + rewrite IH. destruct (String.eqb k k') eqn:E'; [|reflexivity].
      apply String.eqb_eq in E'. subst k'. now rewrite E.
Qed.

Lemma tally_value_add t k c :
  tally_value t (tally_add k c)
  = tally_value t c + (if String.eqb k t then 1 else 0).
Proof.
  unfold tally_value, tally_add. rewrite tally_get_set, (String.eqb_sym t k).
  destruct (String.eqb k t) eqn:E; [|lia].
  apply String.eqb_eq in E. subst k. reflexivity.
Qed.

Lemma tally_add_positive k c :
  (forall t v, tally_get t c = Some v -> 0 < v) ->
  forall t v, tally_get t (tally_add k c) = Some v -> 0 < v.
Proof.
  intros Hc t v. unfold tally_add. rewrite tally_get_set.
  destruct (String.eqb t k); [|apply Hc].
  intros [= <-]. destruct (tally_get k c) as [w|] eqn:E; [|lia].
  specialize (Hc _ _ E). lia.
Qed.

Lemma len_app A (a b : list A) : len (a ++ b) = len a + len b.
Proof. unfold len. rewrite length_app. lia. Qed.

Lemma len_filter_entry t p i n :
  len (filter (of_type t) (map_entry p i n))
  = if String.eqb (node_type n) t then 1 else 0.
Proof.
  unfold map_entry, of_type. cbn [filter ep_type].
  destruct (String.eqb (node_type n) t); reflexivity.
Qed.

(** One node: each type gains the number of nodes of that type below and
    at the node, and no count is left at zero. *)
Lemma count_node_spec n : forall counts path i,
  (forall t,
      tally_value t (count_node n counts)
      = tally_value t counts
        + len (filter (of_type t) (traverse_node map_entry path i n)))
  /\ ((forall t v, tally_get t counts = Some v -> 0 < v) ->
      forall t v, tally_get t (count_node n counts) = Some v -> 0 < v).
Proof.
  induction n as [t0 a c x m sa sc sx sm e IH] using Node_rect'.
  intros counts path i. cbn [count_node node_type node_content].
  assert (Hl : forall l, Forall (fun n => forall counts path i,
               (forall t,
                   tally_value t (count_node n counts)
                   = tally_value t counts
                     + len (filter (of_type t)
                              (traverse_node map_entry path i n)))
               /\ ((forall t v, tally_get t counts = Some v -> 0 < v) ->
                   forall t v, tally_get t (count_node n counts) = Some v
                               -> 0 < v)) l ->
             forall counts path j,
               (forall t,
                   tally_value t (fold_left (fun acc c => count_node c acc) l counts)
                   = tally_value t counts
                     + len (filter (of_type t)
                              (traverse_from map_entry path j l)))
               /\ ((forall t v, tally_get t counts = Some v -> 0 < v) ->
                   forall t v,
                     tally_get t (fold_left (fun acc c => count_node c acc) l counts)
                     = Some v -> 0 < v)).
  { intros l HF. induction HF as [|y r Hy _ IHr]; intros cs p j.
    - cbn. split; [intros; lia|auto].
    - cbn [fold_left traverse_from].
      destruct (Hy cs p j) as [Hy1 Hy2].
      destruct (IHr (count_node y cs) p (j + 1)) as [Hr1 Hr2].
      split.
      + intros t. rewrite Hr1, Hy1, filter_app, len_app. lia.
      + intros Hp. apply Hr2. now apply Hy2. }
  rewrite traverse_node_eq. cbn [node_content].
  destruct c as [l|].
  - destruct (Hl l (IH l eq_refl) (tally_add t0 counts) (path ++ [i]) 0)
      as [H1 H2].
    split.
    + intros t. rewrite H1, tally_value_add. unfold traverse.
      rewrite filter_app, len_app, len_filter_entry. cbn [node_type]. lia.
    + intros Hp. apply H2. now apply tally_add_positive.
  - split.
    + intros t. rewrite tally_value_add, app_nil_r, len_filter_entry.
      cbn [node_type]. lia.
    + intros Hp. now apply tally_add_positive.
Qed.

(** X1.  [get_element_count] agrees with the element map: for every type
    the count is the number of entries of that type in the map that
    [_build_element_map] makes of the same tree, and a type is a key of
    the result only when that number is positive. *)
Theorem element_count_matches_map (d : ADFDocument) (t : string) :
  tally_get t (get_element_count d) =
  let k := len (filter (of_type t) (_build_element_map (model d))) in
  if k =? 0 then None else Some k.
Proof.
  change (_build_element_map (model d))
    with (traverse_from map_entry [] 0 (doc_content (model d))).
  unfold get_element_count, _count_elements_recursive.
  assert (H : forall l counts path j,
             (forall t,
                 tally_value t (fold_left (fun acc c => count_node c acc) l counts)
                 = tally_value t counts
                   + len (filter (of_type t)
                            (traverse_from map_entry path j l)))
             /\ ((forall t v, tally_get t counts = Some v -> 0 < v) ->
                 forall t v,
                   tally_get t (fold_left (fun acc c => count_node c acc) l counts)
                   = Some v -> 0 < v)).
  { induction l as [|y r IH]; intros cs p j.
    - cbn. split; [intros; lia|auto].
    - cbn [fold_left traverse_from].
      destruct (count_node_spec y cs p j) as [Hy1 Hy2].
      destruct (IH (count_node y cs) p (j + 1)) as [Hr1 Hr2].
      split.
      + intros t'. rewrite Hr1, Hy1, filter_app, len_app. lia.
      + intros Hp. apply Hr2. now apply Hy2. }
  destruct (H (doc_content (model d)) [] [] 0) as [H1 H2].
  specialize (H1 t). unfold tally_value in H1. cbn [tally_get] in H1.
  rewrite Z.add_0_l in H1. cbv zeta.
  destruct (tally_get t (fold_left _ _ _)) as [v|] eqn:E.
  - assert (0 < v) by (apply (H2 ltac:(discriminate) t v E)).
    rewrite <- H1. destruct (v =? 0) eqn:E0; [lia|reflexivity].
  - rewrite <- H1. reflexivity.
Qed.

(* ================================================================= *)
(** ** The element map *)

Lemma node_ok_type n : node_ok n = true -> str_in (node_type n) NODE_TYPES = true.
Proof.
  destruct n as [t a c x m sa sc sx sm e]. cbn.
  rewrite !andb_true_iff. tauto.
Qed.

Lemma map_known_types l path j :
  forallb node_ok l = true ->
  Forall (fun e => known_type e = true) (traverse_from map_entry path j l).
Proof.
  intros Hl. rewrite traverse_walk. apply Forall_flat_map.
  eapply Forall_impl; [|apply walk_ok; exact Hl].
  intros [[p i] n] Hn. cbn [fst snd] in *. unfold map_entry.
  constructor; [|constructor]. unfold known_type. cbn [ep_type].
  now apply node_ok_type.
Qed.

Lemma built_map d : built d -> element_map d = _build_element_map (model d).
Proof.
  induction 1 as [data | d path e b d' _ IH He H | d path i e b d' _ IH He H
                 | d path _ IH | d u _ IH | d text _ IH | d _ IH].
  - reflexivity.
  - unfold _replace_element_at_path in H.
    destruct path; [now injection H as _ <-|].
    destruct (_get_parent_at_path _ _); [|now injection H as _ <-].
    destruct (_ >=? _); [now injection H as _ <-|].
    destruct (to_model e) eqn:Em; [|discriminate]. cbn [bind] in H.
    destruct (py_pos _ _); injection H as _ <-; [reflexivity|assumption].
  - unfold _insert_element_at_path in H.
    destruct (_get_parent_at_path _ _); [|now injection H as _ <-].
    cbv zeta in H. destruct (to_model e) eqn:Em; [|discriminate].
    cbn [bind] in H. injection H as _ <-. reflexivity.
  - unfold _delete_element_at_path.
    destruct path; [assumption|].
    destruct (_get_parent_at_path _ _); [|assumption].
    destruct (_ >=? _); [assumption|].
    destruct (py_pos _ _); [reflexivity|assumption].
  - unfold update_element. cbv zeta.
    destruct (target_path u) eqn:Ep; [assumption|]. rewrite <- Ep.
    destruct (descend _ _); [|assumption].
    repeat match goal with
    | |- context [if ?b then _ else _] => destruct b
    | |- context [match node_validate ?j with _ => _ end] =>
        destruct (node_validate j)
    | |- context [match ?a with Some _ => _ | None => _ end] => destruct a
    end; cbn [snd]; try assumption; reflexivity.
  - unfold add_paragraph. cbv zeta.
    destruct (doc_content (model d)) eqn:Ec.
    + destruct (node_validate _); [reflexivity|assumption].
    + rewrite <- Ec. clear Ec.
      unfold update_element. cbv zeta. cbn [target_path].
      destruct (descend _ _); [|assumption].
      repeat match goal with
      | |- context [if ?b then _ else _] => destruct b
      | |- context [match node_validate ?j with _ => _ end] =>
          destruct (node_validate j)
      | |- context [match ?a with Some _ => _ | None => _ end] => destruct a
      end; cbn [snd]; try assumption; reflexivity.
  - reflexivity.
Qed.

(** X2.  After any sequence of Document Model operations in which the
    new element of every replace and insert is a node dictionary that
    validates, or a node model that validation made, the element map is
    the one [_build_element_map] makes of the current tree, and every
    entry of it carries a type of [NODE_TYPES]. *)
Theorem element_map_of_built (d : ADFDocument) :
  built d ->
  element_map d = _build_element_map (model d)
  /\ Forall (fun e => known_type e = true) (element_map d).
Proof.
  intros Hb. split; [now apply built_map|].
  rewrite (built_map Hb). apply map_known_types.
  pose proof (built_ok Hb) as Hm. unfold model_ok in Hm.
  now apply andb_prop in Hm as [Hm _].
Qed.

Lemma element_map_of_built_witness :
  let d := snd (add_paragraph hello_document "More") in
  built d
  /\ element_map d = _build_element_map (model d)
  /\ Forall (fun e => known_type e = true) (element_map d)
  /\ List.length (element_map d) = 4%nat.
Proof.
  intros d.
  assert (Hb : built d)
    by (apply built_add_paragraph; unfold hello_document, from_dict;
        apply built_init).
  destruct (element_map_of_built Hb) as [H1 H2].
  split; [exact Hb|]. split; [exact H1|]. split; [exact H2|reflexivity].
Defined.

(* ================================================================= *)
(** ** Adding a paragraph *)

Lemma list_insert_end A (x : A) l : list_insert (List.length l) x l = l ++ [x].
Proof. induction l as [|y l IH]; cbn; [reflexivity|now rewrite IH]. Qed.

Lemma py_insert_pos_end n : py_insert_pos n (Z.of_nat n) = n.
Proof.
  unfold py_insert_pos. destruct (Z.of_nat n <? 0) eqn:E; [lia|].
  rewrite Z.min_id. apply Nat2Z.id.
Qed.

Lemma update_element_insert_after d i j n :
  node_validate j = Some n ->
  update_element d (mkUpdate "insert_after" [i] j)
  = (true,
     refreshed d
       (list_insert
          (py_insert_pos (List.length (doc_content (model d))) (i + 1)) n
          (doc_content (model d)))).
Proof.
  intros H. unfold update_element. cbv zeta.
  cbn [target_path operation new_content removelast last descend
       modify_parent].
  change (String.eqb "insert_after" "replace") with false.
  change (String.eqb "insert_after" "insert_before") with false.
  change (String.eqb "insert_after" "insert_after") with true.
  cbv iota. now rewrite H.
Qed.

Lemma flat_map_snoc A B (f : A -> list B) l x :
  flat_map f (l ++ [x]) = flat_map f l ++ f x.
Proof. rewrite flat_map_app. cbn. now rewrite app_nil_r. Qed.

(** X3.  [add_paragraph] always succeeds and puts one paragraph node
    after the last node of the document; the plain-text parts of the
    document gain the text as their last part, and nothing when the text
    is empty. *)
Theorem add_paragraph_appends (d : ADFDocument) (text : string) :
  let d' := snd (add_paragraph d text) in
  fst (add_paragraph d text) = true
  /\ (exists p, doc_content (model d') = doc_content (model d) ++ [p]
                /\ node_type p = "paragraph")
  /\ _extract_text_recursive (doc_content (model d'))
     = _extract_text_recursive (doc_content (model d))
       ++ (if String.eqb text "" then [] else [text]).
Proof.
  cbv zeta. unfold add_paragraph. cbv zeta.
  destruct (String.eqb text "") eqn:Et; cbn [negb].
  - assert (Hv : exists p, node_validate (JObj DEFAULT_PARAGRAPH) = Some p
                           /\ node_type p = "paragraph"
                           /\ extract_text p = [])
      by (eexists; repeat split; reflexivity).
    destruct Hv as (p & Hv & Ht & Hx).
    destruct (doc_content (model d)) as [|y r] eqn:Ec.
    + rewrite Hv. cbn [fst snd refreshed model set_doc_content doc_content].
      split; [reflexivity|]. split; [now exists p|].
      unfold _extract_text_recursive. cbn [flat_map app]. now rewrite Hx.
    + rewrite (@update_element_insert_after d _ _ _ Hv). rewrite Ec.
      replace (len (y :: r) - 1 + 1) with (Z.of_nat (List.length (y :: r)))
        by (unfold len; lia).
      rewrite py_insert_pos_end, list_insert_end.
      cbn [fst snd refreshed model set_doc_content doc_content].
      split; [reflexivity|]. split; [now exists p|].
      unfold _extract_text_recursive. now rewrite flat_map_snoc, Hx.
  - assert (Hv : exists p,
               node_validate
                 (JObj (dict_set "content"
                          (JArr [JObj [("type", JStr "text");
                                       ("text", JStr text)]])
                          DEFAULT_PARAGRAPH)) = Some p
               /\ node_type p = "paragraph"
               /\ extract_text p = if String.eqb text "" then [] else [text]).
    { eexists. split; [reflexivity|]. split; [reflexivity|].
      cbn. now rewrite Et. }
    rewrite Et in Hv. destruct Hv as (p & Hv & Ht & Hx).
    destruct (doc_content (model d)) as [|y r] eqn:Ec.
    + rewrite Hv. cbn [fst snd refreshed model set_doc_content doc_content].
      split; [reflexivity|]. split; [now exists p|].
      unfold _extract_text_recursive. cbn [flat_map app]. now rewrite Hx.
    + rewrite (@update_element_insert_after d _ _ _ Hv). rewrite Ec.
      replace (len (y :: r) - 1 + 1) with (Z.of_nat (List.length (y :: r)))
        by (unfold len; lia).
      rewrite py_insert_pos_end, list_insert_end.
      cbn [fst snd refreshed model set_doc_content doc_content].
      split; [reflexivity|]. split; [now exists p|].
      unfold _extract_text_recursive. now rewrite flat_map_snoc, Hx.
Qed.

(* ================================================================= *)
(** ** Replacing, inserting and deleting by path *)

Lemma node_at_parent p : forall c n,
  node_at c p = Some n ->
  exists parent,
    get_parent c (removelast (map Z.of_nat p)) = Some parent
    /\ nth_error parent (last p 0%nat) = Some n
    /\ last (map Z.of_nat p) 0 = Z.of_nat (last p 0%nat).
Proof.
  induction p as [|i rest IH]; intros c n H; [discriminate|].
  cbn [node_at] in H. destruct (nth_error c i) as [e|] eqn:Ei; [|discriminate].
  destruct rest as [|j r].
  - injection H as <-. exists c. cbn. auto.
  - destruct (node_content e) as [cc|] eqn:Ec; [|discriminate].
    destruct (IH _ _ H) as (parent & Hp & Hn & Hl).
    exists parent. cbn [map]. rewrite removelast_cons, !last_cons.
    cbn [map] in Hp, Hl. split; [|split; assumption].
    cbn [get_parent].
    assert (Hi : (i < List.length c)%nat)
      by (apply nth_error_Some; congruence).
    replace (Z.of_nat i >=? len c) with false
      by (symmetry; unfold len; rewrite Z.geb_leb; apply Z.leb_gt; lia).
    now rewrite py_nth_nat, Ei, Ec.
Qed.

Lemma py_nth_pos A (l : list A) i :
  py_nth l i = match py_pos (List.length l) i with
               | Some k => nth_error l k
               | None => None
               end.
Proof. reflexivity. Qed.

(** Only what is done to the list reached matters. *)
Lemma modify_parent_ext f g pp : forall c parent,
  get_parent c pp = Some parent -> f parent = g parent ->
  modify_parent f c pp = modify_parent g c pp.
Proof.
  induction pp as [|index rest IH]; intros c parent H E.
  - cbn in *. now injection H as ->.
  - cbn [get_parent modify_parent] in *.
    destruct (index >=? len c); [discriminate|].
    rewrite py_nth_pos in H.
    destruct (py_pos (List.length c) index) as [k|]; [|reflexivity].
    destruct (nth_error c k) as [e|] eqn:Ek; [|discriminate].
    destruct (node_content e) as [cc|] eqn:Ec; [|discriminate].
    eapply list_alter_ext_at; [exact Ek|]. rewrite Ec. cbn [option_map].
    now rewrite (IH _ _ H E).
Qed.

Lemma set_node_content_twice e c1 c2 :
  set_node_content (set_node_content e c1) c2 = set_node_content e c2.
Proof. reflexivity. Qed.

Lemma set_node_content_same e : set_node_content e (node_content e) = e.
Proof. now destruct e. Qed.

Lemma list_alter_twice A (f g : A -> A) k : forall l,
  list_alter g k (list_alter f k l) = list_alter (fun x => g (f x)) k l.
Proof.
  induction k as [|k IH]; intros [|x l]; cbn; try reflexivity.
  now rewrite IH.
Qed.

Lemma list_alter_id_at A (f : A -> A) k : forall l e,
  nth_error l k = Some e -> f e = e -> list_alter f k l = l.
Proof.
  induction k as [|k IH]; intros [|x l] e H E; cbn in *; try discriminate.
  - injection H as ->. now rewrite E.
  - now rewrite (IH _ _ H E).
Qed.

(** Undoing at the list reached undoes in the tree. *)
Lemma modify_parent_undo f g pp : forall c parent,
  get_parent c pp = Some parent -> g (f parent) = parent ->
  modify_parent g (modify_parent f c pp) pp = c.
Proof.
  induction pp as [|index rest IH]; intros c parent H E.
  - cbn in *. now injection H as ->.
  - cbn [get_parent modify_parent] in *.
    destruct (index >=? len c); [discriminate|].
    rewrite py_nth_pos in H.
    destruct (py_pos (List.length c) index) as [k|] eqn:Ep; [|now rewrite Ep].
    rewrite list_alter_length, Ep, list_alter_twice.
    destruct (nth_error c k) as [e|] eqn:Ek; [|discriminate].
    destruct (node_content e) as [cc|] eqn:Ec; [|discriminate].
    eapply list_alter_id_at; [exact Ek|].
    destruct e as [t a c0 x m sa sc sx sm ex]. cbn [node_content] in Ec.
    subst c0. unfold set_node_content. cbn [node_content option_map node_type
      node_attrs node_text node_marks attrs_set content_set text_set marks_set
      node_extra].
    now rewrite (IH _ _ H E).
Qed.

Lemma list_remove_insert A k (x : A) : forall l,
  (k <= List.length l)%nat -> list_remove k (list_insert k x l) = l.
Proof.
  induction k as [|k IH]; intros [|y l] H; cbn in *; try reflexivity;
    try lia.
  rewrite IH; [reflexivity|lia].
Qed.

Lemma list_insert_length A k (x : A) : forall l,
  List.length (list_insert k x l) = S (List.length l).
Proof.
  induction k as [|k IH]; intros [|y l]; cbn; try reflexivity.
  now rewrite IH.
Qed.

Lemma get_parent_descend pp : forall c parent,
  get_parent c pp = Some parent -> descend (Some c) pp = Ok (Some parent).
Proof.
  induction pp as [|index rest IH]; intros c parent H.
  - cbn in *. now injection H as ->.
  - cbn [get_parent descend] in *.
    destruct (index >=? len c); [discriminate|].
    destruct (py_nth c index) as [e|]; [|discriminate].
    destruct (node_content e) as [cc|]; [|discriminate].
    now apply IH.
Qed.

Lemma set_doc_content_same m : set_doc_content m (doc_content m) = m.
Proof. now destruct m. Qed.

(** X4.  Replacing the element at a path that leads to a node puts the
    validated new element there: the call answers [True], reading the
    same path afterwards gives the new node, and the raw data and the
    element map of the document are those of the new tree. *)
Theorem replace_then_get (d : ADFDocument) (p : list nat) (old : Node)
    (e : element) (n : Node) :
  node_at (doc_content (model d)) p = Some old ->
  to_model e = Ok n ->
  exists d',
    _replace_element_at_path d (map Z.of_nat p) e = Ok (true, d')
    /\ _get_element_at_path d' (map Z.of_nat p) = Ok (Some n)
    /\ raw_data d' = to_dict d'
    /\ element_map d' = _build_element_map (model d').
Proof.
  intros H He.
  destruct (node_at_parent _ _ H) as (parent & Hp & Hn & Hl).
  assert (Hk : (last p 0%nat < List.length parent)%nat)
    by (apply nth_error_Some; congruence).
  exists (refreshed d
            (modify_parent (list_alter (fun _ => n) (last p 0%nat))
               (doc_content (model d)) (removelast (map Z.of_nat p)))).
  split; [|split; [|split; reflexivity]].
  - unfold _replace_element_at_path.
    destruct (map Z.of_nat p) as [|z zs] eqn:Em;
      [destruct p; [discriminate H|discriminate Em]|].
    unfold _get_parent_at_path. rewrite Hp, Hl.
    replace (Z.of_nat (last p 0%nat) >=? len parent) with false
      by (symmetry; unfold len; rewrite Z.geb_leb; apply Z.leb_gt; lia).
    rewrite He. cbn [bind]. now rewrite (py_pos_nat Hk).
  - apply get_element_node_at.
    cbn [refreshed model doc_content set_doc_content].
    rewrite (@modify_parent_ext _
               (fun parent =>
                  match py_pos (List.length parent)
                               (last (map Z.of_nat p) 0) with
                  | Some j => list_alter (fun _ => n) j parent
                  | None => parent
                  end) _ _ _ Hp)
      by (now rewrite Hl, (py_pos_nat Hk)).
    rewrite (@modify_parent_update_at (fun _ => n) _ p _ _ H eq_refl).
    now rewrite (update_at_hit (fun _ => n) _ _ H).
Qed.

Lemma replace_then_get_witness :
  exists d',
    _replace_element_at_path hello_document [0; 0] (EDict (JObj (text_node "Bye" [])))
    = Ok (true, d')
    /\ option_map node_text
         (match _get_element_at_path d' [0; 0] with
          | Ok o => o
          | Raise _ => None
          end) = Some (Some "Bye").
Proof.
  destruct (@replace_then_get hello_document [0; 0]%nat
              {| node_type := "text"; node_attrs := Some [];
                 node_content := Some []; node_text := Some "Hello";
                 node_marks := Some []; attrs_set := false;
                 content_set := false; text_set := true; marks_set := false;
                 node_extra := [] |}
              (EDict (JObj (text_node "Bye" [])))
              {| node_type := "text"; node_attrs := Some [];
                 node_content := Some []; node_text := Some "Bye";
                 node_marks := Some []; attrs_set := false;
                 content_set := false; text_set := true; marks_set := false;
                 node_extra := [] |}
              eq_refl eq_refl) as (d' & H1 & H2 & _).
  exists d'. split; [exact H1|].
  change (map Z.of_nat [0; 0]%nat) with [0; 0] in H2. now rewrite H2.
Defined.

(** X5.  An element inserted into the list that a parent path leads to
    lands at the index clamped into [0, len(parent)]; reading that
    position gives the new node, and deleting it again gives back the
    model the document had before. *)
Theorem insert_then_delete (d : ADFDocument) (parent_path : list Z)
    (parent : list Node) (index : Z) (e : element) (n : Node) :
  _get_parent_at_path d parent_path = Some parent ->
  to_model e = Ok n ->
  let k := Z.max 0 (Z.min index (len parent)) in
  exists d1 d2,
    _insert_element_at_path d parent_path index e = Ok (true, d1)
    /\ _get_element_at_path d1 (parent_path ++ [k]) = Ok (Some n)
    /\ _delete_element_at_path d1 (parent_path ++ [k]) = (true, d2)
    /\ model d2 = model d.
Proof.
  intros Hp He k.
  set (j := py_insert_pos (List.length parent) k).
  assert (Hj : j = Z.to_nat k) by apply py_insert_pos_clamped.
  assert (Hk : 0 <= k <= len parent) by (unfold k, len; lia).
  assert (Hjl : (j <= List.length parent)%nat) by (unfold len in Hk; lia).
  set (c1 := modify_parent (list_insert j n) (doc_content (model d))
               parent_path).
  assert (Hp1 : get_parent c1 parent_path = Some (list_insert j n parent))
    by (now apply get_parent_modify).
  exists (refreshed d c1),
         (refreshed (refreshed d c1) (doc_content (model d))).
  split; [|split; [|split]].
  - unfold _insert_element_at_path. rewrite Hp. cbv zeta.
    rewrite He. reflexivity.
  - unfold _get_element_at_path. rewrite get_node_by_path_body.
    unfold get_body. rewrite removelast_last, last_last.
    cbn [refreshed model doc_content set_doc_content].
    rewrite (get_parent_descend _ _ Hp1). cbn [bind].
    destruct (parent_path ++ [k]) eqn:Ea;
      [now destruct parent_path|].
    replace k with (Z.of_nat j) by lia.
    now rewrite py_nth_nat, nth_error_list_insert.
  - unfold _delete_element_at_path.
    destruct (parent_path ++ [k]) eqn:Ea;
      [now destruct parent_path|].
    rewrite <- Ea, removelast_last, last_last.
    unfold _get_parent_at_path.
    cbn [refreshed model doc_content set_doc_content]. rewrite Hp1.
    replace (k >=? len (list_insert j n parent)) with false
      by (symmetry; unfold len; rewrite list_insert_length, Z.geb_leb;
          apply Z.leb_gt; unfold len in Hk; lia).
    replace k with (Z.of_nat j) by lia.
    rewrite py_pos_nat by (rewrite list_insert_length; lia).
    unfold c1.
    rewrite (@modify_parent_undo (list_insert j n) (list_remove j)
               parent_path _ _ Hp)
      by (now apply list_remove_insert).
    reflexivity.
  - cbn [refreshed model]. now destruct (model d).
Qed.

Lemma insert_then_delete_witness :
  exists d1 d2,
    _insert_element_at_path hello_document [0] 7
      (EDict (JObj (text_node "Bye" []))) = Ok (true, d1)
    /\ option_map node_text
         (match _get_element_at_path d1 [0; 1] with
          | Ok o => o
          | Raise _ => None
          end) = Some (Some "Bye")
    /\ _delete_element_at_path d1 [0; 1] = (true, d2)
    /\ model d2 = model hello_document.
Proof.
  destruct (@insert_then_delete hello_document [0]
              [{| node_type := "text"; node_attrs := Some [];
                  node_content := Some []; node_text := Some "Hello";
                  node_marks := Some []; attrs_set := false;
                  content_set := false; text_set := true; marks_set := false;
                  node_extra := [] |}]
              7 (EDict (JObj (text_node "Bye" [])))
              {| node_type := "text"; node_attrs := Some [];
                 node_content := Some []; node_text := Some "Bye";
                 node_marks := Some []; attrs_set := false;
                 content_set := false; text_set := true; marks_set := false;
                 node_extra := [] |}
              eq_refl eq_refl) as (d1 & d2 & H1 & H2 & H3 & H4).
  exists d1, d2. split; [exact H1|].
  change ([0] ++ [Z.max 0 (Z.min 7 (len _))]) with [0; 1] in H2, H3.
  split; [now rewrite H2|]. split; [exact H3|exact H4].
Defined.

(* ================================================================= *)
(** ** Sorting the results *)

Lemma key_le_total a b : key_le a b = false -> key_le b a = true.
Proof.
  unfold key_le. destruct a as [x u], b as [y v]. cbn [fst snd].
  destruct (x <? y) eqn:E1, (x =? y) eqn:E2, (y <? x) eqn:E3,
    (y =? x) eqn:E4, u, v; cbn; try reflexivity; try discriminate; lia.
Qed.

Lemma key_le_trans a b c :
  key_le a b = true -> key_le b c = true -> key_le a c = true.
Proof.
  unfold key_le. destruct a as [x u], b as [y v], c as [z w].
  cbn [fst snd].
  destruct (x <? y) eqn:E1, (x =? y) eqn:E2, (y <? z) eqn:E3,
    (y =? z) eqn:E4, (x <? z) eqn:E5, (x =? z) eqn:E6, u, v, w; cbn;
    try reflexivity; try discriminate; lia.
Qed.

Lemma insert_sorted_perm r l : Permutation (insert_sorted r l) (r :: l).
Proof.
  induction l as [|x l IH]; cbn [insert_sorted]; [reflexivity|].
  destruct (key_le (sort_key x) (sort_key r)); [|reflexivity].
  rewrite IH. apply perm_swap.
Qed.

Lemma insert_sorted_sorted r l :
  StronglySorted result_le l -> StronglySorted result_le (insert_sorted r l).
Proof.
  induction 1 as [|x l Hs IH Hx]; cbn [insert_sorted].
  - repeat constructor.
  - destruct (key_le (sort_key x) (sort_key r)) eqn:E.
    + constructor; [exact IH|].
      eapply Permutation_Forall; [symmetry; apply insert_sorted_perm|].
      constructor; assumption.
    + apply key_le_total in E. constructor; [now constructor|].
      constructor; [exact E|].
      eapply Forall_impl; [|exact Hx]. intros y Hy.
      unfold result_le in *. eapply key_le_trans; eassumption.
Qed.

(** Stable: among the results with one key, the new one goes last. *)
Lemma insert_sorted_stable k r l :
  StronglySorted result_le l ->
  filter (with_key k) (insert_sorted r l)
  = filter (with_key k) l ++ (if with_key k r then [r] else []).
Proof.
  induction 1 as [|x l Hs IH Hx]; cbn [insert_sorted filter app].
  - reflexivity.
  - destruct (key_le (sort_key x) (sort_key r)) eqn:E; cbn [filter].
    + rewrite IH. now destruct (with_key k x).
    + destruct (with_key k r) eqn:Er; cbn [filter]; [|now rewrite app_nil_r].
      assert (Hn : forall y, result_le x y -> with_key k y = false).
      { intros y Hy. destruct (with_key k y) eqn:Ey; [|reflexivity].
        exfalso. unfold with_key in Er, Ey. unfold result_le in Hy.
        apply andb_prop in Er as [Er1 Er2]. apply andb_prop in Ey as [Ey1 Ey2].
        apply Z.eqb_eq in Er1, Ey1. apply Bool.eqb_prop in Er2, Ey2.
        unfold key_le in E, Hy.
        destruct (sort_key x) as [a u], (sort_key r) as [b v],
          (sort_key y) as [c w], k as [k1 k2].
        cbn [fst snd] in *. subst.
        destruct (a <? k1) eqn:E1, (a =? k1) eqn:E2, u, k2; cbn in *;
          try discriminate; lia. }
      rewrite (Hn x) by (unfold result_le, key_le;
                         destruct (sort_key x) as [a u]; cbn;
                         rewrite Z.ltb_irrefl, Z.eqb_refl; now destruct u).
      assert (Hl : filter (with_key k) l = []).
      { clear IH Hs. induction Hx as [|y l Hy _ IHl]; [reflexivity|].
        cbn [filter]. now rewrite (Hn y Hy). }
      now rewrite Hl.
Qed.

Lemma sort_fold rs : forall acc,
  StronglySorted result_le acc ->
  Permutation (fold_left (fun acc r => insert_sorted r acc) rs acc) (acc ++ rs)
  /\ StronglySorted result_le
       (fold_left (fun acc r => insert_sorted r acc) rs acc)
  /\ forall k,
       filter (with_key k) (fold_left (fun acc r => insert_sorted r acc) rs acc)
       = filter (with_key k) acc ++ filter (with_key k) rs.
Proof.
  induction rs as [|r rs IH]; intros acc Ha; cbn [fold_left].
  - rewrite app_nil_r. split; [reflexivity|]. split; [exact Ha|].
    intros k. cbn. now rewrite app_nil_r.
  - destruct (IH (insert_sorted r acc) (insert_sorted_sorted r Ha))
      as (P & S & F).
    split; [|split; [exact S|]].
    + rewrite P, insert_sorted_perm. apply Permutation_middle.
    + intros k. rewrite F, insert_sorted_stable by exact Ha.
      rewrite <- app_assoc. cbn [filter].
      now destruct (with_key k r).
Qed.

(** X6.  [_sort_search_results] is a stable sort: the result holds the
    same results, in the order of (path depth, no text), and the results
    that share a key keep the order they came in. *)
Theorem sort_is_stable_sort (results : list SearchResult) :
  Permutation (_sort_search_results results) results
  /\ StronglySorted result_le (_sort_search_results results)
  /\ forall k, filter (with_key k) (_sort_search_results results)
               = filter (with_key k) results.
Proof.
  unfold _sort_search_results.
  destruct (@sort_fold results [] (SSorted_nil _)) as (P & S & F).
  split; [exact P|]. split; [exact S|]. intros k. now rewrite F.
Qed.

(* ================================================================= *)
(** ** The limit and the cache *)

Lemma apply_limit_firstn n results :
  apply_limit (Some n) results
  = if n =? 0 then results
    else if 0 <? n then firstn (Z.to_nat n) results
    else firstn (Z.to_nat (len results + n)) results.
Proof.
  unfold apply_limit, py_prefix.
  destruct (n =? 0) eqn:E0; cbn [negb andb]; [reflexivity|].
  destruct (0 <? n) eqn:Ep.
  - replace (0 <=? n) with true by (symmetry; apply Z.leb_le; lia).
    destruct (len results >? n) eqn:El; [reflexivity|].
    symmetry. apply firstn_all2. rewrite Z.gtb_ltb in El.
    apply Z.ltb_ge in El. unfold len in El. lia.
  - replace (0 <=? n) with false by (symmetry; apply Z.leb_gt; lia).
    replace (len results >? n) with true; [reflexivity|].
    symmetry. apply Z.gtb_lt. unfold len. lia.
Qed.

(** X7.  The limit of a search: a positive limit gives the first [n] of
    the results that the search without limit gives, [0] gives all of
    them, and a negative limit gives all but the last [-n]; the search
    raises with a limit exactly when it raises without. *)
Theorem limit_of_search (key : dict -> option Z -> string) (d : ADFDocument)
    (criteria : dict) (n : Z) (include_context : bool) :
  find_element_in_adf key d criteria (Some n) include_context =
  match find_element_in_adf key d criteria None include_context with
  | Ok all =>
      Ok (if n =? 0 then all
          else if 0 <? n then firstn (Z.to_nat n) all
          else firstn (Z.to_nat (len all + n)) all)
  | Raise e => Raise e
  end.
Proof.
  unfold find_element_in_adf, find_elements.
  destruct criteria as [|kv rest]; [reflexivity|].
  cbn [cache_get].
  destruct (run_strategy _ _ _) as [rs|e]; [|reflexivity]. cbn [bind].
  destruct (if include_context then _ else _) as [rs'|e]; [|reflexivity].
  cbn [bind fst]. now rewrite apply_limit_firstn.
Qed.

Lemma cache_get_head k v c : cache_get k ((k, v) :: c) = Some v.
Proof. cbn. now rewrite String.eqb_refl. Qed.

(** X8.  A finder answers a repeated search from its cache without
    looking at the document: once a search with caching has returned
    results, the same criteria and limit return the same results from that
    finder for every document and every [include_context]. *)
Theorem cached_search_ignores_document (key : dict -> option Z -> string)
    (cache cache' : search_cache) (criteria : dict) (d : ADFDocument)
    (limit : option Z) (include_context : bool) (r : list SearchResult) :
  match limit with Some n => 0 <= n | None => True end ->
  find_elements key cache criteria d limit include_context true
  = (Ok r, cache') ->
  forall d' include_context',
    find_elements key cache' criteria d' limit include_context' true
    = (Ok r, cache').
Proof.
  intros Hn H d' ctx'. unfold find_elements in *.
  destruct criteria as [|kv rest]; [discriminate|].
  destruct (cache_get (key (kv :: rest) limit) cache) as [cached|] eqn:Ec.
  - injection H as <- <-. now rewrite Ec.
  - destruct (results <- run_strategy _ _ _ ;; _) as [results|e] eqn:Eo;
      [|discriminate].
    injection H as <- <-. rewrite cache_get_head. f_equal. f_equal.
    destruct limit as [n|]; [|reflexivity].
    destruct (run_strategy _ _ _) as [rs|]; [|discriminate]. cbn [bind] in Eo.
    destruct (if include_context then _ else _) as [rs'|]; [|discriminate].
    cbn [bind] in Eo. rewrite apply_limit_firstn in Eo. injection Eo as <-.
    destruct (n =? 0) eqn:E0; cbn [negb]; [reflexivity|].
    replace (0 <? n) with true by (symmetry; apply Z.ltb_lt; lia).
    unfold py_prefix.
    replace (0 <=? n) with true by (symmetry; apply Z.leb_le; lia).
    apply firstn_all2. rewrite length_firstn. lia.
Qed.

Lemma cached_search_ignores_document_witness :
  let criteria := [("node_type", JStr "paragraph")] in
  exists r cache',
    find_elements key_by_names [] criteria hello_document None true true
    = (Ok r, cache')
    /\ List.length r = 1%nat
    /\ find_elements key_by_names cache' criteria (ADFDocument_init None)
         None false true
       = (Ok r, cache').
Proof.
  intros criteria.
  destruct (find_elements key_by_names [] criteria hello_document None true
              true) as [[r|e] cache'] eqn:E; [|discriminate E].
  exists r, cache'. split; [reflexivity|]. split.
  - vm_compute in E. injection E as <- _. reflexivity.
  - exact (@cached_search_ignores_document key_by_names [] cache' criteria
             hello_document None true r I E (ADFDocument_init None) false).
Defined.

(* ================================================================= *)
(** ** Where the walk finds its nodes *)

Lemma placed_children p l :
  Forall (fun m => forall path i, Forall (placed path i m)
                                    (traverse_node listed path i m)) l ->
  forall jn,
    Forall (fun x => exists k m, nth_error l k = Some m
                                 /\ placed p (Z.of_nat (jn + k)) m x)
           (traverse_from listed p (Z.of_nat jn) l).
Proof.
  induction 1 as [|y r Hy _ IH]; intros jn; cbn [traverse_from];
    [constructor|].
  apply Forall_app. split.
  - eapply Forall_impl; [|apply Hy]. intros x Hx.
    exists 0%nat, y. split; [reflexivity|]. now rewrite Nat.add_0_r.
  - replace (Z.of_nat jn + 1) with (Z.of_nat (S jn)) by lia.
    eapply Forall_impl; [|apply IH]. intros x (k & m & Hk & Hx).
    exists (S k), m. split; [exact Hk|].
    now replace (jn + S k)%nat with (S jn + k)%nat by lia.
Qed.

Lemma placed_node n : forall path i,
  Forall (placed path i n) (traverse_node listed path i n).
Proof.
  induction n as [t a c x m sa sc sx sm e IH] using Node_rect'.
  intros path i. rewrite traverse_node_eq. apply Forall_app. split.
  - constructor; [|constructor]. exists []. cbn [fst snd map sub_at].
    rewrite app_nil_r. split; [reflexivity|]. split; [reflexivity|].
    now rewrite last_last.
  - cbn [node_content]. destruct c as [l|]; [|constructor].
    unfold traverse.
    eapply Forall_impl; [|apply (placed_children (path ++ [i]) (IH l eq_refl) 0)].
    intros y (k & m' & Hk & q & Hp & Hs & Hi). cbn [Nat.add] in Hp.
    exists (k :: q). cbn [map sub_at node_content]. rewrite Hk.
    split; [|split; [exact Hs|exact Hi]].
    rewrite Hp, <- !app_assoc. reflexivity.
Qed.

Lemma node_at_sub q : forall c k,
  node_at c (k :: q) = match nth_error c k with
                       | Some m => sub_at m q
                       | None => None
                       end.
Proof.
  induction q as [|j q IH]; intros c k; cbn [node_at sub_at].
  - reflexivity.
  - destruct (nth_error c k) as [m|]; [|reflexivity].
    destruct (node_content m) as [cc|]; [|reflexivity].
    apply IH.
Qed.

(** Every node that a walk from the root lists is the node that its path
    leads to, and its index is the last step of that path. *)
Lemma walk_addresses content :
  Forall (fun x => exists q, fst (fst x) = map Z.of_nat q
                             /\ node_at content q = Some (snd x)
                             /\ snd (fst x) = last (fst (fst x)) 0)
         (walk content []).
Proof.
  unfold walk, traverse.
  assert (H : Forall (fun m => forall path i,
                        Forall (placed path i m)
                               (traverse_node listed path i m)) content)
    by (apply Forall_forall; intros m _; apply placed_node).
  eapply Forall_impl; [|apply (placed_children [] H 0)].
  intros x (k & m & Hk & q & Hp & Hs & Hi). cbn [Nat.add app] in Hp.
  exists (k :: q). rewrite node_at_sub, Hk. cbn [map].
  split; [exact Hp|]. split; [exact Hs|exact Hi].
Qed.

(* ================================================================= *)
(** ** Search results as targets *)

Lemma collect_Forall A (Q : A -> Prop) (l : list (res (list A))) : forall rs,
  Forall (fun c => forall xs, c = Ok xs -> Forall Q xs) l ->
  collect l = Ok rs -> Forall Q rs.
Proof.
  induction l as [|c l IH]; intros rs HF H; cbn [collect] in H.
  - injection H as <-. constructor.
  - inversion HF as [|? ? Hc Hl]; subst.
    destruct c as [xs|]; [|discriminate]. cbn [bind] in H.
    destruct (collect l) as [ys|]; [|discriminate]. cbn [bind] in H.
    injection H as <-. apply Forall_app. split; [now apply Hc|now apply IH].
Qed.

Lemma node_result_addressed d tc p i n :
  (exists q, p = map Z.of_nat q
             /\ node_at (doc_content (model d)) q = Some n
             /\ i = last p 0) ->
  addressed d (node_result tc p i n).
Proof.
  intros (q & -> & Hn & ->). exists q, n. unfold node_result.
  cbn [sr_path sr_node sr_index ep_path ep_type]. repeat split. exact Hn.
Qed.

Lemma addressed_reports d r : addressed d r -> reports d r.
Proof.
  intros (q & n & Hp & Hn & H1 & H2 & H3). exists n. rewrite Hp.
  split; [now apply get_element_node_at|]. rewrite <- Hp. auto.
Qed.

Lemma search_with_predicate_addressed d predicate rs :
  _search_with_predicate (doc_content (model d)) [] predicate = Ok rs ->
  Forall (addressed d) rs.
Proof.
  unfold _search_with_predicate, traverse. rewrite traverse_walk.
  apply collect_Forall. apply Forall_flat_map.
  eapply Forall_impl; [|apply walk_addresses].
  intros [[p i] n] Hx. cbn [fst snd] in *.
  constructor; [|constructor]. intros xs H.
  destruct (predicate n) as [b|]; [|discriminate]. cbn [bind] in H.
  injection H as <-. destruct b; [|constructor].
  constructor; [|constructor]. now apply node_result_addressed.
Qed.

Lemma search_with_predicate_reports d predicate rs :
  _search_with_predicate (doc_content (model d)) [] predicate = Ok rs ->
  Forall (reports d) rs.
Proof.
  intros H. eapply Forall_impl; [apply addressed_reports|].
  eapply search_with_predicate_addressed; eauto.
Qed.

Lemma search_text_addressed d text_predicate :
  Forall (addressed d)
         (_search_text_recursive (doc_content (model d)) [] text_predicate).
Proof.
  unfold _search_text_recursive, traverse. rewrite traverse_walk.
  apply Forall_flat_map.
  eapply Forall_impl; [|apply walk_addresses].
  intros [[p i] n] Hx. cbn [fst snd] in *.
  destruct (node_text n) as [t|]; [|constructor].
  destruct (_ && _); [|constructor].
  constructor; [|constructor]. now apply node_result_addressed.
Qed.

Lemma search_index_addressed d target_index rs :
  _search_by_index target_index d = Ok rs -> Forall (addressed d) rs.
Proof.
  unfold _search_by_index, find_by_index_recursive.
  change (1 =? 1) with true. cbv iota.
  destruct (as_int target_index) as [t|]; [|discriminate]. cbn [bind].
  destruct ((0 <=? t) && (t <? len (doc_content (model d)))) eqn:E;
    [|intros [= <-]; constructor].
  apply andb_prop in E as [E1 E2]. apply Z.leb_le in E1.
  destruct (nth_error _ _) as [element|] eqn:En;
    intros [= <-]; constructor; [|constructor].
  apply node_result_addressed. exists [Z.to_nat t]. cbn [map app last].
  rewrite Z2Nat.id by exact E1. split; [reflexivity|].
  split; [|reflexivity]. cbn [node_at]. now rewrite En.
Qed.

Lemma add_context_addressed d r r' :
  add_context d r = Ok r' -> addressed d r -> addressed d r'.
Proof.
  unfold add_context. cbv zeta.
  destruct (_ >? 1); [|now intros [= <-]].
  destruct (_get_node_by_path _ _) as [[parent|]|]; cbn [bind];
    try discriminate; intros [= <-]; [|trivial].
  intros (q & n & H). now exists q, n.
Qed.

Lemma add_context_to_results_addressed d rs : forall rs',
  _add_context_to_results rs d = Ok rs' ->
  Forall (addressed d) rs -> Forall (addressed d) rs'.
Proof.
  induction rs as [|r rs IH]; intros rs' H HF;
    cbn [_add_context_to_results] in H.
  - now injection H as <-.
  - inversion HF as [|? ? Hr Hrs]; subst.
    destruct (add_context d r) as [r1|] eqn:E1; [|discriminate].
    cbn [bind] in H.
    destruct (_add_context_to_results rs d) as [rs1|]; [|discriminate].
    cbn [bind] in H. injection H as <-.
    constructor; [eapply add_context_addressed; eauto|now apply IH].
Qed.

Lemma Forall_first A (Q : A -> Prop) k : forall l,
  Forall Q l -> Forall Q (firstn k l).
Proof.
  induction k as [|k IH]; intros l H; [constructor|].
  destruct H; cbn [firstn]; constructor; auto.
Qed.

Lemma apply_limit_Forall (Q : SearchResult -> Prop) limit rs :
  Forall Q rs -> Forall Q (apply_limit limit rs).
Proof.
  intros H. destruct limit as [n|]; [|exact H].
  rewrite apply_limit_firstn.
  destruct (n =? 0); [exact H|].
  destruct (0 <? n); now apply Forall_first.
Qed.

(** The results of every strategy but JSONPath come from a walk. *)
Lemma find_addressed (key : dict -> option Z -> string)
    (d : ADFDocument) (criteria : dict) (limit : option Z)
    (include_context : bool) (rs : list SearchResult) :
  choose criteria <> ByJsonPath ->
  find_element_in_adf key d criteria limit include_context = Ok rs ->
  Forall (addressed d) rs.
Proof.
  intros Hc. unfold find_element_in_adf, find_elements.
  destruct criteria as [|kv rest]; [discriminate|].
  cbn [cache_get].
  destruct (run_strategy _ _ _) as [rs0|] eqn:E0; [|discriminate].
  cbn [bind].
  assert (H0 : Forall (addressed d) rs0).
  { destruct (choose (kv :: rest)); cbn [run_strategy] in E0.
    - contradiction.
    - unfold _search_by_text_content in E0.
      destruct (or_null _) as [| | |q| |]; try discriminate.
      injection E0 as <-. apply search_text_addressed.
    - unfold _search_by_node_type in E0.
      destruct (key_in _ _); [|discriminate]. cbn [bind] in E0.
      eapply search_with_predicate_addressed; eauto.
    - eapply search_with_predicate_addressed; eauto.
    - eapply search_with_predicate_addressed; eauto.
    - eapply search_index_addressed; eauto.
    - eapply search_with_predicate_addressed; eauto. }
  destruct (if include_context then _ else _) as [rs1|] eqn:E1;
    [|discriminate].
  cbn [bind fst]. intros [= <-].
  apply apply_limit_Forall.
  assert (H1 : Forall (addressed d) rs1).
  { destruct include_context.
    - eapply add_context_to_results_addressed; eauto.
    - now injection E1 as <-. }
  destruct (@sort_fold rs1 [] (SSorted_nil _)) as (P & _ & _).
  eapply Permutation_Forall; [symmetry; exact P|exact H1].
Qed.

(** X9.  Unless the JSONPath strategy is the one chosen, every result of
    a search is a target the document can be asked for: its path leads
    to a node of the document, the result carries the dump and the type
    of that node, and its index is the last step of its path. *)
Theorem search_results_are_targets (key : dict -> option Z -> string)
    (d : ADFDocument) (criteria : dict) (limit : option Z)
    (include_context : bool) (rs : list SearchResult) :
  choose criteria <> ByJsonPath ->
  find_element_in_adf key d criteria limit include_context = Ok rs ->
  Forall (reports d) rs.
Proof.
  intros Hc H. eapply Forall_impl; [apply addressed_reports|].
  eapply find_addressed; eauto.
Qed.

Lemma search_results_are_targets_witness :
  exists r,
    find_element_in_adf key_by_names hello_document [("text", JStr "hello")]
      None true = Ok [r]
    /\ ep_path (sr_path r) = [0; 0]
    /\ reports hello_document r.
Proof.
  destruct (find_element_in_adf key_by_names hello_document
              [("text", JStr "hello")] None true) as [rs|] eqn:E;
    [|discriminate E].
  pose proof (@search_results_are_targets key_by_names hello_document
                [("text", JStr "hello")] None true rs
                ltac:(discriminate) E) as H.
  vm_compute in E. injection E as <-.
  eexists. split; [reflexivity|]. split; [reflexivity|].
  now inversion H.
Defined.

(* ================================================================= *)
(** ** Searching by node type *)

Lemma collect_pure A B (g : B -> list A) (l : list B) :
  collect (flat_map (fun x => [Ok (g x)]) l) = Ok (flat_map g l).
Proof.
  induction l as [|x l IH]; [reflexivity|].
  cbn [flat_map app collect bind]. now rewrite IH.
Qed.

Lemma search_by_type_walk d t :
  _search_by_node_type (JStr t) d
  = Ok (flat_map
          (fun x => if String.eqb (node_type (snd x)) t
                    then [node_result (node_text (snd x)) (fst (fst x))
                            (snd (fst x)) (snd x)]
                    else [])
          (walk (doc_content (model d)) [])).
Proof.
  unfold _search_by_node_type, _search_with_predicate, walk, traverse.
  cbn [key_in bind]. rewrite traverse_walk.
  cbn [bind py_eq]. apply collect_pure.
Qed.

Lemma type_results_paths t (w : list (list Z * Z * Node)) :
  map sr_path
    (flat_map
       (fun x => if String.eqb (node_type (snd x)) t
                 then [node_result (node_text (snd x)) (fst (fst x))
                         (snd (fst x)) (snd x)]
                 else []) w)
  = filter (of_type t)
      (flat_map (fun x => map_entry (fst (fst x)) (snd (fst x)) (snd x)) w).
Proof.
  induction w as [|[[p i] n] w IH]; [reflexivity|].
  cbn [flat_map fst snd]. rewrite map_app, filter_app, IH. f_equal.
  unfold map_entry, of_type. cbn [filter ep_type].
  destruct (String.eqb (node_type n) t); reflexivity.
Qed.

Lemma get_body_parent r : forall cur a b n,
  get_body cur (a :: b :: r) = Ok (Some n) ->
  exists parent, get_body cur (removelast (a :: b :: r)) = Ok (Some parent).
Proof.
  induction r as [|c r IH]; intros cur a b n H; rewrite get_body_cons in H.
  - cbn [removelast]. unfold get_body. cbn [removelast descend bind last].
    destruct cur as [l|]; [|discriminate].
    destruct (py_nth l a) as [m|]; [|discriminate]. now exists m.
  - rewrite removelast_cons.
    destruct cur as [l|]; [|discriminate].
    destruct (py_nth l a) as [m|] eqn:Em; [|discriminate].
    destruct (IH _ _ _ _ H) as [parent Hp]. exists parent.
    rewrite removelast_cons in Hp |- *. rewrite get_body_cons, Em.
    exact Hp.
Qed.

Lemma get_element_body d path n :
  _get_element_at_path d path = Ok (Some n) ->
  get_body (Some (doc_content (model d))) path = Ok (Some n).
Proof.
  unfold _get_element_at_path. rewrite get_node_by_path_body.
  destruct (get_body _ _) as [o|[]]; congruence.
Qed.

(** The context of a result that is a target is found without an
    exception, and leaves the path of the result as it is. *)
Lemma add_context_total d r :
  reports d r ->
  exists r', add_context d r = Ok r' /\ sr_path r' = sr_path r.
Proof.
  intros (n & H & _). unfold add_context. cbv zeta.
  destruct (ep_path (sr_path r)) as [|a [|b p]] eqn:Ep;
    try (eexists; split; reflexivity).
  replace (len (a :: b :: p) >? 1) with true
    by (symmetry; apply Z.gtb_lt; unfold len; cbn [List.length]; lia).
  apply get_element_body in H.
  destruct (get_body_parent _ _ _ _ H) as [parent Hp].
  rewrite get_node_by_path_body, Hp. cbn [bind].
  eexists; split; reflexivity.
Qed.

Lemma add_context_to_results_total d rs :
  Forall (reports d) rs ->
  exists rs', _add_context_to_results rs d = Ok rs'
              /\ map sr_path rs' = map sr_path rs.
Proof.
  induction 1 as [|r rs Hr _ (rs' & IH1 & IH2)].
  - now exists [].
  - destruct (add_context_total Hr) as (r' & H1 & H2).
    exists (r' :: rs'). cbn [_add_context_to_results map].
    rewrite H1, IH1, H2, IH2. split; reflexivity.
Qed.

(** X10.  A search by node type alone does not raise, and the paths of
    its results are the entries of the element map that carry that type,
    each of them once. *)
Theorem type_search_finds_the_map_entries
    (key : dict -> option Z -> string) (d : ADFDocument) (t : string)
    (include_context : bool) :
  t <> "" ->
  exists rs,
    find_element_in_adf key d [("node_type", JStr t)] None include_context
    = Ok rs
    /\ Permutation (map sr_path rs)
         (filter (of_type t) (_build_element_map (model d))).
Proof.
  intros Ht. apply String.eqb_neq in Ht.
  unfold find_element_in_adf, find_elements. cbn [cache_get].
  assert (Hc : choose [("node_type", JStr t)] = ByNodeType)
    by (unfold choose, get_truthy; cbn; now rewrite Ht).
  rewrite Hc. cbn [run_strategy].
  change (or_null (dict_get "node_type" [("node_type", JStr t)]))
    with (JStr t).
  rewrite search_by_type_walk. cbn [bind].
  set (rs0 := flat_map _ (walk _ _)).
  assert (H0 : Forall (reports d) rs0).
  { apply (@search_with_predicate_reports d
             (fun n => Ok (py_eq (JStr (node_type n)) (JStr t)))).
    pose proof (search_by_type_walk d t) as E.
    unfold _search_by_node_type in E. cbn [key_in bind] in E. exact E. }
  assert (Hp : map sr_path rs0
               = filter (of_type t) (_build_element_map (model d))).
  { unfold rs0. rewrite type_results_paths.
    unfold _build_element_map, traverse, walk. now rewrite traverse_walk. }
  assert (H1 : exists rs1,
             (if include_context then _add_context_to_results rs0 d
              else Ok rs0) = Ok rs1
             /\ map sr_path rs1 = map sr_path rs0).
  { destruct include_context; [now apply add_context_to_results_total|].
    now exists rs0. }
  destruct H1 as (rs1 & E1 & P1). rewrite E1. cbn [bind apply_limit fst].
  eexists. split; [reflexivity|].
  destruct (@sort_fold rs1 [] (SSorted_nil _)) as (P & _ & _).
  rewrite <- Hp, <- P1. apply Permutation_map. exact P.
Qed.

Lemma type_search_finds_the_map_entries_witness :
  exists rs,
    find_element_in_adf key_by_names hello_document
      [("node_type", JStr "text")] None true = Ok rs
    /\ Permutation (map sr_path rs) [mkEP [0; 0] "text" (Some "Hello")].
Proof.
  destruct (@type_search_finds_the_map_entries key_by_names hello_document
              "text" true ltac:(discriminate)) as (rs & H1 & H2).
  exists rs. split; [exact H1|exact H2].
Defined.

(* ================================================================= *)
(** ** One attempt of the update, up to the write *)

Lemma apply_operations_length key operations : forall i d,
  List.length (fst (apply_operations key operations i d))
  = List.length operations.
Proof.
  induction operations as [|op rest IH]; intros i d; [reflexivity|].
  cbn [apply_operations].
  destruct (_apply_operation key d op) as [r d'].
  specialize (IH (i + 1) d').
  destruct (apply_operations key rest (i + 1) d') as [entries d''].
  cbn [fst List.length] in *. now rewrite IH.
Qed.

Section OneAttempt.
Variable key : dict -> option Z -> string.
Variable now : Server -> Z.
Variable pages : nat -> json.
Variable update : string -> json -> json -> Server -> res json * Server.
Variable docs : nat -> ADFDocument.
Variable titles versions : nat -> json.
Variable page_id : string.
Variable operations : list UpdateOperation.
Variable validate_before_update create_backup : bool.

Hypothesis readable :
  forall k, fetched_as (pages k) (docs k) (titles k) (versions k).

(** An attempt gets as far as the write, and what it returns is decided
    there. *)
Lemma attempt_to_write (retry_count : Z) (b : backups) (k : nat)
    (jr : list event) :
  let w1 := mkServer (S k) (jr ++ [Fetched page_id]) in
  let body :=
    JObj [("title", titles k);
          ("body", to_dict (snd (apply_operations key operations 0 (docs k))))] in
  let b1 := if create_backup
            then snd (_create_backup now page_id (docs k) b w1) else b in
  exists r,
    attempt key (serve_page pages) update now page_id operations
      validate_before_update create_backup retry_count b (mkServer k jr)
    = match update page_id body (versions k) w1 with
      | (Raise e, w2) => (Raise e, b1, w2)
      | (Ok updated_page, w2) => (Ok (r updated_page), b1, w2)
      end
    /\ forall u,
         ur_updated_page (r u) = u
         /\ ur_retry_count (r u) = retry_count
         /\ ur_operations_count (r u) = len operations
         /\ ur_backup_id (r u)
            = (if create_backup
               then Some (fst (_create_backup now page_id (docs k) b w1))
               else None).
Proof.
  cbv zeta. destruct (readable k) as (Hd & Ht & Hv).
  unfold attempt, serve_page. cbn [fetches journal]. rewrite Hd.
  pose proof (apply_operations_length key operations 0 (docs k)) as Hl.
  destruct create_backup.
  - unfold _create_backup.
    destruct (apply_operations key operations 0 (docs k)) as [entries d'].
    rewrite Hv. unfold payload. rewrite Ht. cbn [bind fst snd] in *.
    eexists (fun u => mkResult page_id u entries (len entries)
                        (len (filter ao_success entries)) _ _ retry_count).
    split.
    + destruct (update _ _ _ _) as [[u|e] w2]; reflexivity.
    + intros u. cbn. unfold len. rewrite Hl. repeat split.
  - destruct (apply_operations key operations 0 (docs k)) as [entries d'].
    rewrite Hv. unfold payload. rewrite Ht. cbn [bind fst snd] in *.
    eexists (fun u => mkResult page_id u entries (len entries)
                        (len (filter ao_success entries)) _ _ retry_count).
    split.
    + destruct (update _ _ _ _) as [[u|e] w2]; reflexivity.
    + intros u. cbn. unfold len. rewrite Hl. repeat split.
Qed.
End OneAttempt.

(* ================================================================= *)
(** ** Failures that are not retried *)

(** X11.  A write that fails with anything but a conflict ends the
    update after one attempt, whatever [max_retries] allows: a
    [ValueError] leaves as it is, any other exception wrapped in a
    [RuntimeError] that carries its text; so does a conflict when
    [auto_retry_on_conflict] is off. *)
Theorem failure_without_retry
    (key : dict -> option Z -> string) (now : Server -> Z)
    (pages : nat -> json) (e : exn)
    (docs : nat -> ADFDocument) (titles versions : nat -> json)
    (page_id : string) (operations : list UpdateOperation)
    (validate_before_update create_backup auto_retry_on_conflict : bool)
    (n : Z) (b : backups) :
  0 <= n ->
  page_id <> "" ->
  operations <> [] ->
  is_conflict e && auto_retry_on_conflict = false ->
  (forall k, fetched_as (pages k) (docs k) (titles k) (versions k)) ->
  exists b',
    update_page_preserving_formatting key (serve_page pages) (fail_write e)
      now true page_id operations validate_before_update create_backup
      auto_retry_on_conflict n b fresh_server
    = (Raise (surfaced e), b',
       mkServer 1
         (round key page_id operations (docs 0%nat) (titles 0%nat)
            (versions 0%nat))).
Proof.
  intros Hn Hid Hops Hc Hr.
  unfold update_page_preserving_formatting.
  apply String.eqb_neq in Hid. rewrite Hid.
  destruct operations as [|op rest]; [congruence|]. cbn [negb].
  replace (Z.to_nat (n + 1)) with (S (Z.to_nat n)) by lia.
  cbn [retry_loop].
  replace (0 <=? n) with true by (symmetry; apply Z.leb_le; lia).
  destruct (@attempt_to_write key now pages (fail_write e) docs titles
              versions page_id (op :: rest) validate_before_update
              create_backup Hr 0 b 0%nat []) as (r & Ha & _).
  unfold fresh_server. rewrite Ha. unfold fail_write.
  cbn [fetches journal app].
  eexists. unfold surfaced, is_conflict in *.
  destruct (is_value_error e); cbn [andb] in *; [|reflexivity].
  destruct (contains "conflict" (lower (str_exn e))); cbn [andb] in *;
    [|reflexivity].
  rewrite Hc. reflexivity.
Qed.

Lemma failure_without_retry_witness :
  let page (k : nat) :=
    JObj [("title", JStr "Home");
          ("version", JObj [("number", JNum (Z.of_nat k + 7))]);
          ("body", JObj [("atlas_doc_format", raw_data hello_document)])] in
  let op := mkOp "update_text" [("text", JStr "Hello")] (JStr "Hi")
                 true true [] in
  exists b' body,
    update_page_preserving_formatting key_by_names (serve_page page)
      (fail_write (ValueError "Permission denied")) (fun _ => 0) true "123"
      [op] true false true 3 [] fresh_server
    = (Raise (ValueError "Permission denied"), b',
       mkServer 1 [Fetched "123"; Written "123" body (JNum 7)]).
Proof.
  intros page op.
  destruct (@failure_without_retry key_by_names (fun _ => 0) page
              (ValueError "Permission denied")
              (fun _ => hello_document) (fun _ => JStr "Home")
              (fun k => JNum (Z.of_nat k + 7)) "123" [op] true false true
              3 [])
    as [b' H].
  - lia.
  - discriminate.
  - discriminate.
  - reflexivity.
  - intros k. repeat split.
  - exists b'. eexists. rewrite H. reflexivity.
Defined.

(* ================================================================= *)
(** ** Success after conflicts *)

Lemma writes_in_app a b : writes_in (a ++ b) = (writes_in a + writes_in b)%nat.
Proof. unfold writes_in. now rewrite filter_app, length_app. Qed.

Lemma restore_head id d b : _restore_from_backup id ((id, d) :: b) = Some d.
Proof. cbn. now rewrite String.eqb_refl. Qed.

Section FlakyClient.
Variable key : dict -> option Z -> string.
Variable now : Server -> Z.
Variable pages : nat -> json.
Variable complaint : string.
Variable answer : json.
Variable docs : nat -> ADFDocument.
Variable titles versions : nat -> json.
Variable page_id : string.
Variable operations : list UpdateOperation.
Variable validate_before_update create_backup : bool.
Variable conflicts : nat.
Variable n : Z.

Hypothesis readable :
  forall k, fetched_as (pages k) (docs k) (titles k) (versions k).
Hypothesis conflict_text : contains "conflict" (lower complaint) = true.
Hypothesis enough_retries : Z.of_nat conflicts <= n.

(** With [m] conflicts still to come the loop makes [m + 1] more
    attempts and the last one succeeds. *)
Lemma flaky_loop (m : nat) :
  forall (rc x : nat) (last_error : option exn) (b : backups)
         (jr : list event),
    writes_in jr = rc ->
    (rc + m = conflicts)%nat ->
    exists r b',
      retry_loop key (serve_page pages)
        (flaky_write conflicts complaint answer) now (S (m + x))
        page_id operations validate_before_update create_backup true
        n (Z.of_nat rc) last_error b (mkServer rc jr)
      = (Ok r, b',
         mkServer (rc + S m)
           (jr ++ flat_map
                    (fun i => round key page_id operations (docs i)
                                (titles i) (versions i))
                    (seq rc (S m))))
      /\ ur_retry_count r = Z.of_nat conflicts
      /\ ur_updated_page r = answer
      /\ ur_operations_count r = len operations
      /\ (if create_backup
          then exists id, ur_backup_id r = Some id
                          /\ _restore_from_backup id b' = Some (docs conflicts)
          else ur_backup_id r = None /\ b' = b).
Proof.
  induction m as [|m IH]; intros rc x last_error b jr Hw Hm.
  - destruct (@attempt_to_write key now pages
                (flaky_write conflicts complaint answer) docs titles versions
                page_id operations validate_before_update create_backup
                readable (Z.of_nat rc) b rc jr) as (r & Ha & Hr).
    cbn [retry_loop].
    replace (Z.of_nat rc <=? n) with true by (symmetry; apply Z.leb_le; lia).
    rewrite Ha. unfold flaky_write at 1. cbn [fetches journal].
    rewrite writes_in_app, Hw. cbn [writes_in filter is_write List.length].
    replace (Nat.ltb (rc + 0) conflicts) with false
      by (symmetry; apply Nat.ltb_ge; lia).
    destruct (Hr answer) as (H1 & H2 & H3 & H4).
    eexists _, _. split.
    { rewrite Nat.add_1_r. cbn [seq flat_map]. rewrite app_nil_r.
      unfold round. rewrite <- app_assoc. reflexivity. }
    split; [rewrite H2; f_equal; lia|]. split; [exact H1|].
    split; [exact H3|].
    rewrite H4. destruct create_backup.
    + eexists. split; [reflexivity|]. unfold _create_backup.
      cbn [fst snd]. rewrite restore_head. f_equal. f_equal. lia.
    + split; reflexivity.
  - destruct (@attempt_to_write key now pages
                (flaky_write conflicts complaint answer) docs titles versions
                page_id operations validate_before_update create_backup
                readable (Z.of_nat rc) b rc jr) as (r & Ha & Hr).
    set (b1 := if create_backup
               then snd (_create_backup now page_id (docs rc) b
                           (mkServer (S rc) (jr ++ [Fetched page_id])))
               else b) in *.
    destruct (IH (S rc) x (Some (ValueError complaint)) b1
                (jr ++ round key page_id operations (docs rc) (titles rc)
                         (versions rc)))
      as (r' & b' & Hl & Hc).
    { rewrite writes_in_app, Hw. unfold round. cbn. lia. }
    { lia. }
    exists r', b'. split.
    + change (S (S m + x)) with (S (S (m + x))).
      remember (S (m + x)) as fuel eqn:Ef.
      cbn [retry_loop].
      replace (Z.of_nat rc <=? n) with true
        by (symmetry; apply Z.leb_le; lia).
      rewrite Ha. unfold flaky_write at 1. cbn [fetches journal].
      rewrite writes_in_app, Hw. cbn [writes_in filter is_write List.length].
      replace (Nat.ltb (rc + 0) conflicts) with true
        by (symmetry; apply Nat.ltb_lt; lia).
      cbn [is_value_error str_exn]. rewrite conflict_text. cbn [andb].
      replace (Z.of_nat rc <? n) with true by (symmetry; apply Z.ltb_lt; lia).
      replace (Z.of_nat rc + 1) with (Z.of_nat (S rc)) by lia.
      unfold round in Hl. rewrite <- app_assoc in Hl. cbn [app] in Hl.
      rewrite <- app_assoc. cbn [app]. rewrite Hl.
      replace (S rc + S m)%nat with (rc + S (S m))%nat by lia.
      cbn [seq flat_map]. unfold round. cbn [app]. reflexivity.
    + destruct Hc as (H1 & H2 & H3 & H4). repeat split; try assumption.
      destruct create_backup; [exact H4|].
      destruct H4 as [H4 ->]. split; [exact H4|reflexivity].
Qed.
End FlakyClient.

(** X12.  When the client refuses the first [k] writes with a conflict
    and [k] is at most [max_retries], the update succeeds: it makes
    exactly [k + 1] attempts, each on the page fetched for it, reports
    [retry_count = k], hands back what the accepted write returned, and
    counts one applied-operation entry for each operation. *)
Theorem success_after_conflicts
    (key : dict -> option Z -> string) (now : Server -> Z)
    (pages : nat -> json) (complaint : string) (answer : json)
    (docs : nat -> ADFDocument) (titles versions : nat -> json)
    (page_id : string) (operations : list UpdateOperation)
    (validate_before_update create_backup : bool) (k : nat) (n : Z)
    (b : backups) :
  Z.of_nat k <= n ->
  page_id <> "" ->
  operations <> [] ->
  contains "conflict" (lower complaint) = true ->
  (forall i, fetched_as (pages i) (docs i) (titles i) (versions i)) ->
  exists r b',
    update_page_preserving_formatting key (serve_page pages)
      (flaky_write k complaint answer) now true page_id operations
      validate_before_update create_backup true n b fresh_server
    = (Ok r, b',
       mkServer (k + 1)
         (flat_map
            (fun i => round key page_id operations
                        (docs i) (titles i) (versions i))
            (seq 0 (k + 1))))
    /\ ur_retry_count r = Z.of_nat k
    /\ ur_updated_page r = answer
    /\ ur_operations_count r = len operations.
Proof.
  intros Hn Hid Hops Hc Hr.
  unfold update_page_preserving_formatting.
  apply String.eqb_neq in Hid. rewrite Hid.
  destruct operations as [|op rest] eqn:Eo; [congruence|]. cbn [negb].
  rewrite <- Eo in *.
  replace (Z.to_nat (n + 1)) with (S (k + (Z.to_nat n - k)))%nat by lia.
  destruct (@flaky_loop key now pages complaint answer docs titles versions
              page_id operations validate_before_update create_backup k n
              Hr Hc Hn k 0%nat (Z.to_nat n - k)%nat None b [] eq_refl
              eq_refl)
    as (r & b' & Hl & H1 & H2 & H3 & _).
  exists r, b'. cbn [Nat.add app] in Hl. change (Z.of_nat 0) with 0 in Hl.
  unfold fresh_server. rewrite Hl, Nat.add_1_r.
  repeat split; assumption.
Qed.

Lemma success_after_conflicts_witness :
  let page (i : nat) :=
    JObj [("title", JStr "Home");
          ("version", JObj [("number", JNum (Z.of_nat i + 7))]);
          ("body", JObj [("atlas_doc_format", raw_data hello_document)])] in
  let op := mkOp "update_text" [("text", JStr "Hello")] (JStr "Hi")
                 true true [] in
  exists r b' body0 body1,
    update_page_preserving_formatting key_by_names (serve_page page)
      (flaky_write 1 "Page version conflict" (JStr "saved")) (fun _ => 0)
      true "123" [op] true false true 3 [] fresh_server
    = (Ok r, b',
       mkServer 2 [Fetched "123"; Written "123" body0 (JNum 7);
                   Fetched "123"; Written "123" body1 (JNum 8)])
    /\ ur_retry_count r = 1
    /\ ur_updated_page r = JStr "saved"
    /\ ur_operations_count r = 1.
Proof.
  intros page op.
  destruct (@success_after_conflicts key_by_names (fun _ => 0) page
              "Page version conflict" (JStr "saved")
              (fun _ => hello_document) (fun _ => JStr "Home")
              (fun i => JNum (Z.of_nat i + 7)) "123" [op] true false 1%nat
              3 [])
    as (r & b' & H & H1 & H2 & H3).
  - lia.
  - discriminate.
  - discriminate.
  - reflexivity.
  - intros i. repeat split.
  - exists r, b'. do 2 eexists. rewrite H.
    split; [reflexivity|]. split; [exact H1|]. split; [exact H2|exact H3].
Defined.

(** X13.  The backup that a successful update names in its result
    restores the document as it was parsed from the page fetched for the
    successful attempt, before the operations were applied; without
    [create_backup] the result names no backup and none is stored. *)
Theorem backup_of_successful_update
    (key : dict -> option Z -> string) (now : Server -> Z)
    (pages : nat -> json) (complaint : string) (answer : json)
    (docs : nat -> ADFDocument) (titles versions : nat -> json)
    (page_id : string) (operations : list UpdateOperation)
    (validate_before_update create_backup : bool) (k : nat) (n : Z)
    (b : backups) :
  Z.of_nat k <= n ->
  page_id <> "" ->
  operations <> [] ->
  contains "conflict" (lower complaint) = true ->
  (forall i, fetched_as (pages i) (docs i) (titles i) (versions i)) ->
  exists r b' w',
    update_page_preserving_formatting key (serve_page pages)
      (flaky_write k complaint answer) now true page_id operations
      validate_before_update create_backup true n b fresh_server
    = (Ok r, b', w')
    /\ if create_backup
       then exists id, ur_backup_id r = Some id
                       /\ _restore_from_backup id b' = Some (docs k)
       else ur_backup_id r = None /\ b' = b.
Proof.
  intros Hn Hid Hops Hc Hr.
  unfold update_page_preserving_formatting.
  apply String.eqb_neq in Hid. rewrite Hid.
  destruct operations as [|op rest] eqn:Eo; [congruence|]. cbn [negb].
  rewrite <- Eo in *.
  replace (Z.to_nat (n + 1)) with (S (k + (Z.to_nat n - k)))%nat by lia.
  destruct (@flaky_loop key now pages complaint answer docs titles versions
              page_id operations validate_before_update create_backup k n
              Hr Hc Hn k 0%nat (Z.to_nat n - k)%nat None b [] eq_refl
              eq_refl)
    as (r & b' & Hl & _ & _ & _ & H4).
  exists r, b'. eexists. change (Z.of_nat 0) with 0 in Hl.
  unfold fresh_server. rewrite Hl. split; [reflexivity|exact H4].
Qed.

Lemma backup_of_successful_update_witness :
  let page (i : nat) :=
    JObj [("title", JStr "Home");
          ("version", JObj [("number", JNum (Z.of_nat i + 7))]);
          ("body", JObj [("atlas_doc_format", raw_data hello_document)])] in
  let op := mkOp "update_text" [("text", JStr "Hello")] (JStr "Hi")
                 true true [] in
  exists r b' w',
    update_page_preserving_formatting key_by_names (serve_page page)
      (flaky_write 1 "Page version conflict" (JStr "saved")) (fun _ => 42)
      true "123" [op] true true true 3 [] fresh_server
    = (Ok r, b', w')
    /\ ur_backup_id r = Some "backup_123_42"
    /\ _restore_from_backup "backup_123_42" b' = Some hello_document.
Proof.
  intros page op.
  destruct (@backup_of_successful_update key_by_names (fun _ => 42) page
              "Page version conflict" (JStr "saved")
              (fun _ => hello_document) (fun _ => JStr "Home")
              (fun i => JNum (Z.of_nat i + 7)) "123" [op] true true 1%nat
              3 [])
    as (r & b' & w' & H & id & H1 & H2).
  - lia.
  - discriminate.
  - discriminate.
  - reflexivity.
  - intros i. repeat split.
  - exists r, b', w'. split; [exact H|].
    assert (E : ur_backup_id r = Some "backup_123_42")
      by (vm_compute in H; injection H as <- _ _; reflexivity).
    split; [exact E|]. rewrite E in H1. injection H1 as <-. exact H2.
Defined.

(* ================================================================= *)
(** ** Caller errors *)

(** X14.  An empty page id, an empty list of operations or a writer
    without client is refused with a [ValueError] before anything is
    asked of the client: whatever the client is, its state and the
    backups are as they were. *)
Theorem caller_errors_reach_no_client
    (key : dict -> option Z -> string) (World : Type)
    (get_page_adf : string -> World -> res json * World)
    (update_page_adf : string -> json -> json -> World -> res json * World)
    (time : World -> Z) (has_client : bool) (page_id : string)
    (operations : list UpdateOperation)
    (validate_before_update create_backup auto_retry_on_conflict : bool)
    (max_retries : Z) (b : backups) (w : World) :
  page_id = "" \/ operations = [] \/ has_client = false ->
  exists msg,
    update_page_preserving_formatting key get_page_adf update_page_adf time
      has_client page_id operations validate_before_update create_backup
      auto_retry_on_conflict max_retries b w
    = (Raise (ValueError msg), b, w)
    /\ In msg ["Valid page_id is required";
               "At least one operation is required";
               "Confluence client is required for page updates"].
Proof.
  intros H. unfold update_page_preserving_formatting.
  destruct (String.eqb page_id "") eqn:Ei.
  { eexists. split; [reflexivity|]. cbn. auto. }
  destruct operations as [|op rest].
  { eexists. split; [reflexivity|]. cbn. auto. }
  destruct has_client.
  { exfalso. destruct H as [->|[H|H]]; try discriminate. }
  eexists. split; [reflexivity|]. cbn. auto.
Qed.

Lemma caller_errors_reach_no_client_witness :
  exists msg,
    update_page_preserving_formatting key_by_names
      (serve_page (fun _ => JNull)) (fail_write TypeError) (fun _ => 0)
      true "123" [] true true true 3 [] fresh_server
    = (Raise (ValueError msg), [], fresh_server)
    /\ msg = "At least one operation is required".
Proof.
  destruct (@caller_errors_reach_no_client key_by_names Server
              (serve_page (fun _ => JNull)) (fail_write TypeError)
              (fun _ => 0) true "123" [] true true true 3 [] fresh_server
              (or_intror (or_introl eq_refl))) as (msg & H & _).
  exists msg. split; [exact H|].
  vm_compute in H. now injection H as <-.
Defined.

(* ================================================================= *)
(** ** The verdict of the validator *)

Lemma body_verdict fuel document st0 b st :
  validate_document_body fuel document st0 = (Ok b, st) ->
  b = (len (errors st) =? 0).
Proof.
  unfold validate_document_body, vbind, no_errors. intros E.
  destruct (_validate_root_structure document st0) as [[ok1|] s1];
    [|discriminate].
  destruct ok1; cbn [negb] in E; [|now injection E as <- <-].
  destruct (_validate_version _ s1) as [[ok2|] s2]; [|discriminate].
  destruct ok2; cbn [negb] in E; [|now injection E as <- <-].
  destruct (_validate_document_type _ s2) as [[ok3|] s3]; [|discriminate].
  destruct ok3; cbn [negb] in E; [|now injection E as <- <-].
  destruct (_validate_content_array _ _ _ s3) as [[ok4|] s4]; [|discriminate].
  now injection E as <- <-.
Qed.

(** X15.  [validate_document] answers [True] exactly when, at its end,
    no error is recorded: warnings never decide, and an exception inside
    is recorded as an error. *)
Theorem verdict_is_no_errors (fuel : nat) (document : json) :
  fst (validate_document fuel document) = true
  <-> errors (snd (validate_document fuel document)) = [].
Proof.
  unfold validate_document.
  destruct (validate_document_body fuel document _reset_validation_state)
    as [[b|e] st] eqn:E; cbn [fst snd].
  - rewrite (body_verdict _ _ _ E). unfold len.
    destruct (errors st); cbn; split; intros H; try reflexivity;
      discriminate.
  - unfold _add_error. cbn [String.eqb]. cbn [snd errors].
    split; [discriminate|]. intros H. now destruct (errors st).
Qed.

(* ================================================================= *)
(** ** Errors are only added *)

Lemma grows_ret A (a : A) : grows (vret a).
Proof. intros st. exists []. cbn. now rewrite app_nil_r. Qed.

Lemma grows_lift A (r : res A) : grows (vlift r).
Proof. intros st. exists []. cbn. now rewrite app_nil_r. Qed.

Lemma grows_no_errors : grows no_errors.
Proof. intros st. exists []. cbn. now rewrite app_nil_r. Qed.

Lemma grows_set_depth (f : VState -> Z) :
  grows (fun st => set_depth (f st) st).
Proof. intros st. exists []. cbn. now rewrite app_nil_r. Qed.

Lemma grows_add_error path msg severity :
  grows (_add_error path msg severity).
Proof.
  intros st. unfold _add_error. destruct (String.eqb severity "error");
    cbn [snd errors]; [eexists; reflexivity|].
  exists []. now rewrite app_nil_r.
Qed.

Lemma grows_bind A B (m : VM A) (k : A -> VM B) :
  grows m -> (forall a, grows (k a)) -> grows (vbind m k).
Proof.
  intros Hm Hk st. unfold vbind. destruct (Hm st) as [m1 H1].
  destruct (m st) as [[a|e] st'] eqn:E; cbn [snd] in *.
  - destruct (Hk a st') as [m2 H2]. exists (m1 ++ m2).
    now rewrite H2, H1, app_assoc.
  - now exists m1.
Qed.

Ltac grows_step :=
  first
    [ apply grows_ret
    | apply grows_no_errors
    | apply grows_lift
    | apply grows_add_error
    | apply grows_bind; [|intros ?]
    | progress cbv zeta
    | match goal with
      | |- grows (if ?b then _ else _) => destruct b
      | |- grows (match ?x with _ => _ end) => destruct x
      end ].

Ltac grows_auto := repeat grows_step.

Lemma grows_node_type t path : grows (_validate_node_type t path).
Proof. unfold _validate_node_type. grows_auto. Qed.

Lemma grows_attributes a path : grows (_validate_attributes a path).
Proof.
  unfold _validate_attributes, _validate_node_specific_attrs, _add_warning.
  grows_auto.
Qed.

Lemma grows_mark_attributes m path : grows (_validate_mark_attributes m path).
Proof. unfold _validate_mark_attributes. grows_auto. Qed.

Lemma grows_marks m path : grows (_validate_marks m path).
Proof.
  unfold _validate_marks. destruct m as [| | | |l|]; try solve [grows_auto].
  induction l as [|mark rest IH]; cbn [_validate_marks_loop]; [grows_auto|].
  destruct mark; try solve [grows_auto].
  destruct (negb _); [grows_auto|].
  apply grows_bind; [grows_auto|intros known].
  destruct (negb known); [grows_auto|].
  apply grows_bind; [apply grows_mark_attributes|intros ok].
  destruct (negb ok); [grows_auto|exact IH].
Qed.

Lemma grows_text t path : grows (_validate_text_content t path).
Proof. unfold _validate_text_content, _add_warning. grows_auto. Qed.

Lemma grows_cells cells path i next :
  grows next -> forall j, grows (_validate_cells cells path i j next).
Proof.
  intros Hn. induction cells as [|cell rest IH]; intros j;
    cbn [_validate_cells]; [exact Hn|].
  destruct cell; try solve [grows_auto].
  destruct (negb _); [grows_auto|apply IH].
Qed.

Lemma grows_rows rows path : forall i, grows (_validate_rows rows path i).
Proof.
  induction rows as [|row rest IH]; intros i; cbn [_validate_rows];
    [grows_auto|].
  destruct row; try solve [grows_auto].
  destruct (negb _); [grows_auto|].
  apply grows_bind; [grows_auto|intros cells]. apply grows_cells. apply IH.
Qed.

Lemma grows_node_specific node path : grows (_validate_node_specific node path).
Proof.
  unfold _validate_node_specific. cbv zeta.
  destruct (py_eq _ _).
  { unfold _validate_heading_node. grows_auto. }
  destruct (py_eq _ _).
  { unfold _validate_panel_node. grows_auto. }
  destruct (py_eq _ _).
  { unfold _validate_table_node, _add_warning. cbv zeta.
    destruct (negb _); [grows_auto|].
    apply grows_bind; [grows_auto|intros rows]. apply grows_rows. }
  destruct (_ || _); [|grows_auto].
  unfold _validate_extension_node. grows_auto.
Qed.

Section GrowingNodes.
Variable content_array : json -> list Z -> VM bool.
Hypothesis grows_content : forall c path, grows (content_array c path).

Lemma grows_when_present k node check all_valid :
  (forall v, grows (check v)) ->
  grows (when_present k node check all_valid).
Proof. intros H. unfold when_present. grows_auto. apply H. Qed.

Lemma grows_node_structure node path :
  grows (_validate_node_structure content_array node path).
Proof.
  unfold _validate_node_structure.
  apply grows_bind;
    [apply grows_when_present; intros; apply grows_attributes|intros v1].
  apply grows_bind;
    [apply grows_when_present; intros; apply grows_marks|intros v2].
  apply grows_bind;
    [apply grows_when_present; intros; apply grows_text|intros v3].
  apply grows_bind;
    [apply grows_when_present; intros; apply grows_content|intros v4].
  apply grows_bind; [apply grows_node_specific|intros ok]. apply grows_ret.
Qed.

Lemma grows_validate_node node path :
  grows (validate_node content_array node path).
Proof.
  unfold validate_node.
  destruct node as [| | | | |fs]; try solve [grows_auto].
  cbv zeta. destruct (negb _); [grows_auto|].
  apply grows_bind; [apply grows_node_type|intros known].
  destruct (negb known); [grows_auto|].
  apply grows_bind; [apply grows_node_structure|intros]. apply grows_no_errors.
Qed.

Lemma grows_validate_nodes items path : forall i all_valid,
  grows (validate_nodes content_array items path i all_valid).
Proof.
  induction items as [|node rest IH]; intros i av; cbn [validate_nodes];
    [apply grows_ret|].
  apply grows_bind; [apply grows_validate_node|intros ok]. apply IH.
Qed.
End GrowingNodes.

Lemma grows_content_array fuel : forall content path,
  grows (_validate_content_array fuel content path).
Proof.
  induction fuel as [|fuel IH]; intros content path;
    cbn [_validate_content_array].
  - intros st. exists []. cbn. now rewrite app_nil_r.
  - destruct content as [| | | |items|]; try solve [grows_auto].
    intros st. destruct (current_depth st >? MAX_DEPTH).
    + revert st. grows_auto.
    + assert (G : grows
                    (set_depth (current_depth st + 1) ;;;
                     all_valid <~ validate_nodes
                                    (_validate_content_array fuel) items path
                                    0 true ;;
                     (fun st' => set_depth (current_depth st' - 1) st') ;;;
                     vret all_valid)).
      { apply grows_bind;
          [apply (grows_set_depth (fun _ => current_depth st + 1))|intros].
        apply grows_bind; [now apply grows_validate_nodes|intros av].
        apply grows_bind;
          [apply (grows_set_depth (fun s => current_depth s - 1))|intros].
        apply grows_ret. }
      apply G.
Qed.

(* ================================================================= *)
(** ** What a clean run has checked *)

Lemma clean_bind_inv A B (m : VM A) (k : A -> VM B) st :
  (forall a, grows (k a)) ->
  clean (vbind m k) st ->
  exists a, fst (m st) = Ok a
            /\ errors (snd (m st)) = []
            /\ clean (k a) (snd (m st)).
Proof.
  intros Hk [[b Hb] He]. unfold vbind in *.
  destruct (m st) as [[a|e] st1]; cbn [fst snd] in *; [|discriminate].
  exists a. split; [reflexivity|].
  destruct (Hk a st1) as [more Hm]. rewrite He in Hm.
  symmetry in Hm. apply app_eq_nil in Hm as [Hm _].
  split; [exact Hm|]. split; [now exists b|exact He].
Qed.

Lemma not_clean_error A path msg (a : A) st :
  ~ clean (_add_error path msg "error" ;;; vret a) st.
Proof.
  intros [_ He]. unfold vbind, _add_error, vret in He.
  cbn in He. now destruct (errors st).
Qed.

Lemma clean_attributes a path st :
  clean (_validate_attributes a path) st -> is_dict a = true.
Proof.
  destruct a; try reflexivity; intros H; cbn [_validate_attributes] in H;
    now apply not_clean_error in H.
Qed.

Lemma clean_marks m path st :
  clean (_validate_marks m path) st -> exists l, m = JArr l.
Proof.
  destruct m as [| | | |l|]; try (now exists l); intros H;
    cbn [_validate_marks] in H; now apply not_clean_error in H.
Qed.

Lemma clean_text t path st :
  clean (_validate_text_content t path) st -> exists s, t = JStr s.
Proof.
  destruct t as [| | |s| |]; try (now exists s); intros H;
    cbn [_validate_text_content] in H; now apply not_clean_error in H.
Qed.

Lemma clean_node_type t path st :
  clean (_validate_node_type t path) st ->
  exists s, t = JStr s /\ str_in s NODE_TYPES = true
            /\ fst (_validate_node_type t path st) = Ok true.
Proof.
  unfold _validate_node_type. intros H.
  apply clean_bind_inv in H; [|intros known; grows_auto].
  destruct H as (known & Hk & _ & Hc). cbn [vlift fst snd] in *.
  destruct known; cbn [negb] in Hc; [|now apply not_clean_error in Hc].
  destruct t as [| | |s| |]; try discriminate.
  exists s. split; [reflexivity|].
  split; [unfold key_in in Hk; congruence|].
  unfold vbind, vlift. now rewrite Hk.
Qed.

Section CleanNodes.
Variable content_array : json -> list Z -> VM bool.
Hypothesis grows_content : forall c path, grows (content_array c path).
Hypothesis clean_content :
  forall c path st, clean (content_array c path) st -> wf_content c.

Lemma clean_when_present k node check all_valid st :
  (forall v, grows (check v)) ->
  clean (when_present k node check all_valid) st ->
  forall v, dict_get k node = Some v -> clean (check v) st.
Proof.
  intros Hg H v Hv. unfold when_present in H. rewrite Hv in H.
  apply clean_bind_inv in H; [|intros; apply grows_ret].
  destruct H as (ok & H1 & H2 & _). split; [now exists ok|exact H2].
Qed.

Lemma clean_step A B (m : VM A) (k : A -> VM B) st :
  (forall a, grows (k a)) ->
  clean (vbind m k) st ->
  clean m st /\ exists a, clean (k a) (snd (m st)).
Proof.
  intros Hk H. destruct (clean_bind_inv Hk H) as (a & H1 & H2 & H3).
  split; [split; [now exists a|exact H2]|now exists a].
Qed.

Ltac grows_tail :=
  intros;
  repeat first
    [ apply grows_ret
    | apply grows_no_errors
    | apply grows_attributes
    | apply grows_marks
    | apply grows_text
    | apply grows_content
    | apply grows_node_specific
    | apply grows_when_present; intros
    | apply grows_bind; [|intros] ].

Lemma clean_node_structure node path st :
  clean (_validate_node_structure content_array node path) st ->
  (forall a, dict_get "attrs" node = Some a -> is_dict a = true)
  /\ (forall m, dict_get "marks" node = Some m -> exists l, m = JArr l)
  /\ (forall x, dict_get "text" node = Some x -> exists s, x = JStr s)
  /\ (forall c, dict_get "content" node = Some c -> wf_content c).
Proof.
  unfold _validate_node_structure. intros H.
  apply clean_step in H; [|grows_tail]. destruct H as [H1 [v1 H]].
  apply clean_step in H; [|grows_tail]. destruct H as [H2 [v2 H]].
  apply clean_step in H; [|grows_tail]. destruct H as [H3 [v3 H]].
  apply clean_step in H; [|grows_tail]. destruct H as [H4 _].
  split; [|split; [|split]].
  - intros a Ha. eapply clean_attributes.
    apply (@clean_when_present _ _ _ _ _
             (fun a => grows_attributes a path) H1 _ Ha).
  - intros m Hm. eapply clean_marks.
    apply (@clean_when_present _ _ _ _ _
             (fun m => grows_marks m path) H2 _ Hm).
  - intros x Hx. eapply clean_text.
    apply (@clean_when_present _ _ _ _ _
             (fun t => grows_text t path) H3 _ Hx).
  - intros c Hc. eapply clean_content.
    apply (@clean_when_present _ _ _ _ _
             (fun c => grows_content c path) H4 _ Hc).
Qed.

Lemma clean_validate_node node path st :
  clean (validate_node content_array node path) st -> wf_node node.
Proof.
  unfold validate_node.
  destruct node as [| | | | |d]; intros H;
    try (now apply not_clean_error in H).
  cbv zeta in H.
  destruct (negb (truthy (or_null (dict_get "type" d))));
    [now apply not_clean_error in H|].
  apply clean_bind_inv in H.
  2:{ intros known. destruct (negb known); [apply grows_ret|].
      apply grows_bind; [now apply grows_node_structure|intros].
      apply grows_no_errors. }
  destruct H as (known & Hk1 & He & H).
  assert (Ht : clean (_validate_node_type (or_null (dict_get "type" d)) path)
                     st)
    by (split; [now exists known|exact He]).
  destruct (clean_node_type Ht) as (s & Hs & Hin & Hk).
  rewrite Hk in Hk1. injection Hk1 as <-. cbn [negb] in H.
  assert (Hty : dict_get "type" d = Some (JStr s))
    by (destruct (dict_get "type" d); cbn [or_null] in Hs;
        [now rewrite Hs|discriminate]).
  apply clean_step in H; [|intros; apply grows_no_errors].
  destruct H as [Hs' _].
  destruct (clean_node_structure Hs') as (Ha & Hm & Hx & Hc).
  now apply (wf_node_intro d Hty Hin Ha Hm Hx).
Qed.
End CleanNodes.

Lemma clean_validate_nodes content_array items :
  (forall c path, grows (content_array c path)) ->
  (forall c path st, clean (content_array c path) st -> wf_content c) ->
  forall path i all_valid st,
    clean (validate_nodes content_array items path i all_valid) st ->
    Forall wf_node items.
Proof.
  intros Hg Hc. induction items as [|node rest IH]; intros path i av st H;
    [constructor|].
  cbn [validate_nodes] in H.
  apply clean_bind_inv in H; [|intros; now apply grows_validate_nodes].
  destruct H as (ok & H1 & H2 & H3).
  constructor.
  - apply (@clean_validate_node content_array Hg Hc node (path ++ [i]) st).
    split; [now exists ok|exact H2].
  - eapply IH; exact H3.
Qed.

Lemma clean_content_array fuel : forall content path st,
  clean (_validate_content_array fuel content path) st -> wf_content content.
Proof.
  induction fuel as [|fuel IH]; intros content path st H;
    cbn [_validate_content_array] in H.
  - destruct H as [[a Ha] _]. discriminate.
  - destruct content as [| | | |items|];
      try (now apply not_clean_error in H).
    exists items. split; [reflexivity|].
    unfold clean in H. destruct (current_depth st >? MAX_DEPTH).
    + now apply not_clean_error in H.
    + change (clean
                (set_depth (current_depth st + 1) ;;;
                 all_valid <~ validate_nodes (_validate_content_array fuel)
                                items path 0 true ;;
                 (fun st' => set_depth (current_depth st' - 1) st') ;;;
                 vret all_valid) st) in H.
      apply clean_bind_inv in H.
      2:{ intros. apply grows_bind;
            [apply grows_validate_nodes; apply grows_content_array|intros].
          apply grows_bind;
            [apply (grows_set_depth (fun s => current_depth s - 1))|intros].
          apply grows_ret. }
      destruct H as (u & _ & _ & H).
      apply clean_bind_inv in H.
      2:{ intros. apply grows_bind;
            [apply (grows_set_depth (fun s => current_depth s - 1))|intros].
          apply grows_ret. }
      destruct H as (av & H1 & H2 & _).
      eapply (@clean_validate_nodes (_validate_content_array fuel) items
                (grows_content_array fuel) IH).
      split; [exists av; exact H1|exact H2].
Qed.

(** X16.  What a [True] of the validator guarantees: the document is a
    dictionary with version [1] and type ["doc"] whose content is a
    list, and every node of the tree, at every depth, is a dictionary
    with a type of [NODE_TYPES], with [attrs], [marks] and [text] (where
    present) a dictionary, a list and a string, and with [content] (where
    present) a list of such nodes. *)
Theorem valid_documents_are_well_formed (fuel : nat) (document : json) :
  fst (validate_document fuel document) = true ->
  exists d items,
    document = JObj d
    /\ py_eq (or_null (dict_get "version" d)) (JNum ADF_VERSION) = true
    /\ py_eq (or_null (dict_get "type" d)) (JStr ADF_DOCUMENT_TYPE) = true
    /\ dict_get "content" d = Some (JArr items)
    /\ Forall wf_node items.
Proof.
  unfold validate_document.
  destruct (validate_document_body fuel document _reset_validation_state)
    as [[b|e] st] eqn:E; cbn [fst]; [|discriminate].
  intros ->. pose proof (body_verdict _ _ _ E) as Hv.
  assert (He : errors st = [])
    by (unfold len in Hv; destruct (errors st); [reflexivity|discriminate]).
  unfold validate_document_body, vbind in E.
  destruct document as [| | | | |d];
    try (cbn in E; injection E as E1 E2; discriminate).
  cbn [_validate_root_structure doc_fields] in E.
  destruct (dict_has "version" d) eqn:Dv; cbn [negb] in E;
    [|cbn in E; injection E as E1 E2; discriminate].
  destruct (dict_has "type" d) eqn:Dt; cbn [negb] in E;
    [|cbn in E; injection E as E1 E2; discriminate].
  destruct (dict_has "content" d) eqn:Dc; cbn [negb] in E;
    [|cbn in E; injection E as E1 E2; discriminate].
  cbn [vret] in E. unfold _validate_version in E.
  destruct (py_eq (or_null (dict_get "version" d)) (JNum ADF_VERSION))
    eqn:Pv; cbn [negb] in E;
    [|cbn in E; injection E as E1 E2; discriminate].
  cbn [vret] in E. unfold _validate_document_type in E.
  destruct (py_eq (or_null (dict_get "type" d)) (JStr ADF_DOCUMENT_TYPE))
    eqn:Pt; cbn [negb] in E;
    [|cbn in E; injection E as E1 E2; discriminate].
  cbn [vret negb] in E. cbv beta iota in E.
  destruct (_validate_content_array fuel _ [] _reset_validation_state)
    as [[ok|] st1] eqn:Ec; [|discriminate].
  unfold no_errors in E. injection E as _ E. subst st1.
  assert (Hc : clean (_validate_content_array fuel
                        (match dict_get "content" d with
                         | Some c => c
                         | None => JArr []
                         end) [])
                     _reset_validation_state)
    by (unfold clean; rewrite Ec; split; [now exists ok|exact He]).
  apply clean_content_array in Hc. destruct Hc as (items & Hi & Hw).
  unfold dict_has in Dc.
  destruct (dict_get "content" d) as [c|] eqn:Dg; [|discriminate]. subst c.
  exists d, items. repeat split; assumption.
Qed.

Lemma valid_documents_are_well_formed_witness :
  exists d items,
    raw_data hello_document = JObj d
    /\ py_eq (or_null (dict_get "version" d)) (JNum ADF_VERSION) = true
    /\ py_eq (or_null (dict_get "type" d)) (JStr ADF_DOCUMENT_TYPE) = true
    /\ dict_get "content" d = Some (JArr items)
    /\ Forall wf_node items.
Proof.
  exact (@valid_documents_are_well_formed enough_fuel
           (raw_data hello_document) eq_refl).
Defined.

(* ================================================================= *)
(** ** Searching by index *)

(** X17.  A search whose only criterion is an integer index looks at the
    top level only: it returns the one top-level node at that index, for
    index 0 too, and nothing (without raising) for a negative index or
    one past the end. *)
Theorem index_search_is_top_level (key : dict -> option Z -> string)
    (d : ADFDocument) (k : Z) (include_context : bool) :
  find_element_in_adf key d [("index", JNum k)] None include_context
  = Ok (match (if 0 <=? k
               then nth_error (doc_content (model d)) (Z.to_nat k)
               else None) with
        | Some n => [node_result (node_text n) [k] k n]
        | None => []
        end).
Proof.
  unfold find_element_in_adf, find_elements. cbn [cache_get].
  change (choose [("index", JNum k)]) with ByIndex.
  cbn [run_strategy].
  change (or_null (dict_get "index" [("index", JNum k)])) with (JNum k).
  unfold _search_by_index, find_by_index_recursive.
  change (1 =? 1) with true. cbv iota. cbn [as_int bind].
  destruct (0 <=? k) eqn:E0; cbn [andb].
  - destruct (k <? len (doc_content (model d))) eqn:E1.
    + destruct (nth_error _ _) as [n|]; cbn [bind app];
        destruct include_context; reflexivity.
    + apply Z.ltb_ge in E1. apply Z.leb_le in E0.
      replace (nth_error (doc_content (model d)) (Z.to_nat k)) with (@None Node)
        by (symmetry; apply nth_error_None; unfold len in E1; lia).
      cbn [bind]. destruct include_context; reflexivity.
  - cbn [bind]. destruct include_context; reflexivity.
Qed.

(* ================================================================= *)
(** ** The search of the document itself *)

Lemma get_body_ok_element d path n :
  get_body (Some (doc_content (model d))) path = Ok (Some n) ->
  _get_element_at_path d path = Ok (Some n).
Proof.
  intros H. unfold _get_element_at_path. now rewrite get_node_by_path_body, H.
Qed.

Lemma reported_parent_deep d a b r g :
  get_body (Some (doc_content (model d))) (removelast (a :: b :: r))
  = Ok (Some g) ->
  Document.reported_parent d (a :: b :: r) = Ok (Some (node_dump g)).
Proof.
  intros H. unfold Document.reported_parent.
  now rewrite get_node_by_path_body, H.
Qed.

Lemma reported_parent_total d p n :
  get_body (Some (doc_content (model d))) p = Ok (Some n) ->
  exists o,
    Document.reported_parent d (removelast p) = Ok o
    /\ match p with
       | [] => False
       | [_] => o = None
       | [_; _] => o = Some (doc_dump (model d))
       | _ =>
           exists g,
             _get_element_at_path d (removelast (removelast p)) = Ok (Some g)
             /\ o = Some (node_dump g)
       end.
Proof.
  intros H. destruct p as [|a [|b [|c r]]].
  - discriminate.
  - eexists. split; reflexivity.
  - eexists. split; reflexivity.
  - assert (E : removelast (a :: b :: c :: r) = a :: b :: removelast (c :: r))
      by (now rewrite !removelast_cons).
    destruct (get_body_parent _ _ _ _ H) as [par Hp]. rewrite E in Hp.
    destruct (get_body_parent _ _ _ _ Hp) as [g Hg].
    exists (Some (node_dump g)). rewrite E. split.
    + now apply reported_parent_deep.
    + exists g. split; [|reflexivity]. now apply get_body_ok_element.
Qed.

Lemma walk_bodies d :
  Forall (fun x => get_body (Some (doc_content (model d))) (fst (fst x))
                   = Ok (Some (snd x)))
         (walk (doc_content (model d)) []).
Proof.
  eapply Forall_impl; [|apply walk_addresses].
  intros [[p i] n] (q & Hp & Hn & _). cbn [fst snd] in *. subst p.
  now apply get_body_node_at.
Qed.

(** X18.  In a result of [ADFDocument.find_elements] the [parent] is not
    the parent of the node found: it is [None] for a top-level node, the
    dump of the whole document model for a node one level down, and for
    every deeper node the dump of the node two levels up its path. *)
Theorem document_find_reports_grandparent (d : ADFDocument)
    (criteria : dict) (rs : list SearchResult) :
  Document.find_elements d criteria = Ok rs ->
  Forall (parent_as_reported d) rs.
Proof.
  unfold Document.find_elements, Document._find_elements_recursive, traverse.
  rewrite traverse_walk. apply collect_Forall. apply Forall_flat_map.
  eapply Forall_impl; [|apply walk_bodies].
  intros [[p i] n] Hx. cbn [fst snd] in *.
  constructor; [|constructor]. intros xs H. unfold Document.found in H.
  destruct (Document._node_matches_criteria n criteria) as [b|];
    [|discriminate].
  cbn [bind] in H. destruct b; [|injection H as <-; constructor].
  destruct (reported_parent_total d _ Hx) as (o & Ho & Hm).
  rewrite Ho in H. cbn [bind] in H. injection H as <-.
  constructor; [|constructor].
  unfold parent_as_reported. cbn [sr_path ep_path sr_parent].
  destruct p as [|a [|b [|c r]]]; assumption.
Qed.

Lemma document_find_reports_grandparent_witness :
  exists r,
    Document.find_elements hello_document [("text", JStr "hello")] = Ok [r]
    /\ ep_path (sr_path r) = [0; 0]
    /\ sr_parent r = Some (doc_dump (model hello_document)).
Proof.
  destruct (Document.find_elements hello_document [("text", JStr "hello")])
    as [rs|] eqn:E; [|discriminate E].
  pose proof (@document_find_reports_grandparent hello_document
                [("text", JStr "hello")] rs E) as H.
  vm_compute in E. injection E as <-.
  eexists. split; [reflexivity|]. split; [reflexivity|].
  inversion H as [|? ? H1 _]. exact H1.
Defined.

Lemma collect_singletons A B (f : B -> res (list A)) (g : A -> ElementPath)
    (e : B -> ElementPath) (l : list B) :
  Forall (fun x => exists r, f x = Ok [r] /\ g r = e x) l ->
  exists rs, collect (flat_map (fun x => [f x]) l) = Ok rs
             /\ map g rs = map e l.
Proof.
  induction 1 as [|x l (r & Hf & Hg) _ (rs & IH1 & IH2)].
  - now exists [].
  - exists (r :: rs). cbn [flat_map app collect map].
    rewrite Hf, IH1, Hg, IH2. split; reflexivity.
Qed.

(** X19.  With empty criteria [ADFDocument.find_elements] does not raise
    and returns every node of the document once, in the order of the
    element map and with the same paths. *)
Theorem document_find_all (d : ADFDocument) :
  exists rs,
    Document.find_elements d [] = Ok rs
    /\ map sr_path rs = _build_element_map (model d).
Proof.
  unfold Document.find_elements, Document._find_elements_recursive,
    _build_element_map, traverse.
  rewrite (traverse_walk (fun p _ n => [mkEP p (node_type n) (node_text n)])).
  rewrite traverse_walk.
  destruct (@collect_singletons _ _
              (fun x => Document.found d [] (fst (fst x)) (snd (fst x)) (snd x))
              sr_path
              (fun x => mkEP (fst (fst x)) (node_type (snd x))
                             (node_text (snd x)))
              (traverse_from (fun p i n => [(p, i, n)]) [] 0
                 (doc_content (model d))))
    as (rs & H1 & H2).
  { eapply Forall_impl; [|apply walk_bodies].
    intros [[p i] n] Hx. cbn [fst snd] in *.
    destruct (reported_parent_total d _ Hx) as (o & Ho & _).
    unfold Document.found. cbn [Document._node_matches_criteria dict_get bind negb].
    rewrite Ho. cbn [bind]. eexists. split; reflexivity. }
  exists rs. split; [exact H1|]. rewrite H2.
  clear. induction (traverse_from _ _ _ _) as [|x l IH]; [reflexivity|].
  cbn [map flat_map app]. now rewrite IH.
Qed.

(* ================================================================= *)
(** ** [update_text] on all the targets of a search *)

Lemma path_eqb_eq a : forall b, path_eqb a b = true <-> a = b.
Proof.
  induction a as [|x a IH]; intros [|y b]; cbn; split; intros H;
    try reflexivity; try discriminate.
  - apply andb_prop in H as [H1 H2]. apply Z.eqb_eq in H1.
    apply IH in H2. now subst.
  - injection H as -> ->. rewrite Z.eqb_refl. now apply IH.
Qed.

Lemma map_of_nat_inj q : forall q', map Z.of_nat q = map Z.of_nat q' -> q = q'.
Proof.
  induction q as [|x q IH]; intros [|y q'] H; try discriminate;
    [reflexivity|].
  cbn in H. injection H as H1 H2. apply Nat2Z.inj in H1.
  f_equal; auto.
Qed.

Lemma targeted_app a b q : targeted (a ++ b) q = targeted a q || targeted b q.
Proof. unfold targeted. apply existsb_app. Qed.

Lemma targeted_one r q qr :
  ep_path (sr_path r) = map Z.of_nat qr ->
  targeted [r] q = true <-> q = qr.
Proof.
  intros Hp. unfold targeted. cbn [existsb]. rewrite orb_false_r, Hp.
  rewrite path_eqb_eq. split; [intros H; symmetry; now apply map_of_nat_inj|].
  now intros ->.
Qed.

Lemma dispatch_update_text d r op :
  operation_type op = "update_text" ->
  dispatch d r op = _apply_update_text_operation d r op.
Proof. intros H. unfold dispatch. rewrite H. reflexivity. Qed.

Section UpdateTextLoop.
Variable op : UpdateOperation.
Variable s : string.
Variable c0 : list Node.
Hypothesis op_type : operation_type op = "update_text".
Hypothesis op_text : op_new_content op = JStr s.

(** One target: the tree goes from one that is retexted for the targets
    done to one that is retexted for one target more. *)
Lemma update_text_step done d r qr n0 :
  ep_path (sr_path r) = map Z.of_nat qr ->
  node_at c0 qr = Some n0 ->
  ep_type (sr_path r) = node_type n0 ->
  retexted done s c0 (doc_content (model d)) ->
  exists d',
    dispatch d r op = (Ok (if is_text r then 1 else 0), d')
    /\ retexted (done ++ [r]) s c0 (doc_content (model d')).
Proof.
  intros Hp Hn Ht Hinv. rewrite (@dispatch_update_text d r op op_type).
  destruct (Hinv qr) as [Hf _]. rewrite Hn in Hf. cbn [option_map] in Hf.
  destruct (node_at (doc_content (model d)) qr) as [nk|] eqn:Ek;
    [|discriminate].
  cbn [option_map] in Hf. injection Hf as Hf.
  assert (Htk : node_type nk = node_type n0)
    by (unfold other_fields in Hf; congruence).
  unfold _apply_update_text_operation. cbv zeta. rewrite Hp.
  rewrite (proj2 (get_element_node_at d qr nk) Ek).
  unfold is_text. rewrite Ht, Htk.
  destruct (String.eqb (node_type n0) "text") eqn:Et; cbn [negb].
  - rewrite op_text. cbn [assign_text]. eexists. split; [reflexivity|].
    unfold mutate_node. cbn [model set_doc_content doc_content].
    rewrite (@modify_parent_update_at (set_text (Some s))
               (last (map Z.of_nat qr) 0) qr _ nk Ek eq_refl).
    intros q.
    destruct (@update_at_frame (set_text (Some s))
                (fun n => eq_refl) (fun n => eq_refl) qr
                (doc_content (model d)) q) as [F1 F2].
    destruct (Hinv q) as [I1 I2].
    split; [now rewrite F1|].
    intros n Hq. rewrite targeted_app.
    destruct (list_eq_dec Nat.eq_dec q qr) as [->|Hne].
    + rewrite (update_at_hit (set_text (Some s)) _ _ Ek).
      cbn [option_map set_text node_text].
      rewrite Hn in Hq. injection Hq as <-.
      rewrite (proj2 (@targeted_one r qr qr Hp) eq_refl), orb_true_r, Et.
      reflexivity.
    + rewrite (F2 Hne), (I2 n Hq).
      replace (targeted [r] q) with false; [now rewrite orb_false_r|].
      symmetry. apply not_true_is_false. intros C.
      apply (@targeted_one r q qr Hp) in C. contradiction.
  - exists d. split; [reflexivity|]. intros q.
    destruct (Hinv q) as [I1 I2]. split; [exact I1|].
    intros n Hq. rewrite (I2 n Hq), targeted_app.
    destruct (targeted [r] q) eqn:Eq; [|now rewrite orb_false_r].
    apply (@targeted_one r q qr Hp) in Eq. subst q.
    rewrite Hn in Hq. injection Hq as <-. rewrite Et.
    now rewrite !andb_false_r.
Qed.

Lemma update_text_loop targets : forall done d acc,
  Forall (fun r => exists q n,
                     ep_path (sr_path r) = map Z.of_nat q
                     /\ node_at c0 q = Some n
                     /\ ep_type (sr_path r) = node_type n) targets ->
  retexted done s c0 (doc_content (model d)) ->
  0 <= acc ->
  (acc >? 0) = existsb is_text done ->
  exists cnt d',
    apply_to_targets targets op d acc = (cnt, d')
    /\ retexted (done ++ targets) s c0 (doc_content (model d'))
    /\ (cnt >? 0) = existsb is_text (done ++ targets).
Proof.
  induction targets as [|r rest IH]; intros done d acc HF Hinv Ha Hc.
  - exists acc, d. rewrite app_nil_r.
    split; [reflexivity|]. split; assumption.
  - inversion HF as [|? ? (q & n & Hp & Hn & Ht) HF']; subst.
    destruct (@update_text_step done d r q n Hp Hn Ht Hinv) as (d1 & Hd & Hinv1).
    cbn [apply_to_targets]. rewrite Hd.
    destruct (IH (done ++ [r]) d1 (acc + (if is_text r then 1 else 0)) HF'
                Hinv1) as (cnt & d' & H1 & H2 & H3).
    + destruct (is_text r); lia.
    + rewrite existsb_app. cbn [existsb]. rewrite orb_false_r, <- Hc.
      destruct (is_text r), (acc >? 0) eqn:E; cbn;
        try rewrite Z.add_0_r; try assumption;
        apply Z.gtb_lt; lia.
    + exists cnt, d'. rewrite <- app_assoc in H2, H3. cbn [app] in H2, H3.
      split; [exact H1|]. split; assumption.
Qed.
End UpdateTextLoop.

Lemma retexted_none s c : retexted [] s c c.
Proof.
  intros q. split; [reflexivity|]. intros n Hn. rewrite Hn. reflexivity.
Qed.

(** X20.  An [update_text] operation with a string as new content, run
    through [_apply_operation] on the targets that its criteria find
    (JSONPath apart), gives the text to exactly the targets that are text
    nodes: every node of the document keeps its type, attrs, marks,
    extras and number of children, every node that is not such a target
    keeps its text, and the answer is [True] exactly when some target is
    a text node. *)
Theorem update_text_operation (key : dict -> option Z -> string)
    (d : ADFDocument) (op : UpdateOperation) (s : string)
    (targets : list SearchResult) :
  operation_type op = "update_text" ->
  op_new_content op = JStr s ->
  choose (target_criteria op) <> ByJsonPath ->
  find_element_in_adf key d (target_criteria op) None true = Ok targets ->
  exists d',
    _apply_operation key d op = (Ok (existsb is_text targets), d')
    /\ retexted targets s (doc_content (model d)) (doc_content (model d')).
Proof.
  intros Hop Hs Hc Hf. unfold _apply_operation. rewrite Hf.
  destruct targets as [|r rest] eqn:Et.
  - exists d. split; [reflexivity|apply retexted_none].
  - rewrite <- Et in *.
    assert (HF : Forall (fun r => exists q n,
                           ep_path (sr_path r) = map Z.of_nat q
                           /\ node_at (doc_content (model d)) q = Some n
                           /\ ep_type (sr_path r) = node_type n) targets).
    { eapply Forall_impl; [|eapply find_addressed; eauto].
      intros x (q & n & H1 & H2 & _ & H3 & _). now exists q, n. }
    destruct (@update_text_loop op s (doc_content (model d)) Hop Hs targets
                [] d 0 HF (retexted_none s _) (Z.le_refl 0) eq_refl)
      as (cnt & d' & H1 & H2 & H3).
    rewrite H1. cbn [app] in H2, H3. exists d'. rewrite H3.
    split; [reflexivity|exact H2].
Qed.

Lemma update_text_operation_witness :
  let op := mkOp "update_text" [("text", JStr "hello")] (JStr "Hi")
                 true true [] in
  exists d',
    _apply_operation key_by_names hello_document op = (Ok true, d')
    /\ option_map node_text (node_at (doc_content (model d')) [0; 0]%nat)
       = Some (Some "Hi")
    /\ option_map node_text (node_at (doc_content (model d')) [0]%nat)
       = Some None.
Proof.
  intros op.
  destruct (find_element_in_adf key_by_names hello_document
              (target_criteria op) None true) as [targets|] eqn:E;
    [|discriminate E].
  destruct (@update_text_operation key_by_names hello_document op "Hi"
              targets eq_refl eq_refl ltac:(discriminate) E)
    as (d' & H1 & H2).
  vm_compute in E. injection E as <-.
  exists d'. split; [exact H1|]. split.
  - destruct (H2 [0; 0]%nat) as [_ H]. now rewrite (H _ eq_refl).
  - destruct (H2 [0]%nat) as [_ H]. now rewrite (H _ eq_refl).
Defined.

(* ================================================================= *)
(** ** JSONPath *)

Lemma traverse_position_parts q : forall content,
  q <> [] ->
  _traverse_json_path (PNodes content) (position_parts q)
  = option_map PNode (node_at content q).
Proof.
  induction q as [|k rest IH]; intros content Hq; [contradiction|].
  cbn [position_parts _traverse_json_path node_at].
  unfold hop_int. replace (0 <=? Z.of_nat k) with true
    by (symmetry; apply Z.leb_le; lia).
  rewrite Nat2Z.id. destruct (nth_error content k) as [n|]; cbn [opt_pyval];
    [|reflexivity].
  destruct rest as [|j r]; [reflexivity|].
  cbn [_traverse_json_path]. unfold hop_str.
  change (String.eqb "content" "type") with false.
  change (String.eqb "content" "attrs") with false.
  change (String.eqb "content" "content") with true. cbv iota.
  destruct (node_content n) as [c|]; cbn [opt_pyval]; [|reflexivity].
  apply IH. discriminate.
Qed.

Lemma numeric_position_parts q :
  numeric_parts (position_parts q) = map Z.of_nat q.
Proof.
  induction q as [|k rest IH]; [reflexivity|].
  cbn [position_parts]. destruct rest as [|j r]; [reflexivity|].
  unfold numeric_parts in *. cbn [flat_map app map] in *. now rewrite IH.
Qed.

(** X21.  A JSONPath that reads [[i0].content[i1].content[i2] ...] finds
    the node that the positions [i0, i1, i2, ...] lead to, and nothing
    else: the result carries the dump, the type and the text of that
    node, the positions as its path, and the last position as its index;
    where the positions lead to no node the search returns nothing. *)
Theorem json_path_follows_positions (d : ADFDocument) (p : string)
    (q : list nat) :
  q <> [] ->
  _parse_simple_json_path p = position_parts q ->
  _search_by_json_path (JStr p) d
  = match node_at (doc_content (model d)) q with
    | Some n =>
        [mkSR (node_dump n)
              (mkEP (map Z.of_nat q) (node_type n) (node_text n))
              None (Z.of_nat (last q 0%nat))]
    | None => []
    end.
Proof.
  intros Hq Hp. unfold _search_by_json_path. rewrite Hp. cbv zeta.
  destruct (position_parts q) as [|x xs] eqn:E;
    [destruct q; [contradiction|discriminate]|].
  rewrite <- E, (traverse_position_parts _ Hq), numeric_position_parts.
  destruct (node_at _ q) as [n|]; cbn [option_map]; [|reflexivity].
  cbn [pyval_dump pyval_type pyval_text]. do 2 f_equal.
  clear -Hq. induction q as [|k [|j r] IH]; [contradiction|reflexivity|].
  cbn [map]. rewrite !last_cons. apply IH. discriminate.
Qed.

Lemma json_path_follows_positions_witness :
  _search_by_json_path (JStr "$[0].content[0]") hello_document
  = [mkSR (node_dump
             {| node_type := "text"; node_attrs := Some [];
                node_content := Some []; node_text := Some "Hello";
                node_marks := Some []; attrs_set := false;
                content_set := false; text_set := true; marks_set := false;
                node_extra := [] |})
          (mkEP [0; 0] "text" (Some "Hello")) None 0].
Proof.
  exact (@json_path_follows_positions hello_document "$[0].content[0]"
           [0; 0]%nat ltac:(discriminate) eq_refl).
Defined.

Lemma parse_empty_path : _parse_simple_json_path "" = [].
Proof. reflexivity. Qed.

(** X22.  A JSONPath whose first part is [content], as in
    [$.content[0].content[1]], finds nothing in any document, because the
    walk starts on the list of top-level nodes and not on the document;
    and since JSONPath comes first in the dispatch, a search that carries
    such a path returns the empty list whatever else its criteria say. *)
Theorem json_path_from_content_finds_nothing
    (key : dict -> option Z -> string) (d : ADFDocument) (criteria : dict)
    (p : string) (rest : list path_part) (limit : option Z)
    (include_context : bool) :
  dict_get "json_path" criteria = Some (JStr p) ->
  _parse_simple_json_path p = PStr "content" :: rest ->
  find_element_in_adf key d criteria limit include_context = Ok [].
Proof.
  intros Hc Hp.
  assert (Hne : String.eqb p "" = false).
  { destruct (String.eqb p "") eqn:E; [|reflexivity].
    apply String.eqb_eq in E. subst p. rewrite parse_empty_path in Hp.
    discriminate. }
  unfold find_element_in_adf, find_elements.
  destruct criteria as [|kv more]; [discriminate|].
  cbn [cache_get].
  assert (Hch : choose (kv :: more) = ByJsonPath).
  { unfold choose, get_truthy. rewrite Hc. cbn [truthy]. now rewrite Hne. }
  rewrite Hch. cbn [run_strategy]. rewrite Hc. cbn [or_null].
  unfold _search_by_json_path. rewrite Hp. cbn [_traverse_json_path hop_str].
  cbn [bind]. destruct include_context; cbn [_add_context_to_results bind];
    destruct limit as [n|]; cbn [fst]; try reflexivity;
    rewrite apply_limit_firstn; cbn [_sort_search_results fold_left];
    destruct (n =? 0); [reflexivity| |reflexivity|];
    destruct (0 <? n); now rewrite firstn_nil.
Qed.

Lemma json_path_from_content_finds_nothing_witness :
  find_element_in_adf key_by_names hello_document
    [("json_path", JStr "$.content[0].content[0]"); ("text", JStr "Hello")]
    None true = Ok []
  /\ exists r,
       find_element_in_adf key_by_names hello_document
         [("text", JStr "Hello")] None true = Ok [r].
Proof.
  split.
  - exact (@json_path_from_content_finds_nothing key_by_names hello_document
             [("json_path", JStr "$.content[0].content[0]");
              ("text", JStr "Hello")]
             "$.content[0].content[0]" [PInt 0; PStr "content"; PInt 0]
             None true eq_refl eq_refl).
  - eexists. reflexivity.
Defined.

(* ================================================================= *)
(** ** Inserting next to a nested target *)

Lemma node_at_snoc qp : forall c k,
  node_at c (qp ++ [k])
  = match get_parent c (map Z.of_nat qp) with
    | Some parent => nth_error parent k
    | None => None
    end.
Proof.
  induction qp as [|i rest IH]; intros c k.
  - cbn. now destruct (nth_error c k).
  - cbn [app map node_at get_parent].
    destruct (nth_error c i) as [e|] eqn:Ei.
    + assert (Hi : (i < List.length c)%nat)
        by (apply nth_error_Some; congruence).
      replace (Z.of_nat i >=? len c) with false
        by (symmetry; unfold len; rewrite Z.geb_leb; apply Z.leb_gt; lia).
      rewrite py_nth_nat, Ei.
      destruct (rest ++ [k]) as [|x y] eqn:Er; [now destruct rest|].
      rewrite <- Er. destruct (node_content e) as [cc|]; [apply IH|reflexivity].
    + destruct (Z.of_nat i >=? len c); [reflexivity|].
      now rewrite py_nth_nat, Ei.
Qed.

Lemma nth_error_list_insert_after A k (x : A) : forall l,
  nth_error (list_insert k x l) (S k) = nth_error l k.
Proof.
  induction k as [|k IH]; intros [|y l]; cbn; try reflexivity;
    try apply IH; now destruct k.
Qed.

Lemma nth_error_list_insert_before A k (x : A) : forall l j,
  (j < k <= List.length l)%nat ->
  nth_error (list_insert k x l) j = nth_error l j.
Proof.
  induction k as [|k IH]; intros l j Hj; [lia|].
  destruct l as [|y l]; cbn in *; [lia|].
  destruct j; [reflexivity|]. cbn. apply IH. lia.
Qed.

Lemma map_snoc A B (f : A -> B) l x : map f (l ++ [x]) = map f l ++ [f x].
Proof. now rewrite map_app. Qed.

Lemma insert_at_target d pp parent idx fs n k :
  _get_parent_at_path d pp = Some parent ->
  node_validate (JObj fs) = Some n ->
  0 <= idx <= len parent ->
  k = Z.to_nat idx ->
  count_of (e <- as_element (JObj fs) ;;
            _insert_element_at_path d pp idx e) d
  = (Ok 1,
     refreshed d (modify_parent (list_insert k n) (doc_content (model d)) pp)).
Proof.
  intros Hp Hv Hi ->. cbn [as_element bind].
  unfold _insert_element_at_path. rewrite Hp. cbv zeta.
  cbn [to_model]. rewrite Hv. cbn [bind count_of].
  rewrite py_insert_pos_clamped.
  replace (Z.max 0 (Z.min idx (Z.of_nat (List.length parent)))) with idx
    by (unfold len in *; lia).
  reflexivity.
Qed.

(** X23.  For a target that is not at the top level, [insert_before]
    puts the validated new node at the place of the target and the target
    one place further, and [insert_after] puts it one place after the
    target, which stays where it was; both return 1. *)
Theorem insert_next_to_nested_target (d : ADFDocument) (r : SearchResult)
    (op : UpdateOperation) (qp : list nat) (i : nat) (target : Node)
    (fs : dict) (n : Node) :
  qp <> [] ->
  ep_path (sr_path r) = map Z.of_nat (qp ++ [i]) ->
  node_at (doc_content (model d)) (qp ++ [i]) = Some target ->
  op_new_content op = JObj fs ->
  node_validate (JObj fs) = Some n ->
  (exists d',
      _apply_insert_before_operation d r op = (Ok 1, d')
      /\ node_at (doc_content (model d')) (qp ++ [i]) = Some n
      /\ node_at (doc_content (model d')) (qp ++ [S i]) = Some target)
  /\ (exists d',
         _apply_insert_after_operation d r op = (Ok 1, d')
         /\ node_at (doc_content (model d')) (qp ++ [i]) = Some target
         /\ node_at (doc_content (model d')) (qp ++ [S i]) = Some n).
Proof.
  intros Hq Hp Hn Hc Hv.
  rewrite node_at_snoc in Hn.
  destruct (get_parent (doc_content (model d)) (map Z.of_nat qp))
    as [parent|] eqn:Eg; [|discriminate].
  assert (Hi : (i < List.length parent)%nat)
    by (apply nth_error_Some; congruence).
  assert (Hlen : (len (ep_path (sr_path r)) <? 2) = false).
  { rewrite Hp. apply Z.ltb_ge. unfold len.
    rewrite length_map, length_app. cbn [List.length].
    destruct qp; [contradiction|]. cbn [List.length]. lia. }
  assert (Hrl : removelast (ep_path (sr_path r)) = map Z.of_nat qp)
    by (rewrite Hp, map_snoc; apply removelast_last).
  assert (Hla : last (ep_path (sr_path r)) 0 = Z.of_nat i)
    by (rewrite Hp, map_snoc; apply last_last).
  split.
  - unfold _apply_insert_before_operation. cbv zeta.
    rewrite Hlen, Hrl, Hla, Hc.
    rewrite (@insert_at_target d _ parent (Z.of_nat i) fs n i Eg Hv)
      by (unfold len; lia).
    eexists. split; [reflexivity|].
    cbn [refreshed model doc_content set_doc_content].
    rewrite !node_at_snoc, (@get_parent_modify _ _ _ _ Eg).
    split; [apply nth_error_list_insert; lia|].
    now rewrite nth_error_list_insert_after.
  - unfold _apply_insert_after_operation. cbv zeta.
    rewrite Hlen, Hrl, Hla, Hc.
    rewrite (@insert_at_target d _ parent (Z.of_nat i + 1) fs n (S i) Eg Hv)
      by (unfold len; lia).
    eexists. split; [reflexivity|].
    cbn [refreshed model doc_content set_doc_content].
    rewrite !node_at_snoc, (@get_parent_modify _ _ _ _ Eg).
    split; [|apply nth_error_list_insert; lia].
    rewrite nth_error_list_insert_before by lia. exact Hn.
Qed.

Lemma insert_next_to_nested_target_witness :
  let r := mkSR JNull (mkEP [0; 0] "text" (Some "Hello")) None 0 in
  let op := mkOp "insert_after" [("text", JStr "Hello")]
                 (JObj (text_node "Bye" [])) true true [] in
  exists d',
    _apply_insert_after_operation hello_document r op = (Ok 1, d')
    /\ option_map node_text (node_at (doc_content (model d')) [0; 0]%nat)
       = Some (Some "Hello")
    /\ option_map node_text (node_at (doc_content (model d')) [0; 1]%nat)
       = Some (Some "Bye").
Proof.
  intros r op.
  destruct (@insert_next_to_nested_target hello_document r op [0]%nat 0%nat
              {| node_type := "text"; node_attrs := Some [];
                 node_content := Some []; node_text := Some "Hello";
                 node_marks := Some []; attrs_set := false;
                 content_set := false; text_set := true; marks_set := false;
                 node_extra := [] |}
              (text_node "Bye" [])
              {| node_type := "text"; node_attrs := Some [];
                 node_content := Some []; node_text := Some "Bye";
                 node_marks := Some []; attrs_set := false;
                 content_set := false; text_set := true; marks_set := false;
                 node_extra := [] |}
              ltac:(discriminate) eq_refl eq_refl eq_refl eq_refl)
    as [_ (d' & H1 & H2 & H3)].
  exists d'. split; [exact H1|].
  change ([0]%nat ++ [0%nat]) with [0; 0]%nat in H2.
  change ([0]%nat ++ [1%nat]) with [0; 1]%nat in H3.
  split; [now rewrite H2|now rewrite H3].
Defined.

(* ================================================================= *)
(** ** Deleting a target *)

Lemma nth_error_list_remove A k : forall (l : list A) j,
  nth_error (list_remove k l) j
  = if (j <? k)%nat then nth_error l j else nth_error l (S j).
Proof.
  induction k as [|k IH]; intros [|y l] j; cbn [list_remove].
  - now destruct j.
  - reflexivity.
  - destruct (j <? S k)%nat; now destruct j.
  - destruct j as [|j]; [reflexivity|].
    cbn [nth_error]. rewrite IH.
    change (S j <? S k)%nat with (j <? k)%nat. reflexivity.
Qed.

Lemma delete_at d qp i :
  _delete_element_at_path d (map Z.of_nat (qp ++ [i]))
  = match get_parent (doc_content (model d)) (map Z.of_nat qp) with
    | Some parent =>
        if (i <? List.length parent)%nat
        then (true,
              refreshed d
                (modify_parent (list_remove i) (doc_content (model d))
                   (map Z.of_nat qp)))
        else (false, d)
    | None => (false, d)
    end.
Proof.
  unfold _delete_element_at_path.
  destruct (map Z.of_nat (qp ++ [i])) as [|x y] eqn:Ep.
  { rewrite map_snoc in Ep. now destruct (map Z.of_nat qp). }
  rewrite <- Ep, map_snoc, removelast_last, last_last. cbv zeta.
  unfold _get_parent_at_path.
  destruct (get_parent (doc_content (model d)) (map Z.of_nat qp))
    as [parent|]; [|reflexivity].
  destruct (i <? List.length parent)%nat eqn:Ei.
  - apply Nat.ltb_lt in Ei.
    replace (Z.of_nat i >=? len parent) with false
      by (symmetry; unfold len; rewrite Z.geb_leb; apply Z.leb_gt; lia).
    now rewrite py_pos_nat.
  - apply Nat.ltb_ge in Ei.
    replace (Z.of_nat i >=? len parent) with true
      by (symmetry; unfold len; rewrite Z.geb_leb; apply Z.leb_le; lia).
    reflexivity.
Qed.

(** X24.  The delete operation on a target whose path leads to a node
    returns 1 and removes exactly that node: the nodes before it in its
    parent stay where they were and every later one moves up one place.
    On a path that leads to no node it returns 0 and leaves the document
    as it was. *)
Theorem delete_removes_the_target (d : ADFDocument) (r : SearchResult)
    (op : UpdateOperation) (qp : list nat) (i : nat) :
  ep_path (sr_path r) = map Z.of_nat (qp ++ [i]) ->
  (forall target,
      node_at (doc_content (model d)) (qp ++ [i]) = Some target ->
      exists d',
        _apply_delete_operation d r op = (Ok 1, d')
        /\ (forall j, (j < i)%nat ->
              node_at (doc_content (model d')) (qp ++ [j])
              = node_at (doc_content (model d)) (qp ++ [j]))
        /\ (forall j, (i <= j)%nat ->
              node_at (doc_content (model d')) (qp ++ [j])
              = node_at (doc_content (model d)) (qp ++ [S j])))
  /\ (node_at (doc_content (model d)) (qp ++ [i]) = None ->
      _apply_delete_operation d r op = (Ok 0, d)).
Proof.
  intros Hp. unfold _apply_delete_operation. cbv zeta.
  rewrite Hp, delete_at, node_at_snoc.
  destruct (get_parent (doc_content (model d)) (map Z.of_nat qp))
    as [parent|] eqn:Eg.
  - destruct (i <? List.length parent)%nat eqn:Ei.
    + apply Nat.ltb_lt in Ei. split.
      * intros target _. eexists. split; [reflexivity|].
        cbn [refreshed model doc_content set_doc_content].
        split; intros j Hj;
          rewrite !node_at_snoc, (@get_parent_modify _ _ _ _ Eg), Eg,
            nth_error_list_remove.
        -- now replace (j <? i)%nat with true
             by (symmetry; apply Nat.ltb_lt; lia).
        -- now replace (j <? i)%nat with false
             by (symmetry; apply Nat.ltb_ge; lia).
      * intros Hn. apply nth_error_None in Hn. lia.
    + apply Nat.ltb_ge in Ei. split; [|reflexivity].
      intros target Hn.
      assert (nth_error parent i <> None) by congruence.
      apply nth_error_Some in H. lia.
  - split; [discriminate|reflexivity].
Qed.

Lemma delete_removes_the_target_witness :
  let d :=
    from_dict
      (doc_of [JObj [("type", JStr "paragraph");
                     ("content",
                      JArr [JObj (text_node "Hello" []);
                            JObj (text_node "Bye" [])])]]) in
  let r := mkSR JNull (mkEP [0; 0] "text" (Some "Hello")) None 0 in
  let op := mkOp "delete" [("text", JStr "Hello")] JNull true true [] in
  exists d',
    _apply_delete_operation d r op = (Ok 1, d')
    /\ option_map node_text (node_at (doc_content (model d')) [0; 0]%nat)
       = Some (Some "Bye").
Proof.
  intros d r op.
  destruct (@delete_removes_the_target d r op [0]%nat 0%nat eq_refl)
    as [H _].
  destruct (H _ eq_refl) as (d' & E & _ & Hm).
  exists d'. split; [exact E|].
  exact (f_equal (option_map node_text) (Hm 0%nat (le_n 0))).
Defined.

(* ================================================================= *)
(** ** Search by text and the element map *)

Lemma text_results_paths q (w : list (list Z * Z * Node)) :
  map sr_path
    (flat_map
       (fun x =>
          match node_text (snd x) with
          | Some t =>
              if negb (String.eqb t "")
                 && (negb (String.eqb t "") && contains (lower q) (lower t))
              then [node_result (Some t) (fst (fst x)) (snd (fst x)) (snd x)]
              else []
          | None => []
          end) w)
  = filter (says q)
      (flat_map (fun x => map_entry (fst (fst x)) (snd (fst x)) (snd x)) w).
Proof.
  induction w as [|[[p i] n] w IH]; [reflexivity|].
  cbn [flat_map fst snd]. rewrite map_app, filter_app, IH. f_equal.
  unfold map_entry, says. cbn [filter ep_text_content].
  destruct (node_text n) as [t|]; [|reflexivity].
  destruct (negb (String.eqb t "")); cbn [andb]; [|reflexivity].
  destruct (contains (lower q) (lower t)); reflexivity.
Qed.

(** X25.  For a query and a document whose texts are ASCII strings, a
    search by text alone does not raise, and the paths of its results are
    the entries of the element map whose text is not empty and contains
    the query when both are put in lower case, each of them once. *)
Theorem text_search_finds_the_map_entries
    (key : dict -> option Z -> string) (d : ADFDocument) (q : string)
    (include_context : bool) :
  q <> "" ->
  is_ascii q = true ->
  forallb ascii_text (_build_element_map (model d)) = true ->
  exists rs,
    find_element_in_adf key d [("text", JStr q)] None include_context
    = Ok rs
    /\ Permutation (map sr_path rs)
         (filter (says q) (_build_element_map (model d))).
Proof.
  intros Hq _ _. apply String.eqb_neq in Hq.
  unfold find_element_in_adf, find_elements. cbn [cache_get].
  assert (Hc : choose [("text", JStr q)] = ByText)
    by (unfold choose, get_truthy; cbn; now rewrite Hq).
  rewrite Hc. cbn [run_strategy].
  change (or_null (dict_get "text" [("text", JStr q)])) with (JStr q).
  cbn [_search_by_text_content bind].
  set (rs0 := _search_text_recursive _ _ _).
  assert (H0 : Forall (reports d) rs0).
  { eapply Forall_impl; [|apply search_text_addressed].
    intros r. apply addressed_reports. }
  assert (Hp : map sr_path rs0
               = filter (says q) (_build_element_map (model d))).
  { unfold rs0, _search_text_recursive, _build_element_map, traverse.
    match goal with
    | |- map sr_path (traverse_from ?v _ _ _)
         = filter _ (traverse_from ?m _ _ _) =>
        rewrite (traverse_walk v), (traverse_walk m)
    end.
    apply text_results_paths. }
  assert (H1 : exists rs1,
             (if include_context then _add_context_to_results rs0 d
              else Ok rs0) = Ok rs1
             /\ map sr_path rs1 = map sr_path rs0).
  { destruct include_context; [now apply add_context_to_results_total|].
    now exists rs0. }
  destruct H1 as (rs1 & E1 & P1). rewrite E1. cbn [bind apply_limit fst].
  eexists. split; [reflexivity|].
  destruct (@sort_fold rs1 [] (SSorted_nil _)) as (P & _ & _).
  rewrite <- Hp, <- P1. apply Permutation_map. exact P.
Qed.

Lemma text_search_finds_the_map_entries_witness :
  exists rs,
    find_element_in_adf key_by_names hello_document
      [("text", JStr "ELL")] None true = Ok rs
    /\ Permutation (map sr_path rs) [mkEP [0; 0] "text" (Some "Hello")].
Proof.
  destruct (@text_search_finds_the_map_entries key_by_names hello_document
              "ELL" true ltac:(discriminate) eq_refl eq_refl)
    as (rs & H1 & H2).
  exists rs. split; [exact H1|exact H2].
Defined.

(* ================================================================= *)
(** ** Contents that were never set *)








(** What the dump of a node holds below it: its children, when its
    content was set. *)
Lemma json_at_node n k rest :
  node_ok n = true ->
  json_at (node_dump_x n) (k :: rest)
  = if content_set n then
      match node_content n with
      | Some l =>
          match nth_error l k with
          | Some y => json_at (node_dump_x y) rest
          | None => None
          end
      | None => None
      end
    else None.
Proof.
  intros Hok.
  assert (He : extra_ok node_declared (node_extra n) = true).
  { destruct n as [t a c x m sa sc sx sm e]. cbn [node_ok node_extra] in *.
    apply andb_prop in Hok as [Hok _]. now apply andb_prop in Hok as [_ Hok]. }
  rewrite node_dump_x_eq. cbn [json_at].
  rewrite (node_fields_get n "content" He eq_refl).
  cbn [String.eqb Ascii.eqb Bool.eqb].
  destruct (node_content n) as [l|]; cbn [entry_get];
    [|now destruct (content_set n)].
  destruct (content_set n); [|reflexivity].
  rewrite nth_error_map. now destruct (nth_error l k).
Qed.





Lemma json_at_shown q : forall n,
  node_ok n = true ->
  json_at (node_dump_x n) q = option_map node_dump_x (shown_below n q).
Proof.
  induction q as [|k rest IH]; intros n Hok; [reflexivity|].
  rewrite json_at_node by exact Hok. cbn [shown_below].
  destruct (content_set n); [|reflexivity].
  destruct (node_content n) as [l|] eqn:El; [|reflexivity].
  destruct (nth_error l k) as [y|] eqn:Ek; [|reflexivity].
  apply IH. pose proof (node_ok_content _ Hok El) as Hl.
  rewrite forallb_forall in Hl. apply Hl. eapply nth_error_In; eauto.
Qed.

(** The dictionary of a well-formed model holds the nodes that lie below
    contents that were set. *)
Lemma json_at_to_dict m q :
  model_ok m = true -> q <> [] ->
  json_at (model_to_dict m) q = option_map node_dump_x (shown_at m q).
Proof.
  unfold model_ok. intros Hok Hq. apply andb_prop in Hok as [Hn He].
  destruct q as [|k rest]; [contradiction|].
  rewrite model_to_dict_fields. cbn [json_at shown_at].
  rewrite (to_dict_get m "content" He).
  cbn [String.eqb Ascii.eqb Bool.eqb]. unfold doc_content_entry.
  destruct (doc_content_set m); [|reflexivity].
  rewrite nth_error_map.
  destruct (nth_error (doc_content m) k) as [y|] eqn:Ek; [|reflexivity].
  cbn [option_map]. apply json_at_shown.
  rewrite forallb_forall in Hn. apply Hn. eapply nth_error_In; eauto.
Qed.



(* ================================================================= *)
(** ** What [to_dict] holds *)

(** X27.  The dictionary of a document built from node dictionaries
    holds, at the positions [q], the dump of the node that the tree has
    there when every content on the way was set, and nothing when one was
    not. *)
Theorem to_dict_shows_set_contents (d : ADFDocument) (q : list nat) :
  built d -> q <> [] ->
  json_at (to_dict d) q = option_map node_dump_x (shown_at (model d) q).
Proof.
  intros Hb Hq. exact (@json_at_to_dict _ q (built_ok Hb) Hq).
Qed.

Lemma to_dict_shows_set_contents_witness :
  json_at (to_dict hello_document) [0; 0]%nat
  = Some (JObj (text_node "Hello" [])).
Proof.
  rewrite (@to_dict_shows_set_contents hello_document [0; 0]%nat
             (built_init _) ltac:(discriminate)).
  reflexivity.
Defined.
